(** * Document ingestion pipeline of the research-assistant application

    A shallow embedding of the client-side ingestion code of [src/App.tsx]:
    [extractPdfText] (with its inlined line reconstruction),
    [extractPptxText] and [handleFileChange].

    Conventions of the embedding.
    - A JS string is a [string]: a sequence of 8-bit code units, the
      Latin-1 range of the UTF-16 code units of the source.
    - A JS number holding a page coordinate or a width is a binary64
      double: the primitive [float], whose operations are specified by
      [FloatAxioms] on the [spec_float] of [SpecFloat].  NaN, the
      infinities and the two zeros are values like the others.
    - A file size, a count of bytes, is a [Z]; the keyword counts that
      rank the related gaps are [nat], their differences [Z].
    - A rejected promise or a thrown exception is the [message] of the
      thrown value, carried on the left of a sum.
    - A promise that is never settled is [None]: the code that awaits it
      goes no further.
    - [Array.prototype.sort] is stable, so with a consistent comparator it
      is the stable insertion sort [sort_by].  Where a comparator gives
      NaN the order is left to the implementation; the statements about an
      order are made for coordinates that are not NaN. *)

From Stdlib Require Import Floats.
From Stdlib Require Import ZArith List String Ascii Bool Lia.
From Stdlib Require Import Sorting.Sorted Sorting.Permutation.
From Stdlib Require Import DecimalString.
Import ListNotations.

Local Open Scope string_scope.
Local Open Scope list_scope.
Local Open Scope Z_scope.

(** String concatenation, the [+] and template literals of the source. *)
Infix "^^" := String.append (at level 60, right associativity).

(** ** Strings *)

Module Str.

(** The white space and line terminators removed by [String.prototype.trim],
    as far as they lie below code unit 256. *)
Definition is_white_space (c : ascii) : bool :=
  let n := nat_of_ascii c in
  ((9 <=? n) && (n <=? 13) || (n =? 32) || (n =? 160))%nat.

Fixpoint trimStart (s : string) : string :=
  match s with
  | EmptyString => EmptyString
  | String c s' => if is_white_space c then trimStart s' else s
  end.

Fixpoint trimEnd (s : string) : string :=
  match s with
  | EmptyString => EmptyString
  | String c s' =>
      let t := trimEnd s' in
      if is_white_space c && (t =? EmptyString)%string then EmptyString else String c t
  end.

Definition trim (s : string) : string := trimEnd (trimStart s).

Fixpoint all_white_space (s : string) : bool :=
  match s with
  | EmptyString => true
  | String c s' => is_white_space c && all_white_space s'
  end.

(** [s.startsWith(p)] *)
Definition startsWith (s p : string) : bool := String.prefix p s.

(** [s.endsWith(p)]: the last [p.length] code units of [s] are [p]. *)
Definition endsWith (s p : string) : bool :=
  let n := String.length s in
  let m := String.length p in
  (m <=? n)%nat && (substring (n - m) m s =? p)%string.

(** [s.toLowerCase()] on code units below 256: A-Z and the accented
    capitals 192-222 (without the multiplication sign 215). *)
Definition lower_char (c : ascii) : ascii :=
  let n := nat_of_ascii c in
  if ((65 <=? n) && (n <=? 90)
      || (192 <=? n) && (n <=? 222) && negb (n =? 215))%nat
  then ascii_of_nat (n + 32) else c.

Fixpoint toLowerCase (s : string) : string :=
  match s with
  | EmptyString => EmptyString
  | String c s' => String (lower_char c) (toLowerCase s')
  end.

(** [xs.join(sep)] *)
Definition join (sep : string) (xs : list string) : string :=
  String.concat sep xs.

(** [s.includes(sub)] *)
Fixpoint includes (s sub : string) : bool :=
  String.prefix sub s ||
  match s with
  | EmptyString => false
  | String _ s' => includes s' sub
  end.

(** The decimal rendering of a loop counter in a template literal. *)
Definition of_nat (n : nat) : string :=
  NilZero.string_of_uint (Nat.to_uint n).

End Str.

(** The line feed of the source's ['\n']. *)
Definition LF : string := String "010" EmptyString.

(** The double quote inside the size message. *)
Definition DQ : string := String "034" EmptyString.

(** ** Errors *)

(** The outcome of an awaited promise: [inl message] when it rejects. *)
Definition result (A : Type) : Type := (string + A)%type.

Definition Ok {A} (a : A) : result A := inr a.
Definition Throw {A} (message : string) : result A := inl message.

Definition bind {A B} (r : result A) (k : A -> result B) : result B :=
  match r with
  | inl e => inl e
  | inr a => k a
  end.

Notation "'let*' x ':=' r 'in' k" := (bind r (fun x => k))
  (at level 10, x name, r at level 100, k at level 200).

(** [try { body } catch (err) { throw new Error(message) }] *)
Definition try_rethrow {A} (body : result A) (message : string) : result A :=
  match body with
  | inl _ => inl message
  | inr a => inr a
  end.

(** ** Stable sort with a JS comparator *)

(** The sort for a comparator whose results are integers: [a] stays
    before [b] unless [compareFn a b > 0]. *)
Section Sort.
Context {A : Type}.
Variable compareFn : A -> A -> Z.

Fixpoint insert_by (a : A) (l : list A) : list A :=
  match l with
  | [] => [a]
  | b :: l' => if compareFn a b <=? 0 then a :: l else b :: insert_by a l'
  end.

Fixpoint sort_by (l : list A) : list A :=
  match l with
  | [] => []
  | a :: l' => insert_by a (sort_by l')
  end.
End Sort.

(** The same sort for a comparator whose result is a double: [a] goes
    behind [b] when [compareFn a b > 0]; a result that is NaN counts as
    +0, as in [SortCompare]. *)
Section NumberSort.
Context {A : Type}.
Variable compareFn : A -> A -> float.

Fixpoint insert_by_number (a : A) (l : list A) : list A :=
  match l with
  | [] => [a]
  | b :: l' =>
      if (0 <? compareFn a b)%float then b :: insert_by_number a l'
      else a :: l
  end.

Fixpoint sort_by_number (l : list A) : list A :=
  match l with
  | [] => []
  | a :: l' => insert_by_number a (sort_by_number l')
  end.
End NumberSort.

(** ** Numbers *)

(** [SameValueZero], the equality of [Map] keys: NaN is equal to itself
    and the two zeros are equal. *)
Definition sameValueZero (x y : float) : bool :=
  (is_nan x && is_nan y) || (x =? y)%float.

(** The key under which [Map.prototype.set] stores a new entry: -0 is
    stored as +0. *)
Definition key_of (k : float) : float :=
  if is_zero k then 0%float else k.

(** [Math.abs(lineY - y) < 5] *)
Definition within_tolerance (lineY y : float) : bool :=
  (abs (lineY - y) <? 5)%float.

(** ** Line reconstruction (the page loop body of [extractPdfText]) *)

(** A text item of pdf.js: [str], [transform[4]] (horizontal origin),
    [transform[5]] (vertical origin) and [width] ([undefined] as [None]).
    An item without [str] (marked content) has the empty [str]: both are
    falsy. *)
Record TextItem : Type := mkItem {
  str : string;
  transform4 : float;
  transform5 : float;
  width : option float
}.

(** [lines : Map<number, any[]>], in insertion order; its keys are
    compared with [SameValueZero]. *)
Definition LineMap : Type := list (float * list TextItem).

Definition Map_keys (m : LineMap) : list float := List.map fst m.

Fixpoint Map_get (k : float) (m : LineMap) : option (list TextItem) :=
  match m with
  | [] => None
  | (k', v) :: m' => if sameValueZero k' k then Some v else Map_get k m'
  end.

(** [m.set(k, v)]: an existing key keeps its place and gets the new
    value, a new one goes last. *)
Fixpoint Map_set (k : float) (v : list TextItem) (m : LineMap) : LineMap :=
  match m with
  | [] => [(key_of k, v)]
  | (k', v') :: m' =>
      if sameValueZero k' k then (k', v) :: m' else (k', v') :: Map_set k v m'
  end.

(** [m.get(k)?.push(item)]: the array stored under [k] grows in place. *)
Fixpoint Map_push (k : float) (item : TextItem) (m : LineMap) : LineMap :=
  match m with
  | [] => []
  | (k', v) :: m' =>
      if sameValueZero k' k then (k', v ++ [item]) :: m'
      else (k', v) :: Map_push k item m'
  end.

(** [!item.str || item.str.trim() === ''] *)
Definition is_blank (s : string) : bool :=
  (s =? EmptyString)%string || (Str.trim s =? EmptyString)%string.

(** The [for (const lineY of lines.keys())] loop with its [break]. *)
Definition foundKey (lines : LineMap) (y : float) : option float :=
  List.find (fun lineY => within_tolerance lineY y) (Map_keys lines).

(** One call of the [items.forEach] callback. *)
Definition add_item (lines : LineMap) (item : TextItem) : LineMap :=
  if is_blank (str item) then lines
  else
    let y := transform5 item in
    match foundKey lines y with
    | Some k => Map_push k item lines
    | None => Map_set y [item] lines
    end.

Definition group_items (items : list TextItem) : LineMap :=
  List.fold_left add_item items [].

(** [current.width || 0]: [undefined], NaN and the zeros are falsy. *)
Definition width_or_0 (it : TextItem) : float :=
  match width it with
  | Some w => if is_nan w || is_zero w then 0%float else w
  | None => 0%float
  end.

Definition gap_of (current next : TextItem) : float :=
  (transform4 next - (transform4 current + width_or_0 current))%float.

(** One round of the [for (let j = 0; j < lineItems.length; j++)] loop. *)
Definition lineStr_step (lineItems : list TextItem) (lineStr : string)
    (j : nat) : string :=
  match nth_error lineItems j with
  | None => lineStr
  | Some current =>
      let lineStr := lineStr ^^ str current in
      match nth_error lineItems (S j) with
      | Some next =>
          let gap := gap_of current next in
          if (20 <? gap)%float then lineStr ^^ "    "
          else if (2 <? gap)%float then lineStr ^^ " "
          else lineStr
      | None => lineStr
      end
  end.

Definition lineStr (lineItems : list TextItem) : string :=
  List.fold_left (lineStr_step lineItems)
    (List.seq 0 (List.length lineItems)) EmptyString.

(** [Array.from(lines.keys()).sort((a, b) => b - a)] *)
Definition sortedY (lines : LineMap) : list float :=
  sort_by_number (fun a b => (b - a)%float) (Map_keys lines).

(** [lineItems.sort((a, b) => a.transform[4] - b.transform[4])] *)
Definition sort_line (lineItems : list TextItem) : list TextItem :=
  sort_by_number (fun a b => (transform4 a - transform4 b)%float) lineItems.

Definition line_of (lines : LineMap) (y : float) : list TextItem :=
  sort_line (match Map_get y lines with Some v => v | None => [] end).

(** The text of one page: [pageText] after the [sortedY.forEach]. *)
Definition pageText (items : list TextItem) : string :=
  let lines := group_items items in
  List.fold_left
    (fun pageText y => pageText ^^ lineStr (line_of lines y) ^^ LF)
    (sortedY lines) EmptyString.

(** ** PDF extraction *)

(** What pdf.js gives for a loaded document: for page [i] (1-indexed) the
    outcome of [await pdf.getPage(i)] followed by
    [await page.getTextContent()], the page's text items or a rejection. *)
Record PDFDocument : Type := mkPdf {
  getPageItems : list (result (list TextItem))
}.

Definition numPages (pdf : PDFDocument) : nat :=
  List.length (getPageItems pdf).

Definition getTextContent (pdf : PDFDocument) (i : nat)
    : result (list TextItem) :=
  match nth_error (getPageItems pdf) (i - 1) with
  | Some r => r
  | None => Throw "Invalid page request."
  end.

(** [`--- Page ${i} ---\n${pageText}\n\n`] *)
Definition page_block (i : nat) (items : list TextItem) : string :=
  "--- Page " ^^ Str.of_nat i ^^ " ---" ^^ LF ^^ pageText items ^^ LF ^^ LF.

(** The [for (let i = 1; i <= pdf.numPages; i++)] loop over its counters. *)
Fixpoint pages_loop (pdf : PDFDocument) (counters : list nat)
    (fullText : string) : result string :=
  match counters with
  | [] => Ok fullText
  | i :: rest =>
      let* items := getTextContent pdf i in
      pages_loop pdf rest (fullText ^^ page_block i items)
  end.

Definition pdf_error_message : string :=
  "Failed to extract text from PDF. The file might be corrupted or complex.".

(** ** PPTX extraction *)

Module Regex.

(** [s] without its prefix [p], when it has that prefix. *)
Fixpoint drop_prefix (p s : string) : option string :=
  match p, s with
  | EmptyString, _ => Some s
  | String a p', String b s' =>
      if Ascii.eqb a b then drop_prefix p' s' else None
  | String _ _, EmptyString => None
  end.

(** The longest prefix of [s] whose code units satisfy [f], and the rest. *)
Fixpoint span (f : ascii -> bool) (s : string) : string * string :=
  match s with
  | EmptyString => (EmptyString, EmptyString)
  | String c s' =>
      if f c then let '(a, b) := span f s' in (String c a, b)
      else (EmptyString, s)
  end.

Definition not_lt (c : ascii) : bool := negb (Ascii.eqb c "<").

(** All code units of [s] satisfy [f]. *)
Fixpoint all_chars (f : ascii -> bool) (s : string) : bool :=
  match s with
  | EmptyString => true
  | String c s' => f c && all_chars f s'
  end.

(** [\d] *)
Definition is_digit (c : ascii) : bool :=
  let n := nat_of_ascii c in ((48 <=? n) && (n <=? 57))%nat.

(** The pattern [<a:t>], any run of code units other than [<], [</a:t>],
    anchored at the start of [s]: the matched
    text.  The greedy [[^<]*] never has to give a code unit back, since
    what follows it must start with [<]. *)
Definition run_at (s : string) : option string :=
  match drop_prefix "<a:t>" s with
  | None => None
  | Some r =>
      let '(body, rest) := span not_lt r in
      if String.prefix "</a:t>" rest
      then Some ("<a:t>" ^^ body ^^ "</a:t>")
      else None
  end.

(** The scan of a global regular expression: try each position from the
    left; after a match, resume behind it ([skip] code units remain to be
    passed). *)
Fixpoint scan_runs (s : string) (skip : nat) : list string :=
  match s with
  | EmptyString => []
  | String _ s' =>
      match skip with
      | S k => scan_runs s' k
      | O =>
          match run_at s with
          | Some m => m :: scan_runs s' (String.length m - 1)
          | None => scan_runs s' 0
          end
      end
  end.

(** [content.match] with that pattern and the [g] flag, [null] as [[]]: a
    match is never empty, so the array of a successful match is not. *)
Definition match_runs (content : string) : list string :=
  scan_runs content 0.

(** [m.replace] of every [<a:t>] and [</a:t>] by the empty string. *)
Fixpoint replace_tags (s : string) (skip : nat) : string :=
  match s with
  | EmptyString => EmptyString
  | String c s' =>
      match skip with
      | S k => replace_tags s' k
      | O =>
          if String.prefix "<a:t>" s then replace_tags s' 4
          else if String.prefix "</a:t>" s then replace_tags s' 5
          else String c (replace_tags s' 0)
      end
  end.

Definition strip_tags (m : string) : string := replace_tags m 0.

(** The pattern [slide], one or more digits (group 1), [.xml], anchored
    at the start of [s]: group 1. *)
Definition number_at (s : string) : option string :=
  match drop_prefix "slide" s with
  | None => None
  | Some r =>
      let '(digits, rest) := span is_digit r in
      if negb (digits =? EmptyString)%string && String.prefix ".xml" rest
      then Some digits
      else None
  end.

(** [name.match] with that pattern: group 1 of the leftmost match. *)
Fixpoint slide_number (name : string) : option string :=
  match number_at name with
  | Some d => Some d
  | None =>
      match name with
      | EmptyString => None
      | String _ name' => slide_number name'
      end
  end.

End Regex.

(** An entry of a JSZip archive: the outcome of its [async("string")]. *)
Record ZipObject : Type := mkEntry {
  async_string : result string
}.

(** [zip.files], an object without prototype, in key order. *)
Definition JSZip : Type := list (string * ZipObject).

Definition Object_keys (zip : JSZip) : list string := List.map fst zip.

(** [zip.files[name]] *)
Fixpoint files_get (zip : JSZip) (name : string) : option ZipObject :=
  match zip with
  | [] => None
  | (n, o) :: zip' => if (n =? name)%string then Some o else files_get zip' name
  end.

(** [matches.map(m => m.replace(...)).join(" ")] *)
Definition joined_text (matches : list string) : string :=
  Str.join " " (List.map Regex.strip_tags matches).

Definition is_slide_file (name : string) : bool :=
  Str.startsWith name "ppt/slides/slide" && Str.endsWith name ".xml".

Definition slideNum_of (slideFile : string) : string :=
  match Regex.slide_number slideFile with
  | Some d => d
  | None => "??"
  end.

Definition notesFile_of (slideNum : string) : string :=
  "ppt/notesSlides/notesSlide" ^^ slideNum ^^ ".xml".

(** One round of [for (const slideFile of slideFiles)]. *)
Definition slide_step (zip : JSZip) (fullText : string) (slideFile : string)
    : result string :=
  let slideNum := slideNum_of slideFile in
  let* content :=
    match files_get zip slideFile with
    | Some o => async_string o
    | None => Throw "Cannot read properties of undefined (reading 'async')"
    end in
  let matches := Regex.match_runs content in
  let fullText :=
    match matches with
    | [] => fullText
    | _ :: _ =>
        fullText ^^ "--- Slide " ^^ slideNum ^^ " ---" ^^ LF
                 ^^ joined_text matches ^^ LF
    end in
  match files_get zip (notesFile_of slideNum) with
  | Some o =>
      let* notesContent := async_string o in
      let notesMatches := Regex.match_runs notesContent in
      match notesMatches with
      | [] => Ok fullText
      | _ :: _ =>
          Ok (fullText ^^ "[Slide " ^^ slideNum ^^ " Notes: "
                       ^^ joined_text notesMatches ^^ "]" ^^ LF)
      end
  | None => Ok fullText
  end.

Fixpoint slides_loop (zip : JSZip) (slideFiles : list string)
    (fullText : string) : result string :=
  match slideFiles with
  | [] => Ok fullText
  | slideFile :: rest =>
      let* fullText := slide_step zip fullText slideFile in
      slides_loop zip rest fullText
  end.

Definition slideFiles_of (zip : JSZip) : list string :=
  List.filter is_slide_file (Object_keys zip).

(** ** Ingestion *)

Definition MAX_FILE_SIZE : Z := 50 * 1024 * 1024.

(** The attributes of a browser [File] that the code reads. *)
Module File.
Record t : Type := make {
  name : string;
  type : string;
  size : Z
}.
End File.

Record UploadedFile : Type := mkUploaded {
  name : string;
  type : string;
  data : string;
  preview : option string
}.

(** The two pieces of component state that [handleFileChange] writes. *)
Record AppState : Type := mkState {
  files : list UploadedFile;
  error : option string
}.

Definition setError (e : option string) (st : AppState) : AppState :=
  {| files := files st; error := e |}.

Definition setFiles (f : list UploadedFile -> list UploadedFile)
    (st : AppState) : AppState :=
  {| files := f (files st); error := error st |}.

Definition pdf_mime : string := "application/pdf".

Definition pptx_mime : string :=
  "application/vnd.openxmlformats-officedocument.presentationml.presentation".

(** [err.message || "Failed to parse PDF file."] *)
Definition message_or (message fallback : string) : string :=
  if (message =? EmptyString)%string then fallback else message.

Section Ingestion.

(** The collaborators: the browser's file reading, pdf.js and JSZip.
    [readAsDataURL file] is the [reader.result] handed to [resolve] by
    [reader.onload]; it is [None] when the read fails: [onload] then never
    fires, nothing rejects the promise, and the [await] never returns. *)
Variable ArrayBuffer : Type.
Variable arrayBuffer : File.t -> result ArrayBuffer.
Variable getDocument : ArrayBuffer -> result PDFDocument.
Variable loadAsync : File.t -> result JSZip.
Variable readAsDataURL : File.t -> option string.

Definition extractPdfText (file : File.t) : result string :=
  let* buffer := arrayBuffer file in
  try_rethrow
    (let* pdf := getDocument buffer in
     pages_loop pdf (List.seq 1 (numPages pdf)) EmptyString)
    pdf_error_message.

Definition extractPptxText (file : File.t) : result string :=
  let* zip := loadAsync file in
  slides_loop zip (slideFiles_of zip) EmptyString.

(** The branches behind the size check of [handleFileChange]; [None] when
    the handler stays pending on the read of an image. *)
Definition dispatch (acc : list UploadedFile * AppState) (file : File.t)
    : option (list UploadedFile * AppState) :=
  let '(newFiles, st) := acc in
  if Str.startsWith (File.type file) "image/" then
    match readAsDataURL file with
    | Some base64 =>
        Some (newFiles ++ [ {| name := File.name file; type := File.type file;
                               data := base64; preview := Some base64 |} ], st)
    | None => None
    end
  else if Str.endsWith (Str.toLowerCase (File.name file)) ".pdf"
          || (File.type file =? pdf_mime)%string then
    match extractPdfText file with
    | inr text =>
        Some (newFiles ++ [ {| name := File.name file; type := pdf_mime;
                               data := text; preview := None |} ], st)
    | inl message =>
        Some (newFiles,
              setError (Some (message_or message "Failed to parse PDF file."))
                       st)
    end
  else if Str.endsWith (Str.toLowerCase (File.name file)) ".pptx" then
    match extractPptxText file with
    | inr text =>
        Some (newFiles ++ [ {| name := File.name file; type := pptx_mime;
                               data := text; preview := None |} ], st)
    | inl _ =>
        Some (newFiles, setError (Some "Failed to parse PPTX file.") st)
    end
  else
    Some (newFiles,
          setError (Some ("Unsupported file type: " ^^ File.name file)) st).

(** One round of [for (const file of selectedFiles)]: the local
    [newFiles] and the component state. *)
Definition file_step (acc : list UploadedFile * AppState) (file : File.t)
    : option (list UploadedFile * AppState) :=
  let '(newFiles, st) := acc in
  if File.size file >? MAX_FILE_SIZE then
    Some (newFiles,
          setError (Some ("File " ^^ DQ ^^ File.name file ^^ DQ
                           ^^ " exceeds the 50MB limit.")) st)
  else dispatch (newFiles, st) file.

(** The loop over the selected files: [newFiles] when it ends ([None]
    when a round stays pending) and the component state it leaves. *)
Fixpoint files_loop (selectedFiles : list File.t)
    (acc : list UploadedFile * AppState)
    : option (list UploadedFile) * AppState :=
  match selectedFiles with
  | [] => (Some (fst acc), snd acc)
  | file :: rest =>
      match file_step acc file with
      | Some acc' => files_loop rest acc'
      | None => (None, snd acc)
      end
  end.

(** The component state that a call of the handler leaves: [setFiles] is
    reached only when the loop ends. *)
Definition handleFileChange (selectedFiles : list File.t) (st : AppState)
    : AppState :=
  let st := setError None st in
  match files_loop selectedFiles ([], st) with
  | (Some newFiles, st) => setFiles (fun prev => prev ++ newFiles) st
  | (None, st) => st
  end.

(** What one file comes to, whatever the state it is met in: the
    message passed to [setError], or the record pushed on [newFiles];
    [None] when its read never completes. *)
Definition file_result (file : File.t) : option (string + UploadedFile) :=
  match file_step ([], {| files := []; error := None |}) file with
  | None => None
  | Some (u :: _, _) => Some (inr u)
  | Some ([], st) =>
      match error st with
      | Some message => Some (inl message)
      | None => Some (inl EmptyString)
      end
  end.

(** The outcomes of the files that the loop gets through: all of them, or
    those before the first read that never completes. *)
Fixpoint outcomes (selectedFiles : list File.t)
    : list (string + UploadedFile) :=
  match selectedFiles with
  | [] => []
  | file :: rest =>
      match file_result file with
      | Some r => r :: outcomes rest
      | None => []
      end
  end.

(** The loop gets through all files. *)
Definition completes (selectedFiles : list File.t) : bool :=
  List.forallb
    (fun file => match file_result file with Some _ => true | None => false end)
    selectedFiles.

End Ingestion.

(** The messages and the records among the outcomes of a batch. *)
Definition messages (rs : list (string + UploadedFile)) : list string :=
  List.flat_map (fun r => match r with inl m => [m] | inr _ => [] end) rs.

Definition records (rs : list (string + UploadedFile)) : list UploadedFile :=
  List.flat_map (fun r => match r with inl _ => [] | inr u => [u] end) rs.

(** A closed instance of the collaborators, to run the code on. *)
Module Sample.

Definition deck : JSZip :=
  [ ("ppt/slides/slide1.xml", mkEntry (Ok "<p:sp><a:t>Intro</a:t></p:sp>"));
    ("ppt/notesSlides/notesSlide1.xml",
     mkEntry (Ok "<a:r><a:t>remember X</a:t></a:r>")) ].

Definition blank_deck : JSZip :=
  [ ("ppt/slides/slide1.xml", mkEntry (Ok "<p:sld><p:pic/></p:sld>")) ].

(** Reading the bytes of [locked.pdf] is refused. *)
Definition arrayBuffer (file : File.t) : result string :=
  if (File.name file =? "locked.pdf")%string
  then Throw "The requested file could not be read."
  else Ok (File.name file).

Definition getDocument (buffer : string) : result PDFDocument :=
  if (buffer =? "paper.pdf")%string then
    Ok (mkPdf [Ok [mkItem "Alpha" 72 700 (Some 30%float)];
               Ok [mkItem "Beta" 72 700 (Some 24%float)]])
  else if (buffer =? "torn.pdf")%string then
    Ok (mkPdf [Ok [mkItem "Alpha" 72 700 (Some 30%float)];
               Throw "Page 2 cannot be read."])
  else Throw "Invalid PDF structure.".

Definition loadAsync (file : File.t) : result JSZip :=
  if (File.name file =? "deck.pptx")%string then Ok deck
  else if (File.name file =? "blank.pptx")%string then Ok blank_deck
  else Throw "Not a zip archive.".

(** The read of [gone.png] never completes. *)
Definition readAsDataURL (file : File.t) : option string :=
  if (File.name file =? "gone.png")%string then None
  else Some ("data:" ^^ File.type file ^^ ";base64,AAAA").

Definition extractPdfText : File.t -> result string :=
  extractPdfText string arrayBuffer getDocument.

Definition extractPptxText : File.t -> result string :=
  extractPptxText loadAsync.

Definition file_step
    : list UploadedFile * AppState -> File.t
      -> option (list UploadedFile * AppState) :=
  file_step string arrayBuffer getDocument loadAsync readAsDataURL.

Definition handleFileChange : list File.t -> AppState -> AppState :=
  handleFileChange string arrayBuffer getDocument loadAsync readAsDataURL.

Definition start : AppState := {| files := []; error := None |}.

Definition paper : File.t := File.make "paper.pdf" "text/plain" 4096.
Definition torn : File.t := File.make "torn.pdf" "application/pdf" 4096.
Definition broken : File.t := File.make "broken.pdf" "application/pdf" 512.
Definition big : File.t :=
  File.make "big.pdf" "application/pdf" (50 * 1024 * 1024 + 1).
Definition photo : File.t :=
  File.make "photo.png" "image/png" (50 * 1024 * 1024).
Definition notes : File.t := File.make "notes.txt" "text/plain" 10.
Definition slides : File.t := File.make "deck.pptx" "application/zip" 2048.
Definition blank : File.t := File.make "blank.pptx" pptx_mime 2048.
Definition locked : File.t := File.make "locked.pdf" "application/pdf" 4096.
Definition gone : File.t := File.make "gone.png" "image/png" 4096.

End Sample.

(** ** The analysis result and its views ([src/types.ts], [src/App.tsx]) *)

Inductive GapType : Type :=
  | METHODOLOGICAL | THEORETICAL | EMPIRICAL | PRACTICAL | KNOWLEDGE.

Inductive Impact : Type := High | Medium | Low.

Definition GapType_eqb (a b : GapType) : bool :=
  match a, b with
  | METHODOLOGICAL, METHODOLOGICAL | THEORETICAL, THEORETICAL
  | EMPIRICAL, EMPIRICAL | PRACTICAL, PRACTICAL | KNOWLEDGE, KNOWLEDGE => true
  | _, _ => false
  end.

Definition Impact_eqb (a b : Impact) : bool :=
  match a, b with
  | High, High | Medium, Medium | Low, Low => true
  | _, _ => false
  end.

(** The string values of the enum and of the impact union. *)
Definition GapType_value (t : GapType) : string :=
  match t with
  | METHODOLOGICAL => "Methodological"
  | THEORETICAL => "Theoretical"
  | EMPIRICAL => "Empirical"
  | PRACTICAL => "Practical"
  | KNOWLEDGE => "Knowledge"
  end.

Definition Impact_value (i : Impact) : string :=
  match i with
  | High => "High"
  | Medium => "Medium"
  | Low => "Low"
  end.

Module Gap.
Record t : Type := make {
  id : string;
  title : string;
  description : string;
  type : GapType;
  justification : string;
  potentialImpact : Impact;
  suggestedMethods : list string
}.
End Gap.

(** A filter state: ['All'] or one value. *)
Inductive Filter (A : Type) : Type :=
  | All : Filter A
  | Only : A -> Filter A.
Arguments All {A}.
Arguments Only {A} _.

(** [filteredGaps], on the gaps of the result ([None]: no result yet). *)
Definition filteredGaps (gaps : option (list Gap.t))
    (filterType : Filter GapType) (filterImpact : Filter Impact)
    : list Gap.t :=
  match gaps with
  | None => []
  | Some gaps =>
      List.filter
        (fun gap =>
           let typeMatch :=
             match filterType with
             | All => true
             | Only t => GapType_eqb (Gap.type gap) t
             end in
           let impactMatch :=
             match filterImpact with
             | All => true
             | Only i => Impact_eqb (Gap.potentialImpact gap) i
             end in
           typeMatch && impactMatch)
        gaps
  end.

(** ** The file list and its selection ([src/App.tsx]) *)

(** A [Set<number>], in insertion order and without repeats. *)
Definition NumSet : Type := list nat.

Definition Set_has (s : NumSet) (i : nat) : bool :=
  List.existsb (Nat.eqb i) s.

Definition Set_delete (s : NumSet) (i : nat) : NumSet :=
  List.filter (fun j => negb (j =? i)%nat) s.

Definition Set_add (s : NumSet) (i : nat) : NumSet :=
  if Set_has s i then s else s ++ [i].

(** [new Set(values)] *)
Definition Set_from (values : list nat) : NumSet :=
  List.fold_left Set_add values [].

(** [xs.filter((_, i) => keep(i))], the indices counted from [i]. *)
Fixpoint filter_index_from {A} (keep : nat -> bool) (i : nat) (xs : list A)
    : list A :=
  match xs with
  | [] => []
  | x :: xs' =>
      if keep i then x :: filter_index_from keep (S i) xs'
      else filter_index_from keep (S i) xs'
  end.

Definition filter_index {A} (keep : nat -> bool) (xs : list A) : list A :=
  filter_index_from keep 0 xs.

Module Selection.

Record t : Type := make {
  files : list UploadedFile;
  selectedFileIndices : NumSet
}.

Definition removeFile (index : nat) (st : t) : t :=
  {| files := filter_index (fun i => negb (i =? index)%nat) (files st);
     selectedFileIndices := Set_delete (selectedFileIndices st) index |}.

Definition toggleFileSelection (index : nat) (st : t) : t :=
  {| files := files st;
     selectedFileIndices :=
       let next := selectedFileIndices st in
       if Set_has next index then Set_delete next index
       else Set_add next index |}.

Definition selectAllFiles (st : t) : t :=
  {| files := files st;
     selectedFileIndices :=
       Set_from (List.seq 0 (List.length (files st))) |}.

(** The [selectedFiles] of [handleBulkFastQuestion]. *)
Definition selectedFiles (st : t) : list UploadedFile :=
  filter_index (Set_has (selectedFileIndices st)) (files st).

End Selection.

(** ** The saved analyses ([src/App.tsx]) *)

Module History.

Section Entries.
(** The analysis result is carried along unchanged. *)
Variable AnalysisResult : Type.

Record SavedAnalysis : Type := mkSaved {
  id : string;
  timestamp : Z;
  title : string;
  result : AnalysisResult
}.

(** The history in the component state and the text kept in
    [localStorage] under the storage key. *)
Record t : Type := make {
  savedHistory : list SavedAnalysis;
  stored : option string
}.

(** [JSON.stringify] on a history. *)
Variable stringify : list SavedAnalysis -> string.

(** [inputText.slice(0, 40) || "Research Session " + date] *)
Definition title_of (inputText localeDate : string) : string :=
  let head := String.substring 0 40 inputText in
  if (head =? EmptyString)%string then "Research Session " ^^ localeDate
  else head.

(** [saveToHistory]: [uuid] is [crypto.randomUUID()], [now] is
    [Date.now()], [localeDate] is [new Date().toLocaleDateString()]. *)
Definition saveToHistory (current : option AnalysisResult)
    (inputText uuid : string) (now : Z) (localeDate : string) (st : t) : t :=
  match current with
  | None => st
  | Some r =>
      let newEntry :=
        {| id := uuid; timestamp := now;
           title := title_of inputText localeDate; result := r |} in
      {| savedHistory := newEntry :: savedHistory st;
         stored := Some (stringify (newEntry :: savedHistory st)) |}
  end.

Definition deleteFromHistory (target : string) (st : t) : t :=
  let updated :=
    List.filter (fun h => negb (id h =? target)%string) (savedHistory st) in
  {| savedHistory := updated; stored := Some (stringify updated) |}.

End Entries.

End History.

(** ** The CSV export of the gaps ([exportGapsCSV], [src/App.tsx]) *)

Module Csv.

(** [s.replace] of every double quote by two of them. *)
Fixpoint escape (s : string) : string :=
  match s with
  | EmptyString => EmptyString
  | String c s' =>
      if Ascii.eqb c "034" then String c (String c (escape s'))
      else String c (escape s')
  end.

(** The template literal that puts the escaped text between quotes. *)
Definition quote (s : string) : string := DQ ^^ escape s ^^ DQ.

Definition headers : list string :=
  ["ID"; "Title"; "Type"; "Impact"; "Description"; "Justification";
   "Suggested Methods"].

Definition row (gap : Gap.t) : list string :=
  [ Gap.id gap;
    quote (Gap.title gap);
    GapType_value (Gap.type gap);
    Impact_value (Gap.potentialImpact gap);
    quote (Gap.description gap);
    quote (Gap.justification gap);
    quote (Str.join "; " (Gap.suggestedMethods gap)) ].

(** [csvContent] *)
Definition content (gaps : list Gap.t) : string :=
  Str.join LF (List.map (Str.join ",") (headers :: List.map row gaps)).

(** What [exportGapsCSV] hands to [downloadFile]: content, file name and
    content type; nothing without a result. *)
Definition exportGapsCSV (gaps : option (list Gap.t))
    : option (string * string * string) :=
  match gaps with
  | None => None
  | Some gaps => Some (content gaps, "research_gaps.csv", "text/csv")
  end.

End Csv.

(** ** Related gaps ([relatedGaps] of the gap card) *)

Module Related.

(** [\w]: a letter, a digit or the underscore. *)
Definition is_word_char (c : ascii) : bool :=
  let n := nat_of_ascii c in
  ((65 <=? n) && (n <=? 90) || (97 <=? n) && (n <=? 122)
   || (48 <=? n) && (n <=? 57) || (n =? 95))%nat.

(** [text.split] at the runs of code units that are no word characters:
    [cur] is the piece being read, [in_sep] tells that a separator run is
    being passed. *)
Fixpoint split_from (s cur : string) (in_sep : bool) : list string :=
  match s with
  | EmptyString => [cur]
  | String c s' =>
      if is_word_char c then split_from s' (cur ^^ String c EmptyString) false
      else if in_sep then split_from s' EmptyString true
      else cur :: split_from s' EmptyString true
  end.

Definition split_words (text : string) : list string :=
  split_from text EmptyString false.

(** A [Set<string>], in insertion order and without repeats. *)
Definition StrSet : Type := list string.

Definition has (s : StrSet) (w : string) : bool :=
  List.existsb (String.eqb w) s.

Definition add (s : StrSet) (w : string) : StrSet :=
  if has s w then s else s ++ [w].

Definition from (ws : list string) : StrSet := List.fold_left add ws [].

Definition stopWords : StrSet :=
  from ["the"; "and"; "for"; "with"; "that"; "this"; "from"; "research";
        "study"; "into"; "analysis"; "gap"; "lack"; "of"; "in"; "on"; "a";
        "to"].

Definition getKeywords (g : Gap.t) : StrSet :=
  let text := Str.toLowerCase (Gap.title g ^^ " " ^^ Gap.description g) in
  from (List.filter
          (fun word => (3 <? String.length word)%nat
                       && negb (has stopWords word))
          (split_words text)).

(** The size of the intersection with the keywords of the card's gap. *)
Definition score (currentKeywords : StrSet) (g : Gap.t) : nat :=
  let otherKeywords := getKeywords g in
  List.length (from (List.filter (has otherKeywords) currentKeywords)).

Definition relatedGaps (gap : Gap.t) (allGaps : list Gap.t) : list Gap.t :=
  if (List.length allGaps <=? 1)%nat then []
  else
    let currentKeywords := getKeywords gap in
    List.map fst
      (List.firstn 3
         (sort_by (fun a b => Z.of_nat (snd b) - Z.of_nat (snd a))
            (List.filter (fun item => (0 <? snd item)%nat)
               (List.map (fun g => (g, score currentKeywords g))
                  (List.filter
                     (fun g => negb (Gap.id g =? Gap.id gap)%string)
                     allGaps))))).

End Related.

(** ** The analysis request ([analyzeLiterature], [src/services/geminiService.ts]) *)

Module Request.

(** [s.split(sep)] for a separator of one code unit: [cur] is the piece
    being read. *)
Fixpoint split_from (sep : ascii) (s cur : string) : list string :=
  match s with
  | EmptyString => [cur]
  | String c s' =>
      if Ascii.eqb c sep then cur :: split_from sep s' EmptyString
      else split_from sep s' (cur ^^ String c EmptyString)
  end.

Definition split (sep : ascii) (s : string) : list string :=
  split_from sep s EmptyString.

(** A part of the request: the prompt text, or the inline data of an
    image with its MIME type ([data] is [undefined] as [None]). *)
Inductive Part : Type :=
  | TextPart (text : string)
  | InlineData (mimeType : string) (data : option string).

(** The opening of the prompt, up to the main text. *)
Definition preamble : string :=
  "Act as a senior scientific research strategist. Analyze the provided literature materials to synthesize a comprehensive research landscape report." ^^ LF
  ^^ "  " ^^ LF
  ^^ "  Your analysis must include:" ^^ LF
  ^^ "  1. A summary of the current state of the field." ^^ LF
  ^^ "  2. Identification of 5-8 distinct research gaps (Methodological, Theoretical, Empirical, Practical, or Knowledge)." ^^ LF
  ^^ "  3. A conceptual network map of key entities." ^^ LF
  ^^ "  4. Topic saturation levels vs novelty potential." ^^ LF
  ^^ "  5. 3-5 novel, actionable, and scientifically rigorous research questions that directly address the identified gaps. Each question must include a clear rationale and a specific "
  ^^ DQ ^^ "next step" ^^ DQ ^^ " for a researcher." ^^ LF
  ^^ LF
  ^^ "  Main Text Context: ".

Definition is_image (f : UploadedFile) : bool :=
  Str.startsWith (type f) "image/".

(** [`Content from file (${f.name}):\n${f.data}\n\n`] *)
Definition file_section (f : UploadedFile) : string :=
  "Content from file (" ^^ name f ^^ "):" ^^ LF ^^ data f ^^ LF ^^ LF.

Definition prompt (text : string) (files : list UploadedFile) : string :=
  List.fold_left (fun prompt f => prompt ^^ file_section f)
    (List.filter (fun f => negb (is_image f)) files)
    (preamble ^^ text ^^ LF ^^ LF).

(** [f.data.split(',')[1]] *)
Definition inline_data (f : UploadedFile) : Part :=
  InlineData (type f) (nth_error (split "," (data f)) 1).

(** The [parts] sent with the request. *)
Definition parts (text : string) (files : list UploadedFile) : list Part :=
  List.fold_left (fun parts f => parts ++ [inline_data f])
    (List.filter is_image files)
    [TextPart (prompt text files)].

End Request.

(** ** The chat ([handleSendChatMessage], [src/App.tsx]) *)

Module ChatPanel.

Inductive Role : Type := user | ai.

Record Message : Type := mkMessage {
  role : Role;
  text : string
}.

(** What the response stream yields: a chunk (a falsy one is [None],
    otherwise its [text], [undefined] as [None]), its end, or a failure. *)
Inductive Stream : Type :=
  | Done
  | Chunk (chunk : option (option string)) (rest : Stream)
  | Broken (message : string).

(** [chatSession.sendMessageStream({ message })] *)
Definition Session : Type := string -> result Stream.

Record t : Type := make {
  chatMessages : list Message;
  currentChatInput : string;
  isChatTyping : bool;
  chatSession : option Session
}.

(** [newMessages[newMessages.length - 1].text = aiResponseText]; the list
    is never empty there, the answer having been appended before. *)
Fixpoint set_last_text (messages : list Message) (aiResponseText : string)
    : list Message :=
  match messages with
  | [] => []
  | [m] => [ {| role := role m; text := aiResponseText |} ]
  | m :: rest => m :: set_last_text rest aiResponseText
  end.

(** The [for await] loop: the messages at its end, and the failure that
    ended it, if any. *)
Fixpoint consume (stream : Stream) (aiResponseText : string)
    (messages : list Message) : list Message * option string :=
  match stream with
  | Done => (messages, None)
  | Broken e => (messages, Some e)
  | Chunk None rest => consume rest aiResponseText messages
  | Chunk (Some t) rest =>
      let aiResponseText :=
        aiResponseText
          ^^ match t with Some s => s | None => EmptyString end in
      consume rest aiResponseText (set_last_text messages aiResponseText)
  end.

Definition apology : Message :=
  {| role := ai;
     text := "I'm sorry, I encountered an error. Please try asking again." |}.

Definition handleSendChatMessage (st : t) : t :=
  match chatSession st with
  | None => st
  | Some session =>
      if (Str.trim (currentChatInput st) =? EmptyString)%string
         || isChatTyping st
      then st
      else
        let userText := currentChatInput st in
        let messages :=
          chatMessages st ++ [ {| role := user; text := userText |} ] in
        let messages :=
          match session userText with
          | inl _ => messages ++ [apology]
          | inr responseStream =>
              let messages :=
                messages ++ [ {| role := ai; text := EmptyString |} ] in
              match consume responseStream EmptyString messages with
              | (messages, None) => messages
              | (messages, Some _) => messages ++ [apology]
              end
          end in
        {| chatMessages := messages;
           currentChatInput := EmptyString;
           isChatTyping := false;
           chatSession := chatSession st |}
  end.

(** The text of all chunks of a stream, and the failure that ends it. *)
Fixpoint stream_text (stream : Stream) : string :=
  match stream with
  | Done | Broken _ => EmptyString
  | Chunk None rest => stream_text rest
  | Chunk (Some t) rest =>
      match t with Some s => s | None => EmptyString end ^^ stream_text rest
  end.

Fixpoint stream_failure (stream : Stream) : option string :=
  match stream with
  | Done => None
  | Broken e => Some e
  | Chunk _ rest => stream_failure rest
  end.

End ChatPanel.

(** ** Derived views used in the statements *)

(** The white space put between two neighbours of a line. *)
Definition spacing (gap : float) : string :=
  if (20 <? gap)%float then "    "
  else if (2 <? gap)%float then " "
  else EmptyString.

(** The lines of a page in output order, each in reading order. *)
Definition reconstructed_lines (items : list TextItem)
    : list (float * list TextItem) :=
  let lines := group_items items in
  List.map (fun y => (y, line_of lines y)) (sortedY lines).

(** A line-group whose key is not within the tolerance of [y]. *)
Definition far_from (y : float) (e : float * list TextItem) : Prop :=
  within_tolerance (fst e) y = false.

(** Two keys of the line map are never the same value. *)
Definition apart (a b : float) : Prop := sameValueZero a b = false.

(** A fragment without width. *)
Definition frag (s : string) (x y : float) : TextItem := mkItem s x y None.

(** The white space behind [current] on a line that goes on with [rest]. *)
Definition spacing_to (current : TextItem) (rest : list TextItem) : string :=
  match rest with
  | [] => EmptyString
  | next :: _ => spacing (gap_of current next)
  end.

(** The page loop, read off the list of page outcomes. *)
Fixpoint run_pages (i : nat) (pages : list (result (list TextItem)))
    (fullText : string) : result string :=
  match pages with
  | [] => Ok fullText
  | r :: rest =>
      let* items := r in
      run_pages (S i) rest (fullText ^^ page_block i items)
  end.

(** The fragments of all line-groups. *)
Definition fragments_of (lines : LineMap) : list TextItem :=
  List.concat (List.map snd lines).

(** A line-group is well formed: its key is the vertical origin of its
    first fragment, and all its fragments are non-blank and within the
    tolerance of the key. *)
Definition group_ok (e : float * list TextItem) : Prop :=
  (exists first rest,
      snd e = first :: rest /\ fst e = key_of (transform5 first))
  /\ Forall (fun it => within_tolerance (fst e) (transform5 it) = true
                       /\ Str.all_white_space (str it) = false) (snd e).

(** The XML of a part whose text runs are known: each run, with the text
    [body], comes behind some [filler], and [tail] ends the part. *)
Fixpoint markup (pieces : list (string * string)) (tail : string) : string :=
  match pieces with
  | [] => tail
  | (filler, body) :: rest =>
      filler ^^ "<a:t>" ^^ body ^^ "</a:t>" ^^ markup rest tail
  end.

(** [subsequence xs ys]: [xs] is [ys] with some entries left out, the
    others in their order. *)
Inductive subsequence {A : Type} : list A -> list A -> Prop :=
  | subsequence_nil : subsequence [] []
  | subsequence_keep (x : A) (xs ys : list A) :
      subsequence xs ys -> subsequence (x :: xs) (x :: ys)
  | subsequence_drop (y : A) (xs ys : list A) :
      subsequence xs ys -> subsequence xs (y :: ys).

Module Decks.

(** Slide 2 is listed before slide 1. *)
Definition shuffled : JSZip :=
  [ ("ppt/slides/slide2.xml", mkEntry (Ok "<a:p><a:t>Two</a:t></a:p>"));
    ("ppt/slides/slide1.xml", mkEntry (Ok "<a:p><a:t>One</a:t></a:p>")) ].

(** The XML of slide 2 cannot be read. *)
Definition torn : JSZip :=
  [ ("ppt/slides/slide1.xml", mkEntry (Ok "<a:p><a:t>One</a:t></a:p>"));
    ("ppt/slides/slide2.xml", mkEntry (Throw "Corrupted zip: CRC32 mismatch")) ].

(** Slide 3 and its notes part hold several text runs each. *)
Definition several_runs : JSZip :=
  [ ("ppt/slides/slide3.xml",
     mkEntry (Ok "<p:sp><a:r><a:t>Hello</a:t></a:r><a:r><a:t>wide world</a:t></a:r></p:sp>"));
    ("ppt/notesSlides/notesSlide3.xml",
     mkEntry (Ok "<a:p><a:t>say</a:t><a:br/><a:t>hi</a:t></a:p>")) ].

(** [Sample.deck] with an unreadable picture besides. *)
Definition with_media : JSZip :=
  ("ppt/media/image1.png", mkEntry (Throw "Corrupted zip: CRC32 mismatch"))
    :: Sample.deck.

Definition load (zip : JSZip) (file : File.t) : result JSZip := Ok zip.

Definition pick (file : File.t) : result JSZip :=
  if (File.name file =? "media.pptx")%string then Ok with_media
  else Ok Sample.deck.

End Decks.

(** The number of line feeds in a text. *)
Fixpoint line_feeds (s : string) : nat :=
  match s with
  | EmptyString => 0
  | String c s' =>
      ((if Ascii.eqb c "010" then 1 else 0) + line_feeds s')%nat
  end.

(** A gap whose texts hold no line feed. *)
Definition single_line (g : Gap.t) : Prop :=
  line_feeds (Gap.id g) = 0%nat
  /\ line_feeds (Gap.title g) = 0%nat
  /\ line_feeds (Gap.description g) = 0%nat
  /\ line_feeds (Gap.justification g) = 0%nat
  /\ Forall (fun m => line_feeds m = 0%nat) (Gap.suggestedMethods g).

(** The candidates of a card: the gaps with another identifier together
    with their positive scores, as the pipeline has them before sorting. *)
Definition scored_candidates (gap : Gap.t) (allGaps : list Gap.t)
    : list (Gap.t * nat) :=
  List.filter (fun item => (0 <? snd item)%nat)
    (List.map (fun g => (g, Related.score (Related.getKeywords gap) g))
       (List.filter (fun g => negb (Gap.id g =? Gap.id gap)%string)
          allGaps)).

(** The candidates in the order of the sort. *)
Definition ranked (gap : Gap.t) (allGaps : list Gap.t)
    : list (Gap.t * nat) :=
  sort_by (fun a b => Z.of_nat (snd b) - Z.of_nat (snd a))
          (scored_candidates gap allGaps).

Module Cards.

Definition attention : Gap.t :=
  Gap.make "g1" "Sparse attention benchmarks"
    "Missing evaluation of sparse transformers" METHODOLOGICAL
    "Few comparisons exist" High ["ablation"; "survey"].

Definition drift : Gap.t :=
  Gap.make "g2" "Transformers under drift"
    "Sparse data and evaluation protocols" EMPIRICAL
    "Shifts are rarely measured" Medium [].

Definition ethics : Gap.t :=
  Gap.make "g3" "Ethics of deployment" "Clinical oversight boards"
    PRACTICAL "Little guidance" Low [].

(** A session whose stream gives two chunks and then breaks. *)
Definition breaking : ChatPanel.Session :=
  fun _ =>
    Ok (ChatPanel.Chunk (Some (Some "Two gaps "))
          (ChatPanel.Chunk None
             (ChatPanel.Chunk (Some (Some "stand out"))
                (ChatPanel.Broken "network error")))).

Definition asking : ChatPanel.t :=
  ChatPanel.make [ChatPanel.mkMessage ChatPanel.ai "Analysis complete!"]
    "Which gaps matter most?" false (Some breaking).

End Cards.

(** The guard of [handleAnimateImage]: it goes on only for a file with a
    non-empty preview and an image type. *)
Definition can_animate (file : UploadedFile) : bool :=
  negb (match preview file with
        | None => true
        | Some p => (p =? EmptyString)%string
        end
        || negb (Str.startsWith (type file) "image/")).

(** The rank of a double that is not NaN among the integers: doubles
    compare as their ranks do.  It serves the proofs about the order of
    doubles. *)
Definition rank (x : spec_float) : Z :=
  match x with
  | S754_zero _ => 0
  | S754_nan => 0
  | S754_infinity s => cond_Zopp s ((emax - emin + 2) * 2 ^ prec)
  | S754_finite s m e => cond_Zopp s ((e - emin + 1) * 2 ^ prec + Zpos m)
  end.

(** Settles [x = (0 <? z)] for a Boolean [x] that has been computed. *)
Ltac ltb_sign :=
  cbv beta iota; symmetry;
  first [apply Z.ltb_lt; nia | apply Z.ltb_ge; nia].

(** * Properties *)

(** ** Strings *)

Lemma append_nil_r (s : string) : s ^^ EmptyString = s.
Proof. induction s as [|c s IH]; simpl; [reflexivity | now rewrite IH]. Qed.

Lemma append_assoc (a b c : string) : (a ^^ b) ^^ c = a ^^ b ^^ c.
Proof. induction a as [|x a IH]; simpl; [reflexivity | now rewrite IH]. Qed.

Lemma length_append (a b : string) :
  String.length (a ^^ b) = (String.length a + String.length b)%nat.
Proof. induction a as [|x a IH]; simpl; [reflexivity | now rewrite IH]. Qed.

Lemma prefix_append (p s : string) : String.prefix p (p ^^ s) = true.
Proof.
  induction p as [|c p IH]; simpl.
  - now destruct s.
  - destruct (ascii_dec c c); [exact IH | congruence].
Qed.

Lemma prefix_empty (s : string) : String.prefix EmptyString s = true.
Proof. now destruct s. Qed.

Lemma substring_all (s : string) : substring 0 (String.length s) s = s.
Proof. induction s as [|c s IH]; simpl; [reflexivity | now rewrite IH]. Qed.

Lemma substring_append_r (a b : string) :
  substring (String.length a) (String.length b) (a ^^ b) = b.
Proof. induction a as [|c a IH]; simpl; [apply substring_all | exact IH]. Qed.

Lemma endsWith_append (a p : string) : Str.endsWith (a ^^ p) p = true.
Proof.
  unfold Str.endsWith. rewrite length_append.
  replace (String.length a + String.length p - String.length p)%nat
    with (String.length a) by lia.
  rewrite substring_append_r, String.eqb_refl.
  rewrite andb_true_r. apply Nat.leb_le. lia.
Qed.

(** [trim] leaves nothing exactly on the strings made of white space. *)
Lemma trimStart_all_white_space (s : string) :
  Str.all_white_space s = true -> Str.trimStart s = EmptyString.
Proof.
  induction s as [|c s IH]; simpl; [reflexivity|].
  destruct (Str.is_white_space c); simpl; [exact IH | discriminate].
Qed.

Lemma trimEnd_empty (s : string) :
  Str.trimEnd s = EmptyString -> Str.all_white_space s = true.
Proof.
  induction s as [|c s IH]; simpl; [reflexivity|].
  destruct (Str.is_white_space c); simpl; [|discriminate].
  destruct (Str.trimEnd s); [intros _; now apply IH | discriminate].
Qed.

Lemma trimStart_head (s : string) :
  match Str.trimStart s with
  | EmptyString => Str.all_white_space s = true
  | String c _ => Str.is_white_space c = false
  end.
Proof.
  induction s as [|c s IH]; simpl; [reflexivity|].
  destruct (Str.is_white_space c) eqn:E; simpl; [exact IH | exact E].
Qed.

Lemma is_blank_spec (s : string) :
  is_blank s = Str.all_white_space s.
Proof.
  unfold is_blank, Str.trim.
  destruct (Str.all_white_space s) eqn:E.
  - rewrite (trimStart_all_white_space s E). simpl. apply orb_true_r.
  - apply orb_false_iff. split.
    + apply String.eqb_neq. intros ->. discriminate.
    + apply String.eqb_neq. intros H.
      pose proof (trimStart_head s) as Hh.
      destruct (Str.trimStart s) as [|c t] eqn:Et; [congruence|].
      apply trimEnd_empty in H. simpl in H. rewrite Hh in H. discriminate.
Qed.

(** ** Doubles *)

(** What the statements need of binary64 arithmetic, from the
    specification of the primitive operations. *)

Lemma digits2_pos_bounds (p : positive) :
  2 ^ (Zpos (digits2_pos p) - 1) <= Zpos p < 2 ^ Zpos (digits2_pos p).
Proof.
  induction p as [p IH | p IH |]; cbn [digits2_pos].
  - rewrite Pos2Z.inj_succ.
    replace (Z.succ (Zpos (digits2_pos p)) - 1) with (Z.succ (Zpos (digits2_pos p) - 1)) by lia.
    rewrite !Z.pow_succ_r by lia. lia.
  - rewrite Pos2Z.inj_succ.
    replace (Z.succ (Zpos (digits2_pos p)) - 1) with (Z.succ (Zpos (digits2_pos p) - 1)) by lia.
    rewrite !Z.pow_succ_r by lia. lia.
  - cbn. lia.
Qed.

Lemma shr_1_m (mrs : shr_record) :
  0 <= shr_m mrs -> shr_m (shr_1 mrs) = Z.div2 (shr_m mrs).
Proof.
  destruct mrs as [m r s]. cbn [shr_m]. intros H.
  destruct m as [|[p|p|]|p]; try reflexivity; lia.
Qed.

Lemma iter_pos_shr_1_m (q : positive) (mrs : shr_record) :
  0 <= shr_m mrs ->
  shr_m (SpecFloat.iter_pos shr_1 q mrs) = Z.shiftr (shr_m mrs) (Zpos q).
Proof.
  revert mrs. induction q as [q IH | q IH |]; intros mrs H; cbn [SpecFloat.iter_pos].
  - assert (H1 : 0 <= shr_m (shr_1 mrs)).
    { rewrite shr_1_m by assumption. rewrite Z.div2_div. apply Z.div_pos; lia. }
    assert (H2 : 0 <= shr_m (SpecFloat.iter_pos shr_1 q (shr_1 mrs))).
    { rewrite IH by assumption. apply Z.shiftr_nonneg. assumption. }
    rewrite IH, IH by assumption. rewrite shr_1_m by assumption.
    rewrite Z.div2_spec. rewrite !Z.shiftr_shiftr by lia.
    f_equal. lia.
  - assert (H2 : 0 <= shr_m (SpecFloat.iter_pos shr_1 q mrs)).
    { rewrite IH by assumption. apply Z.shiftr_nonneg. assumption. }
    rewrite IH, IH by assumption. rewrite !Z.shiftr_shiftr by lia.
    f_equal. lia.
  - rewrite shr_1_m by assumption. apply Z.div2_spec.
Qed.

Lemma shr_record_of_loc_m (m : Z) (l : location) :
  shr_m (shr_record_of_loc m l) = m.
Proof. destruct l as [|[]]; reflexivity. Qed.

(** Shifting a positive mantissa to its canonical exponent keeps it positive
    when the exponent is not below the least one. *)
Lemma shr_fexp_pos (m e : Z) (l : location) :
  0 < m -> emin <= e ->
  0 < shr_m (fst (shr_fexp prec emax m e l)) /\
  emin <= snd (shr_fexp prec emax m e l).
Proof.
  intros Hm He. destruct m as [|p|p]; try lia.
  unfold shr_fexp, shr. cbn [Zdigits2].
  pose proof (digits2_pos_bounds p) as [Hlo Hhi].
  set (d := Zpos (digits2_pos p)) in *.
  destruct (fexp prec emax (d + e) - e) as [|q|q] eqn:En; cbn [fst snd];
    rewrite ?shr_record_of_loc_m; try (split; lia).
  rewrite iter_pos_shr_1_m by (rewrite shr_record_of_loc_m; lia).
  rewrite shr_record_of_loc_m.
  assert (Hq : Zpos q <= d - 1).
  { unfold fexp in En. unfold SpecFloat.emin, prec, emax in *. lia. }
  split; [|lia].
  rewrite Z.shiftr_div_pow2 by lia.
  apply Z.div_str_pos. split; [apply Z.pow_pos_nonneg; lia|].
  apply Z.le_trans with (2 ^ (d - 1)); [|assumption].
  apply Z.pow_le_mono_r; lia.
Qed.

Lemma round_nearest_even_ge (m : Z) (l : location) :
  m <= round_nearest_even m l.
Proof.
  destruct l as [|[]]; cbn; try lia. destruct (Z.even m); lia.
Qed.

Lemma binary_round_aux_pos (m e : Z) :
  0 < m -> emin <= e ->
  SFltb (S754_zero false) (binary_round_aux prec emax false m e loc_Exact) = true.
Proof.
  intros Hm He. unfold binary_round_aux.
  destruct (shr_fexp prec emax m e loc_Exact) as [mrs' e'] eqn:E1.
  pose proof (shr_fexp_pos m e loc_Exact Hm He) as [H1 H1'].
  rewrite E1 in H1, H1'. cbn [fst snd] in H1, H1'.
  pose proof (round_nearest_even_ge (shr_m mrs') (loc_of_shr_record mrs')) as Hr.
  destruct (shr_fexp prec emax (round_nearest_even (shr_m mrs') (loc_of_shr_record mrs')) e' loc_Exact)
    as [mrs'' e''] eqn:E2.
  pose proof (shr_fexp_pos (round_nearest_even (shr_m mrs') (loc_of_shr_record mrs')) e' loc_Exact
                ltac:(lia) H1') as [H2 _].
  rewrite E2 in H2. cbn [fst] in H2.
  destruct (shr_m mrs'') as [|p|p]; try lia.
  destruct (e'' <=? emax - prec); reflexivity.
Qed.

Lemma binary_round_pos (p : positive) (e : Z) :
  emin <= e ->
  SFltb (S754_zero false) (binary_round prec emax false p e) = true.
Proof.
  intros He. unfold binary_round, shl_align.
  destruct (fexp prec emax (Zpos (digits2_pos p) + e) - e) as [|q|q] eqn:En;
    try (apply binary_round_aux_pos; lia).
  apply binary_round_aux_pos; [lia|].
  unfold fexp in *. lia.
Qed.

Lemma binary_round_neg (p : positive) (e : Z) :
  SFltb (S754_zero false) (binary_round prec emax true p e) = false.
Proof.
  unfold binary_round.
  destruct (shl_align p e (fexp prec emax (Zpos (digits2_pos p) + e))) as [mz ez].
  unfold binary_round_aux.
  destruct (shr_fexp prec emax (Zpos mz) ez loc_Exact) as [mrs' e'].
  destruct (shr_fexp prec emax _ e' loc_Exact) as [mrs'' e''].
  destruct (shr_m mrs'') as [|q|q]; try reflexivity.
  destruct (e'' <=? emax - prec); reflexivity.
Qed.

(** The sign of a normalised integer is the sign of the integer. *)
Lemma binary_normalize_sign (z e : Z) :
  emin <= e ->
  SFltb (S754_zero false) (binary_normalize prec emax z e false) = (0 <? z).
Proof.
  intros He. destruct z as [|p|p]; cbn [binary_normalize].
  - reflexivity.
  - rewrite binary_round_pos by assumption. reflexivity.
  - rewrite binary_round_neg. reflexivity.
Qed.

Lemma pos_iter_xO (d m : positive) :
  Zpos (Pos.iter xO m d) = Zpos m * 2 ^ Zpos d.
Proof.
  revert m. induction d as [|d IH] using Pos.peano_ind; intros m.
  - cbn. lia.
  - rewrite Pos.iter_succ, Pos2Z.inj_succ, Z.pow_succ_r by lia.
    rewrite Pos2Z.inj_xO, IH. lia.
Qed.

Lemma shl_align_fst (m : positive) (e ez : Z) :
  ez <= e -> Zpos (fst (shl_align m e ez)) = Zpos m * 2 ^ (e - ez).
Proof.
  intros H. unfold shl_align.
  destruct (ez - e) as [|d|d] eqn:E; cbn [fst]; try lia.
  - replace (e - ez) with 0 by lia. cbn. lia.
  - rewrite pos_iter_xO. f_equal. f_equal. lia.
Qed.

Lemma bounded_facts (m : positive) (e : Z) :
  bounded prec emax m e = true ->
  emin <= e /\ Zpos m < 2 ^ prec /\ (emin < e -> 2 ^ (prec - 1) <= Zpos m).
Proof.
  unfold bounded, canonical_mantissa, fexp. intros H.
  apply andb_prop in H as [H _]. apply Z.eqb_eq in H.
  pose proof (digits2_pos_bounds m) as [Hlo Hhi].
  set (d := Zpos (digits2_pos m)) in *.
  split; [lia|]. split.
  - apply Z.lt_le_trans with (2 ^ d); [assumption|].
    apply Z.pow_le_mono_r; lia.
  - intros He. replace (prec - 1) with (d - 1) by lia. assumption.
Qed.

Lemma aligned_lt (mA : positive) (eA : Z) (mB : positive) (eB : Z) :
  bounded prec emax mA eA = true -> bounded prec emax mB eB = true ->
  eA < eB -> Zpos mA < Zpos mB * 2 ^ (eB - eA).
Proof.
  intros HA HB Hlt.
  apply bounded_facts in HA as (HAe & HAm & _).
  apply bounded_facts in HB as (HBe & _ & HBm).
  specialize (HBm ltac:(lia)).
  assert (H2 : 2 ^ 1 <= 2 ^ (eB - eA)) by (apply Z.pow_le_mono_r; lia).
  change (2 ^ 1) with 2 in H2.
  assert (H3 : 2 ^ prec = 2 ^ (prec - 1) * 2) by reflexivity.
  nia.
Qed.

(** Comparing two doubles is comparing their mantissas once aligned on the
    smaller exponent. *)
Lemma SFltb_aligned (sA : bool) (mA : positive) (eA : Z)
    (sB : bool) (mB : positive) (eB : Z) :
  bounded prec emax mA eA = true -> bounded prec emax mB eB = true ->
  SFltb (S754_finite sA mA eA) (S754_finite sB mB eB) =
  (0 <? cond_Zopp sB (Zpos (fst (shl_align mB eB (Z.min eB eA)))) -
        cond_Zopp sA (Zpos (fst (shl_align mA eA (Z.min eB eA))))).
Proof.
  intros HA HB.
  rewrite !shl_align_fst by lia.
  unfold SFltb, SFcompare.
  destruct (Z.compare_spec eA eB) as [E|E|E].
  - subst eB. rewrite Z.min_id, Z.sub_diag. change (2 ^ 0) with 1.
    rewrite Pos.compare_cont_spec. cbn [Pos.switch_Eq].
    destruct sA, sB; cbn [cond_Zopp];
      destruct (Pos.compare_spec mA mB); cbn [CompOpp]; ltb_sign.
  - pose proof (aligned_lt _ _ _ _ HA HB E).
    rewrite Z.min_r by lia. rewrite Z.sub_diag. change (2 ^ 0) with 1.
    assert (0 < 2 ^ (eB - eA)) by (apply Z.pow_pos_nonneg; lia).
    destruct sA, sB; cbn [cond_Zopp]; ltb_sign.
  - pose proof (aligned_lt _ _ _ _ HB HA E).
    rewrite Z.min_l by lia. rewrite Z.sub_diag. change (2 ^ 0) with 1.
    assert (0 < 2 ^ (eA - eB)) by (apply Z.pow_pos_nonneg; lia).
    destruct sA, sB; cbn [cond_Zopp]; ltb_sign.
Qed.

(** The comparator of a numeric sort: the difference [B - A] is positive
    exactly when [A < B], for any two doubles that are not NaN. *)
Lemma SFsub_positive (A B : spec_float) :
  valid_binary A = true -> valid_binary B = true ->
  A <> S754_nan -> B <> S754_nan ->
  SFltb (S754_zero false) (SFsub prec emax B A) = SFltb A B.
Proof.
  intros VA VB NA NB.
  destruct A as [sA|sA| |sA mA eA], B as [sB|sB| |sB mB eB];
    try congruence;
    try (destruct sA, sB; reflexivity);
    try (destruct sA; reflexivity);
    try (destruct sB; reflexivity).
  cbn [SFsub]. cbn in VA, VB.
  rewrite binary_normalize_sign.
  - symmetry. apply SFltb_aligned; assumption.
  - apply bounded_facts in VA as (? & _). apply bounded_facts in VB as (? & _). lia.
Qed.

Lemma rank_finite (m : positive) (e : Z) :
  bounded prec emax m e = true ->
  0 < (e - emin + 1) * 2 ^ prec + Zpos m < (emax - emin + 2) * 2 ^ prec
  /\ 1 <= e - emin + 1 /\ Zpos m < 2 ^ prec.
Proof.
  intros H. pose proof (bounded_facts _ _ H) as (He & Hm & _).
  unfold bounded in H. apply andb_prop in H as [_ H]. apply Z.leb_le in H.
  unfold SpecFloat.emin, emax, prec in *. nia.
Qed.

Lemma SFcompare_rank (A B : spec_float) :
  valid_binary A = true -> valid_binary B = true ->
  A <> S754_nan -> B <> S754_nan ->
  SFcompare A B = Some (rank A ?= rank B).
Proof.
  intros VA VB NA NB.
  destruct A as [sA|sA| |sA mA eA], B as [sB|sB| |sB mB eB]; try congruence;
    cbn in VA, VB;
    try (destruct sA, sB; reflexivity);
    try (pose proof (rank_finite _ _ VA) as (HA & HA1 & HA2));
    try (pose proof (rank_finite _ _ VB) as (HB & HB1 & HB2));
    unfold SFcompare, rank; f_equal; symmetry.
  all: try rewrite Pos.compare_cont_spec; cbn [Pos.switch_Eq].
  all: try (destruct (Z.compare_spec eA eB) as [E|E|E]).
  all: try (destruct (Pos.compare_spec mA mB) as [E'|E'|E']).
  all: try destruct sA; try destruct sB; cbn [cond_Zopp CompOpp].
  all: unfold SpecFloat.emin, emax, prec in *.
  all: try subst eB; try subst mB.
  all: match goal with
       | |- (?a ?= ?b) = _ =>
           destruct (Z.compare_spec a b); first [reflexivity | exfalso; lia]
       end.
Qed.

Lemma Prim2SF_zero : Prim2SF 0%float = S754_zero false.
Proof. reflexivity. Qed.

Lemma Prim2SF_infinity : Prim2SF infinity = S754_infinity false.
Proof. reflexivity. Qed.

Lemma SFcompare_refl (A : spec_float) :
  A <> S754_nan -> SFcompare A A = Some Eq.
Proof.
  destruct A as [s|s| |s m e]; try congruence; intros _; cbn.
  - reflexivity.
  - destruct s; reflexivity.
  - rewrite Z.compare_refl, Pos.compare_cont_refl. destruct s; reflexivity.
Qed.

Lemma is_nan_spec (x : float) :
  is_nan x = match Prim2SF x with S754_nan => true | _ => false end.
Proof.
  unfold is_nan. rewrite FloatAxioms.eqb_spec. unfold SFeqb.
  destruct (Prim2SF x) eqn:E; try (rewrite SFcompare_refl by congruence); reflexivity.
Qed.

Lemma is_zero_spec (x : float) :
  is_zero x = match Prim2SF x with S754_zero _ => true | _ => false end.
Proof.
  unfold is_zero. rewrite FloatAxioms.eqb_spec. change (Prim2SF PrimFloat.zero) with (S754_zero false).
  destruct (Prim2SF x) as [s|s| |s m e]; try destruct s; reflexivity.
Qed.

Lemma is_infinity_spec (x : float) :
  is_infinity x = match Prim2SF x with S754_infinity _ => true | _ => false end.
Proof.
  unfold is_infinity. rewrite FloatAxioms.eqb_spec, FloatAxioms.abs_spec, Prim2SF_infinity.
  destruct (Prim2SF x) as [s|s| |s m e]; reflexivity.
Qed.

Lemma Prim2SF_not_nan (x : float) : is_nan x = false -> Prim2SF x <> S754_nan.
Proof. rewrite is_nan_spec. intros H E. rewrite E in H. discriminate. Qed.

Lemma double_compare_rank (a b : float) :
  is_nan a = false -> is_nan b = false ->
  SFcompare (Prim2SF a) (Prim2SF b) = Some (rank (Prim2SF a) ?= rank (Prim2SF b)).
Proof.
  intros Ha Hb. apply SFcompare_rank; auto using Prim2SF_valid, Prim2SF_not_nan.
Qed.

Lemma sameValueZero_refl (x : float) : sameValueZero x x = true.
Proof.
  unfold sameValueZero, is_nan. destruct (x =? x)%float; reflexivity.
Qed.

Lemma double_leb_not_nan (a b : float) :
  (a <=? b)%float = true -> is_nan a = false /\ is_nan b = false.
Proof.
  rewrite FloatAxioms.leb_spec, !is_nan_spec. unfold SFleb.
  destruct (Prim2SF a), (Prim2SF b); cbn; intros H; try discriminate; auto.
Qed.

Lemma double_ltb_not_nan (a b : float) :
  (a <? b)%float = true -> is_nan a = false /\ is_nan b = false.
Proof.
  rewrite FloatAxioms.ltb_spec, !is_nan_spec. unfold SFltb.
  destruct (Prim2SF a), (Prim2SF b); cbn; intros H; try discriminate; auto.
Qed.

Lemma double_eqb_not_nan (a b : float) :
  (a =? b)%float = true -> is_nan a = false /\ is_nan b = false.
Proof.
  rewrite FloatAxioms.eqb_spec, !is_nan_spec. unfold SFeqb.
  destruct (Prim2SF a), (Prim2SF b); cbn; intros H; try discriminate; auto.
Qed.

Lemma double_leb_rank (a b : float) :
  is_nan a = false -> is_nan b = false ->
  (a <=? b)%float = (rank (Prim2SF a) <=? rank (Prim2SF b)).
Proof.
  intros Ha Hb. rewrite FloatAxioms.leb_spec. unfold SFleb. rewrite double_compare_rank by assumption.
  unfold Z.leb. destruct (_ ?= _); reflexivity.
Qed.

Lemma double_ltb_rank (a b : float) :
  is_nan a = false -> is_nan b = false ->
  (a <? b)%float = (rank (Prim2SF a) <? rank (Prim2SF b)).
Proof.
  intros Ha Hb. rewrite FloatAxioms.ltb_spec. unfold SFltb. rewrite double_compare_rank by assumption.
  unfold Z.ltb. destruct (_ ?= _); reflexivity.
Qed.

Lemma double_eqb_rank (a b : float) :
  is_nan a = false -> is_nan b = false ->
  (a =? b)%float = (rank (Prim2SF a) =? rank (Prim2SF b)).
Proof.
  intros Ha Hb. rewrite FloatAxioms.eqb_spec. unfold SFeqb. rewrite double_compare_rank by assumption.
  unfold Z.eqb. destruct (_ ?= _) eqn:E.
  - apply Z.compare_eq_iff in E. rewrite E. destruct (rank (Prim2SF b)); cbn; auto using Pos.eqb_refl.
  - destruct (rank (Prim2SF a)), (rank (Prim2SF b)); cbn in *; try reflexivity; try discriminate.
    + symmetry. apply Pos.eqb_neq. intros ->. rewrite Pos.compare_refl in E. discriminate.
    + symmetry. apply Pos.eqb_neq. intros ->. rewrite Pos.compare_refl in E. discriminate.
  - destruct (rank (Prim2SF a)), (rank (Prim2SF b)); cbn in *; try reflexivity; try discriminate.
    + symmetry. apply Pos.eqb_neq. intros ->. rewrite Pos.compare_refl in E. discriminate.
    + symmetry. apply Pos.eqb_neq. intros ->. rewrite Pos.compare_refl in E. discriminate.
Qed.

(** The comparator [(a, b) => b - a] is positive exactly when [a < b]. *)
Lemma sub_positive (a b : float) :
  is_nan a = false -> is_nan b = false ->
  (0 <? b - a)%float = (a <? b)%float.
Proof.
  intros Ha Hb. rewrite !FloatAxioms.ltb_spec, FloatAxioms.sub_spec, Prim2SF_zero.
  apply SFsub_positive; auto using Prim2SF_valid, Prim2SF_not_nan.
Qed.

Lemma double_ltb_negb_leb (a b : float) :
  is_nan a = false -> is_nan b = false ->
  (a <? b)%float = negb (b <=? a)%float.
Proof.
  intros Ha Hb. rewrite double_ltb_rank, double_leb_rank by assumption.
  rewrite Z.ltb_antisym. reflexivity.
Qed.

Lemma double_leb_trans (a b c : float) :
  (a <=? b)%float = true -> (b <=? c)%float = true -> (a <=? c)%float = true.
Proof.
  intros H1 H2.
  destruct (double_leb_not_nan _ _ H1) as [Ha Hb], (double_leb_not_nan _ _ H2) as [_ Hc].
  rewrite double_leb_rank in * by assumption. apply Z.leb_le. apply Z.leb_le in H1, H2. lia.
Qed.

Lemma double_eqb_sym (a b : float) : (a =? b)%float = (b =? a)%float.
Proof.
  destruct (is_nan a) eqn:Ha; [|destruct (is_nan b) eqn:Hb].
  - destruct (a =? b)%float eqn:E1. { apply double_eqb_not_nan in E1. destruct E1; congruence. }
    destruct (b =? a)%float eqn:E2. { apply double_eqb_not_nan in E2. destruct E2; congruence. }
    reflexivity.
  - destruct (a =? b)%float eqn:E1. { apply double_eqb_not_nan in E1. destruct E1; congruence. }
    destruct (b =? a)%float eqn:E2. { apply double_eqb_not_nan in E2. destruct E2; congruence. }
    reflexivity.
  - rewrite !double_eqb_rank by assumption. apply Z.eqb_sym.
Qed.

Lemma double_leb_neq_ltb (a b : float) :
  (a <=? b)%float = true -> (a =? b)%float = false -> (a <? b)%float = true.
Proof.
  intros H1 H2. destruct (double_leb_not_nan _ _ H1) as [Ha Hb].
  rewrite double_leb_rank in H1 by assumption. rewrite double_eqb_rank in H2 by assumption.
  rewrite double_ltb_rank by assumption.
  apply Z.leb_le in H1. apply Z.eqb_neq in H2. apply Z.ltb_lt. lia.
Qed.

Lemma sameValueZero_sym (a b : float) : sameValueZero a b = sameValueZero b a.
Proof.
  unfold sameValueZero. rewrite double_eqb_sym, andb_comm. reflexivity.
Qed.

Lemma is_finite_spec (y : float) :
  is_finite y = match Prim2SF y with S754_zero _ | S754_finite _ _ _ => true | _ => false end.
Proof.
  unfold is_finite. rewrite is_nan_spec, is_infinity_spec.
  destruct (Prim2SF y); reflexivity.
Qed.

Lemma SFeqb_finite (s1 : bool) (m1 : positive) (e1 : Z) (s2 : bool) (m2 : positive) (e2 : Z) :
  SFeqb (S754_finite s1 m1 e1) (S754_finite s2 m2 e2) = true ->
  s1 = s2 /\ m1 = m2 /\ e1 = e2.
Proof.
  unfold SFeqb, SFcompare. rewrite Pos.compare_cont_spec. cbn [Pos.switch_Eq].
  destruct s1, s2; try discriminate;
    destruct (Z.compare_spec e1 e2); try discriminate;
    destruct (Pos.compare_spec m1 m2); try discriminate; auto.
Qed.

(** A finite ordinate is within the tolerance of every key equal to it. *)
Lemma near_same (k y : float) :
  is_finite y = true -> sameValueZero k y = true ->
  (abs (k - y) <? 5)%float = true.
Proof.
  intros Hf Hs. unfold sameValueZero in Hs.
  rewrite is_finite_spec in Hf.
  assert (Hn : is_nan y = false).
  { rewrite is_nan_spec. destruct (Prim2SF y); try discriminate; reflexivity. }
  rewrite Hn, andb_false_r in Hs. cbn [orb] in Hs.
  rewrite FloatAxioms.eqb_spec in Hs.
  rewrite FloatAxioms.ltb_spec, FloatAxioms.abs_spec, FloatAxioms.sub_spec.
  change (Prim2SF 5) with (S754_finite false 5629499534213120 (-50)).
  destruct (Prim2SF k) as [sk|sk| |sk mk ek], (Prim2SF y) as [sy|sy| |sy my ey];
    try discriminate; try (destruct sk; discriminate); try (destruct sy; discriminate).
  - destruct sk, sy; reflexivity.
  - apply SFeqb_finite in Hs as (-> & -> & ->).
    unfold SF64sub. cbn [SFsub]. rewrite Z.sub_diag. reflexivity.
Qed.

Lemma sameValueZero_key_of_r (k y : float) :
  sameValueZero k (key_of y) = sameValueZero k y.
Proof.
  unfold key_of. destruct (is_zero y) eqn:E; [|reflexivity].
  unfold sameValueZero. rewrite !(is_nan_spec y), !FloatAxioms.eqb_spec.
  change (is_nan 0) with false. rewrite Prim2SF_zero.
  rewrite is_zero_spec in E.
  destruct (Prim2SF y) as [s| | |]; try discriminate.
  unfold SFeqb. destruct (Prim2SF k) as [s'|s'| |s' m' e']; reflexivity.
Qed.

Lemma sameValueZero_key_of_l (y k : float) :
  sameValueZero (key_of y) k = sameValueZero y k.
Proof.
  rewrite sameValueZero_sym, sameValueZero_key_of_r. apply sameValueZero_sym.
Qed.

Lemma is_nan_key_of (y : float) : is_nan (key_of y) = is_nan y.
Proof.
  unfold key_of. destruct (is_zero y) eqn:E; [|reflexivity].
  rewrite is_zero_spec in E. rewrite (is_nan_spec y).
  destruct (Prim2SF y); try discriminate. reflexivity.
Qed.

Lemma is_finite_key_of (y : float) : is_finite (key_of y) = is_finite y.
Proof.
  unfold key_of. destruct (is_zero y) eqn:E; [|reflexivity].
  rewrite is_zero_spec in E. rewrite (is_finite_spec y).
  destruct (Prim2SF y); try discriminate. reflexivity.
Qed.




Lemma within_tolerance_same (k y : float) :
  is_finite y = true -> sameValueZero k y = true ->
  within_tolerance k y = true.
Proof. apply near_same. Qed.

Lemma double_leb_total (a b : float) :
  is_nan a = false -> is_nan b = false ->
  (a <=? b)%float = false -> (b <=? a)%float = true.
Proof.
  intros Ha Hb. rewrite !double_leb_rank by assumption.
  intros H. apply Z.leb_gt in H. apply Z.leb_le. lia.
Qed.

(** ** The line map *)

Lemma Map_keys_app (a b : LineMap) :
  Map_keys (a ++ b) = Map_keys a ++ Map_keys b.
Proof. apply List.map_app. Qed.

Lemma Map_push_at (k : float) (item : TextItem) (l1 l2 : LineMap)
    (g : list TextItem) :
  Forall (fun e => sameValueZero (fst e) k = false) l1 ->
  Map_push k item (l1 ++ (k, g) :: l2) = l1 ++ (k, g ++ [item]) :: l2.
Proof.
  induction 1 as [|[k' v] l1 Hk _ IH]; simpl.
  - now rewrite sameValueZero_refl.
  - simpl in Hk. now rewrite Hk, IH.
Qed.

Lemma Map_set_fresh (k : float) (v : list TextItem) (m : LineMap) :
  Forall (fun e => sameValueZero (fst e) k = false) m ->
  Map_set k v m = m ++ [(key_of k, v)].
Proof.
  induction 1 as [|[k' v'] m Hk _ IH]; simpl; [reflexivity|].
  simpl in Hk. now rewrite Hk, IH.
Qed.


(** [set] either finds the key, and then keeps all keys, or appends it. *)
Lemma Map_set_cases (k : float) (v : list TextItem) (m : LineMap) :
  (exists l1 k' g l2,
      m = l1 ++ (k', g) :: l2
      /\ Forall (fun e => sameValueZero (fst e) k = false) l1
      /\ sameValueZero k' k = true
      /\ Map_set k v m = l1 ++ (k', v) :: l2)
  \/ (Forall (fun e => sameValueZero (fst e) k = false) m
      /\ Map_set k v m = m ++ [(key_of k, v)]).
Proof.
  induction m as [|[k' v'] m IH].
  - right. split; [constructor | reflexivity].
  - destruct (sameValueZero k' k) eqn:E.
    + left. exists [], k', v', m. cbn [List.app Map_set]. rewrite E.
      repeat split; try (constructor; assumption); auto.
    + destruct IH as [(l1 & k'' & g & l2 & -> & Hl1 & Hk & Hset)|[Hm Hset]].
      * left. exists ((k', v') :: l1), k'', g, l2. cbn [List.app Map_set].
        rewrite E, Hset. repeat split; try (constructor; assumption); auto.
      * right. cbn [List.app Map_set]. rewrite E, Hset.
        split; [now constructor | reflexivity].
Qed.

Lemma Map_keys_push (k : float) (item : TextItem) (m : LineMap) :
  Map_keys (Map_push k item m) = Map_keys m.
Proof.
  induction m as [|[k' v] m IH]; simpl; [reflexivity|].
  destruct (sameValueZero k' k); simpl; [reflexivity | now rewrite IH].
Qed.

Lemma Map_keys_middle (l1 l2 : LineMap) (k : float) (g g' : list TextItem) :
  Map_keys (l1 ++ (k, g') :: l2) = Map_keys (l1 ++ (k, g) :: l2).
Proof. unfold Map_keys. now rewrite !List.map_app. Qed.


Lemma foundKey_none (y : float) (lines : LineMap) :
  Forall (far_from y) lines <-> foundKey lines y = None.
Proof.
  unfold foundKey. induction lines as [|[k v] m IH]; simpl.
  - split; [reflexivity | constructor].
  - destruct (within_tolerance k y) eqn:E.
    + split; [|discriminate]. intros H. inversion H as [|? ? Hf]; subst.
      unfold far_from in Hf. simpl in Hf. congruence.
    + rewrite <- IH. split.
      * intros H. now inversion H.
      * intros H. constructor; [exact E | exact H].
Qed.

Lemma foundKey_some (y k : float) (lines : LineMap) :
  foundKey lines y = Some k ->
  In k (Map_keys lines) /\ within_tolerance k y = true.
Proof. unfold foundKey. intros H. now apply List.find_some in H. Qed.


(** A group that is not within the tolerance of a finite ordinate has
    another key. *)
Lemma far_from_distinct (y : float) (l : LineMap) :
  is_finite y = true ->
  Forall (far_from y) l -> Forall (fun e => sameValueZero (fst e) y = false) l.
Proof.
  intros Hy. apply Forall_impl. intros [k v]. unfold far_from. simpl.
  intros Hfar. destruct (sameValueZero k y) eqn:E; [|reflexivity].
  rewrite (within_tolerance_same k y Hy E) in Hfar. discriminate.
Qed.

Lemma StronglySorted_snoc {A} (R : A -> A -> Prop) (l : list A) (x : A) :
  StronglySorted R l -> Forall (fun a => R a x) l ->
  StronglySorted R (l ++ [x]).
Proof.
  induction 1 as [|a l Hs IH Ha]; intros Hx; simpl.
  - repeat constructor.
  - inversion Hx; subst. constructor; [now apply IH|].
    apply Forall_app. split; [exact Ha | now repeat constructor].
Qed.

Lemma add_item_keys_apart (lines : LineMap) (item : TextItem) :
  StronglySorted apart (Map_keys lines) ->
  StronglySorted apart (Map_keys (add_item lines item)).
Proof.
  intros Hs. unfold add_item.
  destruct (is_blank (str item)); [exact Hs|].
  destruct (foundKey lines (transform5 item)) as [k|] eqn:E.
  - now rewrite Map_keys_push.
  - destruct (Map_set_cases (transform5 item) [item] lines)
      as [(l1 & k' & g & l2 & Hl & _ & _ & ->)|[Hm ->]].
    + rewrite (Map_keys_middle l1 l2 k' g). now rewrite <- Hl.
    + rewrite Map_keys_app. simpl. apply StronglySorted_snoc; [exact Hs|].
      unfold Map_keys. apply Forall_map. revert Hm. apply Forall_impl.
      intros [k v]. unfold apart. simpl.
      now rewrite sameValueZero_key_of_r.
Qed.

Lemma fold_add_item_keys_apart (items : list TextItem) (lines : LineMap) :
  StronglySorted apart (Map_keys lines) ->
  StronglySorted apart (Map_keys (fold_left add_item items lines)).
Proof.
  revert lines. induction items as [|it items IH]; intros lines H; simpl.
  - exact H.
  - apply IH. now apply add_item_keys_apart.
Qed.

Lemma group_items_keys_apart (items : list TextItem) :
  StronglySorted apart (Map_keys (group_items items)).
Proof. apply fold_add_item_keys_apart. constructor. Qed.

Lemma apart_NoDup (l : list float) : StronglySorted apart l -> NoDup l.
Proof.
  induction 1 as [|a l _ IH Ha]; constructor; [|exact IH].
  intros Hin. rewrite Forall_forall in Ha. specialize (Ha a Hin).
  unfold apart in Ha. rewrite sameValueZero_refl in Ha. discriminate.
Qed.

Lemma apart_before (l1 l2 : LineMap) (k : float) (g : list TextItem) :
  StronglySorted apart (Map_keys (l1 ++ (k, g) :: l2)) ->
  Forall (fun e => sameValueZero (fst e) k = false) l1.
Proof.
  induction l1 as [|[k' v] l1 IH]; cbn [List.app Map_keys List.map fst];
    intros H; [constructor|].
  inversion H as [|? ? Hs Ha]; subst. constructor.
  - cbn [fst]. rewrite Forall_forall in Ha. apply Ha.
    rewrite List.map_app. apply List.in_or_app. right. now left.
  - apply IH. exact Hs.
Qed.

Lemma Map_keys_split (k : float) (m : LineMap) :
  In k (Map_keys m) -> exists l1 g l2, m = l1 ++ (k, g) :: l2.
Proof.
  unfold Map_keys. intros H. apply List.in_map_iff in H.
  destruct H as ([k' g] & Hk & Hin). cbn [fst] in Hk. subst k'.
  apply List.in_split in Hin. destruct Hin as (l1 & l2 & ->).
  now exists l1, g, l2.
Qed.




(** The same three fragments grouped in two arrival orders: the groups
    follow the arrival order, not the order of the coordinates. *)
Example grouping_depends_on_arrival :
  group_items [frag "a" 0 0; frag "b" 0 4; frag "c" 0 8]
    = [(0%float, [frag "a" 0 0; frag "b" 0 4]); (8%float, [frag "c" 0 8])]
  /\ group_items [frag "b" 0 4; frag "a" 0 0; frag "c" 0 8]
    = [(4%float, [frag "b" 0 4; frag "a" 0 0; frag "c" 0 8])].
Proof. split; reflexivity. Qed.

(** ** Flattening a line *)

Lemma lineStr_step_shift (a : TextItem) (l : list TextItem) (acc : string)
    (j : nat) :
  lineStr_step (a :: l) acc (S j) = lineStr_step l acc j.
Proof. reflexivity. Qed.

Lemma lineStr_step_acc (l : list TextItem) (p acc : string) (j : nat) :
  lineStr_step l (p ^^ acc) j = p ^^ lineStr_step l acc j.
Proof.
  unfold lineStr_step.
  destruct (nth_error l j) as [cur|]; [|reflexivity].
  destruct (nth_error l (S j)) as [next|]; [|apply append_assoc].
  destruct (20 <? gap_of cur next)%float; [now rewrite !append_assoc|].
  destruct (2 <? gap_of cur next)%float; now rewrite !append_assoc.
Qed.

Lemma fold_lineStr_acc (l : list TextItem) (js : list nat) (p acc : string) :
  fold_left (lineStr_step l) js (p ^^ acc)
    = p ^^ fold_left (lineStr_step l) js acc.
Proof.
  revert acc. induction js as [|j js IH]; intros acc; simpl; [reflexivity|].
  now rewrite lineStr_step_acc, IH.
Qed.

Lemma fold_lineStr_shift (a : TextItem) (l : list TextItem) (acc : string)
    (s n : nat) :
  fold_left (lineStr_step (a :: l)) (seq (S s) n) acc
    = fold_left (lineStr_step l) (seq s n) acc.
Proof.
  revert s acc. induction n as [|n IH]; intros s acc; simpl; [reflexivity|].
  now rewrite IH.
Qed.

Lemma lineStr_nil : lineStr [] = EmptyString.
Proof. reflexivity. Qed.

Lemma lineStr_cons (a : TextItem) (l : list TextItem) :
  lineStr (a :: l) = str a ^^ spacing_to a l ^^ lineStr l.
Proof.
  unfold lineStr. cbn [List.length seq fold_left].
  rewrite fold_lineStr_shift.
  assert (E : lineStr_step (a :: l) EmptyString 0
              = (str a ^^ spacing_to a l) ^^ EmptyString).
  { rewrite append_nil_r. unfold lineStr_step, spacing_to, spacing.
    cbn [nth_error]. destruct l as [|b l]; cbn [nth_error].
    - now rewrite append_nil_r.
    - destruct (20 <? gap_of a b)%float; [reflexivity|].
      destruct (2 <? gap_of a b)%float; [reflexivity|].
      now rewrite append_nil_r. }
  rewrite E, fold_lineStr_acc. apply append_assoc.
Qed.

Lemma spacing_to_app (c a : TextItem) (l1 l2 : list TextItem) :
  spacing_to c (l1 ++ a :: l2) = spacing_to c (l1 ++ [a]).
Proof. now destruct l1. Qed.

Lemma lineStr_split (l1 l2 : list TextItem) (a b : TextItem) :
  lineStr (l1 ++ a :: b :: l2)
    = lineStr (l1 ++ [a]) ^^ spacing (gap_of a b) ^^ lineStr (b :: l2).
Proof.
  induction l1 as [|c l1 IH].
  - cbn [app]. rewrite !lineStr_cons, lineStr_nil. cbn [spacing_to].
    now rewrite !append_nil_r.
  - cbn [app]. rewrite (lineStr_cons c (l1 ++ a :: b :: l2)).
    rewrite (lineStr_cons c (l1 ++ [a])).
    rewrite IH, spacing_to_app. now rewrite !append_assoc.
Qed.

Lemma lineStr_last (l1 : list TextItem) (a : TextItem) :
  exists p, lineStr (l1 ++ [a]) = p ^^ str a.
Proof.
  induction l1 as [|c l1 [p IH]].
  - exists EmptyString. cbn [app]. rewrite lineStr_cons, lineStr_nil.
    cbn [spacing_to]. now rewrite !append_nil_r.
  - exists (str c ^^ spacing_to c (l1 ++ [a]) ^^ p).
    cbn [app]. rewrite lineStr_cons, IH. now rewrite !append_assoc.
Qed.

Lemma lineStr_pair (a b : TextItem) :
  lineStr [a; b] = str a ^^ spacing (gap_of a b) ^^ str b.
Proof.
  rewrite !lineStr_cons, lineStr_nil. cbn [spacing_to].
  now rewrite !append_nil_r.
Qed.

(** C4, as the code has it.  Between the texts of two neighbours of a
    line, with [gap = next.x - (current.x + w)] where [w] is the width of
    [current], taken as 0 when it is absent, NaN or zero, the line holds 4
    spaces when [gap > 20], else 1 space when [gap > 2], else nothing; so
    4 spaces at gap 25, 1 space at gap 10 and plain concatenation at
    gap 1. *)
Theorem spacing_between_neighbours
    (l1 l2 : list TextItem) (current next : TextItem) :
  let w :=
    match width current with
    | Some w => if is_nan w || (w =? 0)%float then 0%float else w
    | None => 0%float
    end in
  let gap := (transform4 next - (transform4 current + w))%float in
  let spaces :=
    if (20 <? gap)%float then "    "
    else if (2 <? gap)%float then " "
    else EmptyString in
  (exists before after,
      lineStr (l1 ++ [current]) = before ^^ str current
      /\ lineStr (next :: l2) = str next ^^ after
      /\ lineStr (l1 ++ current :: next :: l2)
         = before ^^ str current ^^ spaces ^^ str next ^^ after)
  /\ lineStr [current; next] = str current ^^ spaces ^^ str next
  /\ (gap = 25%float -> spaces = "    ")
  /\ (gap = 10%float -> spaces = " ")
  /\ (gap = 1%float -> spaces = EmptyString).
Proof.
  intros w gap spaces.
  assert (E : spacing (gap_of current next) = spaces) by reflexivity.
  split; [|split; [|repeat split]].
  - destruct (lineStr_last l1 current) as [p Hp].
    exists p, (spacing_to next l2 ^^ lineStr l2).
    split; [exact Hp|]. split; [apply lineStr_cons|].
    rewrite lineStr_split, Hp, lineStr_cons, E.
    now rewrite !append_assoc.
  - now rewrite lineStr_pair, E.
  - intros Hg. subst spaces. now rewrite Hg.
  - intros Hg. subst spaces. now rewrite Hg.
  - intros Hg. subst spaces. now rewrite Hg.
Qed.

Lemma spacing_between_neighbours_witness :
  lineStr [mkItem "Total" 72 700 (Some 30%float); frag "42.50" 127 700]
    = "Total" ^^ "    " ^^ "42.50"
  /\ lineStr [mkItem "Total" 72 700 (Some 30.5%float); frag "due" 112.5 700]
    = "Total" ^^ " " ^^ "due"
  /\ lineStr [mkItem "fi" 72 700 (Some 9.25%float); frag "nal" 82.25 700]
    = "fi" ^^ "nal".
Proof.
  split; [|split].
  - destruct (spacing_between_neighbours [] []
                (mkItem "Total" 72 700 (Some 30%float))
                (frag "42.50" 127 700)) as (_ & H & H25 & _).
    rewrite H. cbv zeta in H25. now rewrite (H25 eq_refl).
  - destruct (spacing_between_neighbours [] []
                (mkItem "Total" 72 700 (Some 30.5%float))
                (frag "due" 112.5 700)) as (_ & H & _ & H10 & _).
    rewrite H. cbv zeta in H10. now rewrite (H10 eq_refl).
  - destruct (spacing_between_neighbours [] []
                (mkItem "fi" 72 700 (Some 9.25%float))
                (frag "nal" 82.25 700)) as (_ & H & _ & _ & H1).
    rewrite H. cbv zeta in H1. now rewrite (H1 eq_refl).
Defined.

(** C4, as stated: a fragment whose width is there but is NaN.  With that
    width the gap of the claim is NaN, which is greater than nothing, so
    no space would be put; the code takes such a width as 0 and puts 4
    spaces. *)
Lemma width_not_a_number_taken_as_0 :
  let current := mkItem "a" 0 700 (Some nan) in
  let next := frag "b" 25 700 in
  is_nan (transform4 next - (transform4 current + nan))%float = true
  /\ spacing (transform4 next - (transform4 current + nan))%float
     = EmptyString
  /\ lineStr [current; next] = "a" ^^ "    " ^^ "b"
  /\ lineStr [current; next] <> "a" ^^ EmptyString ^^ "b".
Proof.
  cbv zeta. repeat split; try reflexivity. vm_compute. discriminate.
Qed.

(** ** Sorting *)

Section SortFacts.
Context {A : Type}.
Variable compareFn : A -> A -> Z.
Variable key : A -> Z.
Hypothesis compareFn_key :
  forall a b, compareFn a b <= 0 <-> key a <= key b.

Let ordered (a b : A) : Prop := key a <= key b.

Lemma insert_by_perm (a : A) (l : list A) :
  Permutation (insert_by compareFn a l) (a :: l).
Proof.
  induction l as [|b l IH]; simpl; [reflexivity|].
  destruct (compareFn a b <=? 0); [reflexivity|].
  rewrite IH. apply perm_swap.
Qed.

Lemma sort_by_perm (l : list A) : Permutation (sort_by compareFn l) l.
Proof.
  induction l as [|a l IH]; simpl; [reflexivity|].
  rewrite insert_by_perm. now constructor.
Qed.

Lemma insert_by_sorted (a : A) (l : list A) :
  StronglySorted ordered l ->
  StronglySorted ordered (insert_by compareFn a l).
Proof.
  induction 1 as [|b l Hs IH Hb]; simpl.
  - repeat constructor.
  - destruct (Z.leb_spec (compareFn a b) 0) as [Hle|Hgt].
    + apply compareFn_key in Hle.
      constructor; [now constructor|].
      constructor; [exact Hle|].
      revert Hb. apply Forall_impl. unfold ordered in *. intros; lia.
    + assert (Hba : key b <= key a).
      { destruct (Z.le_gt_cases (key a) (key b)) as [H|H]; [|lia].
        apply compareFn_key in H. lia. }
      constructor; [exact IH|].
      apply (Permutation_Forall (Permutation_sym (insert_by_perm a l))).
      constructor; [exact Hba | exact Hb].
Qed.

Lemma sort_by_sorted (l : list A) :
  StronglySorted ordered (sort_by compareFn l).
Proof.
  induction l as [|a l IH]; simpl; [constructor|].
  now apply insert_by_sorted.
Qed.
End SortFacts.

(** The sort with a comparator in the doubles, on the values [ok] on
    which the comparator stands for the total order [le]. *)
Section NumberSortFacts.
Context {A : Type}.
Variable compareFn : A -> A -> float.
Variable le : A -> A -> bool.
Variable ok : A -> Prop.
Hypothesis compareFn_le :
  forall a b, ok a -> ok b -> (0 <? compareFn a b)%float = negb (le a b).
Hypothesis le_total :
  forall a b, ok a -> ok b -> le a b = false -> le b a = true.
Hypothesis le_trans :
  forall a b c, le a b = true -> le b c = true -> le a c = true.

Let ordered (a b : A) : Prop := le a b = true.

Lemma insert_by_number_perm (a : A) (l : list A) :
  Permutation (insert_by_number compareFn a l) (a :: l).
Proof.
  induction l as [|b l IH]; simpl; [reflexivity|].
  destruct (0 <? compareFn a b)%float; [|reflexivity].
  rewrite IH. apply perm_swap.
Qed.

Lemma sort_by_number_perm (l : list A) :
  Permutation (sort_by_number compareFn l) l.
Proof.
  induction l as [|a l IH]; simpl; [reflexivity|].
  rewrite insert_by_number_perm. now constructor.
Qed.

Lemma insert_by_number_sorted (a : A) (l : list A) :
  ok a -> Forall ok l ->
  StronglySorted ordered l ->
  StronglySorted ordered (insert_by_number compareFn a l).
Proof.
  intros Ha Hok Hs. induction Hs as [|b l Hs IH Hb]; simpl.
  - repeat constructor.
  - inversion Hok as [|? ? Hokb Hokl]; subst.
    rewrite (compareFn_le a b Ha Hokb).
    destruct (le a b) eqn:E; cbn [negb].
    + constructor; [now constructor|].
      constructor; [exact E|].
      revert Hb. apply Forall_impl. intros c Hc. exact (le_trans a b c E Hc).
    + constructor; [now apply IH|].
      apply (Permutation_Forall
               (Permutation_sym (insert_by_number_perm a l))).
      constructor; [exact (le_total a b Ha Hokb E) | exact Hb].
Qed.

Lemma sort_by_number_sorted (l : list A) :
  Forall ok l -> StronglySorted ordered (sort_by_number compareFn l).
Proof.
  induction 1 as [|a l Ha Hl IH]; simpl; [constructor|].
  apply insert_by_number_sorted; [exact Ha| |exact IH].
  exact (Permutation_Forall (Permutation_sym (sort_by_number_perm l)) Hl).
Qed.
End NumberSortFacts.

Lemma sortedY_perm (lines : LineMap) :
  Permutation (sortedY lines) (Map_keys lines).
Proof. apply sort_by_number_perm. Qed.

Lemma sortedY_descending (lines : LineMap) :
  Forall (fun k => is_nan k = false) (Map_keys lines) ->
  StronglySorted (fun a b => (b <=? a)%float = true) (sortedY lines).
Proof.
  apply (sort_by_number_sorted (fun a b => (b - a)%float)
           (fun a b => (b <=? a)%float) (fun k => is_nan k = false)).
  - intros a b Ha Hb. rewrite (sub_positive a b Ha Hb).
    now apply double_ltb_negb_leb.
  - intros a b Ha Hb. now apply double_leb_total.
  - intros a b c Hab Hbc. exact (double_leb_trans c b a Hbc Hab).
Qed.

Lemma sort_line_perm (l : list TextItem) : Permutation (sort_line l) l.
Proof. apply sort_by_number_perm. Qed.

Lemma sort_line_ascending (l : list TextItem) :
  Forall (fun it => is_nan (transform4 it) = false) l ->
  StronglySorted (fun a b => (transform4 a <=? transform4 b)%float = true)
                 (sort_line l).
Proof.
  apply (sort_by_number_sorted
           (fun a b => (transform4 a - transform4 b)%float)
           (fun a b => (transform4 a <=? transform4 b)%float)
           (fun it => is_nan (transform4 it) = false)).
  - intros a b Ha Hb. rewrite (sub_positive (transform4 b) (transform4 a) Hb Ha).
    now apply double_ltb_negb_leb.
  - intros a b Ha Hb. now apply double_leb_total.
  - intros a b c. apply double_leb_trans.
Qed.

Lemma strictly_descending (l : list float) :
  (forall a b, In a l -> In b l -> a <> b -> (a =? b)%float = false) ->
  NoDup l ->
  StronglySorted (fun a b => (b <=? a)%float = true) l ->
  StronglySorted (fun a b => (b <? a)%float = true) l.
Proof.
  intros Hne Hnd Hs. induction Hs as [|a l Hs IH Ha]; [constructor|].
  inversion Hnd as [|? ? Hnin Hnd']; subst.
  constructor.
  - apply IH; [|exact Hnd']. intros x y Hx Hy. apply Hne; now right.
  - rewrite Forall_forall in *. intros b Hb.
    apply double_leb_neq_ltb; [now apply Ha|].
    apply Hne; [now right | now left |]. intros ->. contradiction.
Qed.

(** Different keys of a line map are different numbers. *)
Lemma apart_numbers (l : list float) :
  StronglySorted apart l ->
  forall a b, In a l -> In b l -> a <> b -> (a =? b)%float = false.
Proof.
  intros Hs a b Ha Hb Hab.
  assert (H : forall x y, sameValueZero x y = false -> (x =? y)%float = false).
  { unfold sameValueZero. intros x y Hxy.
    now apply orb_false_iff in Hxy. }
  induction Hs as [|c l Hs IH Hc]; [contradiction|].
  rewrite Forall_forall in Hc. unfold apart in Hc.
  destruct Ha as [->|Ha], Hb as [->|Hb].
  - contradiction.
  - now apply H, Hc.
  - rewrite double_eqb_sym. now apply H, Hc.
  - now apply IH.
Qed.

Lemma Map_get_In (k : float) (m : LineMap) :
  StronglySorted apart (Map_keys m) ->
  In k (Map_keys m) -> exists g, Map_get k m = Some g /\ In (k, g) m.
Proof.
  intros Hs Hin. destruct (Map_keys_split k m Hin) as (l1 & g & l2 & ->).
  apply apart_before in Hs. clear Hin. exists g. split.
  - induction Hs as [|[k' v] l1 Hk _ IH]; simpl.
    + now rewrite sameValueZero_refl.
    + simpl in Hk. now rewrite Hk.
  - apply List.in_or_app. right. now left.
Qed.

Lemma fold_append_concat {B} (f : B -> string) (ys : list B) (acc : string) :
  fold_left (fun text y => text ^^ f y) ys acc
    = acc ^^ String.concat EmptyString (List.map f ys).
Proof.
  revert acc. induction ys as [|y ys IH]; intros acc; simpl.
  - now rewrite append_nil_r.
  - rewrite IH, append_assoc. destruct ys as [|y' ys]; simpl.
    + now rewrite !append_nil_r.
    + reflexivity.
Qed.

Lemma reconstructed_lines_keys (items : list TextItem) :
  List.map fst (reconstructed_lines items) = sortedY (group_items items).
Proof.
  unfold reconstructed_lines. cbv zeta. rewrite List.map_map. simpl.
  apply List.map_id.
Qed.

Lemma pageText_concat (items : list TextItem) :
  pageText items
    = String.concat EmptyString
        (List.map (fun e => lineStr (snd e) ^^ LF) (reconstructed_lines items)).
Proof.
  unfold pageText, reconstructed_lines. cbv zeta.
  rewrite (fold_append_concat
             (fun y => lineStr (line_of (group_items items) y) ^^ LF)).
  now rewrite List.map_map.
Qed.

(** Every key of the line map is the vertical origin of a non-blank
    fragment. *)
Lemma add_item_keys_origin (P : float -> Prop) (lines : LineMap)
    (item : TextItem) :
  (is_blank (str item) = false -> P (key_of (transform5 item))) ->
  Forall P (Map_keys lines) -> Forall P (Map_keys (add_item lines item)).
Proof.
  intros Hitem H. unfold add_item.
  destruct (is_blank (str item)); [exact H|].
  destruct (foundKey lines (transform5 item)) as [k|].
  - now rewrite Map_keys_push.
  - destruct (Map_set_cases (transform5 item) [item] lines)
      as [(l1 & k' & g & l2 & Hl & _ & _ & ->)|[_ ->]].
    + rewrite (Map_keys_middle l1 l2 k' g). now rewrite <- Hl.
    + rewrite Map_keys_app. apply Forall_app. split; [exact H|].
      constructor; [now apply Hitem | constructor].
Qed.

Lemma group_items_keys_origin (P : float -> Prop) (items : list TextItem) :
  Forall (fun it => Str.all_white_space (str it) = false ->
                    P (key_of (transform5 it))) items ->
  Forall P (Map_keys (group_items items)).
Proof.
  unfold group_items. intros H.
  assert (G : forall lines,
             Forall P (Map_keys lines) ->
             Forall P (Map_keys (fold_left add_item items lines))).
  { induction H as [|it items Hit _ IH]; intros lines Hl; [exact Hl|].
    cbn [fold_left]. apply IH. apply add_item_keys_origin; [|exact Hl].
    rewrite is_blank_spec. exact Hit. }
  apply G. constructor.
Qed.

(** C5, as the code has it.  The page text is made of the line-groups,
    each line holding the fragments of its group, and every flattened line
    is followed by a line feed (also the last one); no fragments give the
    empty text.  When no non-blank fragment has NaN as its vertical
    origin, the lines come in strictly descending order of their keys; in
    a line without NaN among the horizontal origins, the fragments come in
    ascending order of horizontal origin. *)
Theorem pageText_lines (items : list TextItem) :
  let ls := reconstructed_lines items in
  Permutation (List.map fst ls) (Map_keys (group_items items))
  /\ (Forall (fun it => Str.all_white_space (str it) = false ->
                        is_nan (transform5 it) = false) items ->
      StronglySorted (fun a b => (b <? a)%float = true) (List.map fst ls))
  /\ Forall (fun e =>
       exists g, In (fst e, g) (group_items items)
         /\ Permutation (snd e) g
         /\ (Forall (fun it => is_nan (transform4 it) = false) g ->
             StronglySorted
               (fun a b => (transform4 a <=? transform4 b)%float = true)
               (snd e)))
       ls
  /\ pageText items
     = String.concat EmptyString
         (List.map (fun e => lineStr (snd e) ^^ LF) ls)
  /\ pageText [] = EmptyString.
Proof.
  intros ls. subst ls. rewrite reconstructed_lines_keys.
  pose proof (group_items_keys_apart items) as Hinv.
  split; [apply sortedY_perm|].
  split.
  { intros Hy.
    assert (Hk : Forall (fun k => is_nan k = false)
                        (Map_keys (group_items items))).
    { apply group_items_keys_origin. revert Hy. apply Forall_impl.
      intros it H Hb. rewrite is_nan_key_of. now apply H. }
    apply strictly_descending; [| |now apply sortedY_descending].
    - intros a b Ha Hb.
      apply (apart_numbers _ Hinv);
        now apply (Permutation_in _ (sortedY_perm _)).
    - apply (Permutation_NoDup (Permutation_sym (sortedY_perm _))).
      now apply apart_NoDup. }
  split; [|split; [apply pageText_concat | reflexivity]].
  unfold reconstructed_lines. cbv zeta. apply Forall_map.
  apply Forall_forall. intros y Hy. cbn [fst snd].
  apply (Permutation_in _ (sortedY_perm _)) in Hy.
  destruct (Map_get_In y _ Hinv Hy) as (g & Hg & Hin).
  exists g. split; [exact Hin|]. unfold line_of. rewrite Hg.
  split; [apply sort_line_perm | apply sort_line_ascending].
Qed.

Lemma pageText_lines_witness :
  let items :=
    [ frag "world" 110.5 650; frag "Title" 72 700; frag " " 90 700;
      frag "Hello" 72 652.25 ] in
  StronglySorted (fun a b => (b <? a)%float = true)
                 (List.map fst (reconstructed_lines items))
  /\ Forall (fun e =>
       StronglySorted
         (fun a b => (transform4 a <=? transform4 b)%float = true) (snd e))
     (reconstructed_lines items)
  /\ pageText items = "Title" ^^ LF ^^ "Hello    world" ^^ LF.
Proof.
  cbv zeta.
  destruct (pageText_lines
              [ frag "world" 110.5 650; frag "Title" 72 700; frag " " 90 700;
                frag "Hello" 72 652.25 ])
    as (_ & Hsorted & Hlines & Htext & _).
  split; [|split].
  - apply Hsorted. repeat constructor.
  - rewrite Forall_forall in Hlines. apply Forall_forall. intros e He.
    destruct (Hlines e He) as (g & Hin & _ & Hs). apply Hs.
    vm_compute in Hin. destruct Hin as [E|[E|[]]];
      injection E as _ <-; repeat constructor.
  - rewrite Htext. reflexivity.
Defined.

(** C5, as stated: the page text is not the lines joined by line feeds,
    already for a page with a single fragment; and of two line-groups of
    which one has the key NaN neither comes before the other in a
    descending order. *)
Lemma pageText_not_joined :
  let items := [frag "A" 0 0] in
  let odd := [frag "B" 0 nan; frag "C" 0 700] in
  pageText items = "A" ^^ LF
  /\ Str.join LF (List.map (fun e => lineStr (snd e))
                           (reconstructed_lines items)) = "A"
  /\ pageText items
     <> Str.join LF (List.map (fun e => lineStr (snd e))
                              (reconstructed_lines items))
  /\ Map_keys (group_items odd) = [nan; 700%float]
  /\ (700 <? nan)%float = false
  /\ (nan <? 700)%float = false.
Proof.
  cbv zeta. split; [reflexivity|]. split; [reflexivity|].
  split; [vm_compute; discriminate|]. repeat split.
Qed.

(** ** PDF extraction *)

Lemma getTextContent_at (pdf : PDFDocument)
    (pre rest : list (result (list TextItem))) (r : result (list TextItem)) :
  getPageItems pdf = pre ++ r :: rest ->
  getTextContent pdf (S (List.length pre)) = r.
Proof.
  intros H. unfold getTextContent. rewrite H. cbn [Nat.sub].
  rewrite Nat.sub_0_r, nth_error_app2 by lia.
  now rewrite Nat.sub_diag.
Qed.

Lemma pages_loop_run (pdf : PDFDocument)
    (pre rest : list (result (list TextItem))) (fullText : string) :
  getPageItems pdf = pre ++ rest ->
  pages_loop pdf (seq (S (List.length pre)) (List.length rest)) fullText
    = run_pages (S (List.length pre)) rest fullText.
Proof.
  revert pre fullText.
  induction rest as [|r rest IH]; intros pre fullText H; [reflexivity|].
  cbn [List.length seq pages_loop run_pages].
  rewrite (getTextContent_at pdf pre rest r H).
  destruct r as [e|items]; [reflexivity|]. cbn [bind].
  specialize (IH (pre ++ [inr items]) (fullText ^^ page_block (S (List.length pre)) items)).
  rewrite List.length_app, Nat.add_1_r in IH. apply IH.
  now rewrite <- List.app_assoc.
Qed.

Lemma pages_loop_all (pdf : PDFDocument) :
  pages_loop pdf (seq 1 (numPages pdf)) EmptyString
    = run_pages 1 (getPageItems pdf) EmptyString.
Proof. apply (pages_loop_run pdf [] (getPageItems pdf)). reflexivity. Qed.

Lemma run_pages_ok (pages : list (list TextItem)) (i : nat)
    (fullText : string) :
  run_pages i (List.map inr pages) fullText
    = Ok (fullText ^^ String.concat EmptyString
            (List.map (fun p => page_block (fst p) (snd p))
               (List.combine (seq i (List.length pages)) pages))).
Proof.
  revert i fullText.
  induction pages as [|items pages IH]; intros i fullText.
  - simpl. now rewrite append_nil_r.
  - cbn [List.map run_pages bind List.length seq List.combine fst snd].
    rewrite IH, append_assoc. f_equal. f_equal.
    destruct pages; simpl; [now rewrite !append_nil_r | reflexivity].
Qed.

Lemma run_pages_fail (pages : list (result (list TextItem))) (i : nat)
    (fullText : string) :
  Exists (fun r => exists e, r = inl e) pages ->
  exists e, run_pages i pages fullText = inl e.
Proof.
  intros H. revert i fullText.
  induction H as [r rest [e ->]|r rest _ IH]; intros i fullText.
  - now exists e.
  - destruct r as [e|items]; [now exists e|]. apply IH.
Qed.

Lemma pageText_single (s : string) (x y : float) (w : option float) :
  Str.all_white_space s = false ->
  pageText [mkItem s x y w] = s ^^ LF.
Proof.
  intros Hs. unfold pageText, group_items.
  cbn [fold_left]. unfold add_item. cbn [str transform5].
  rewrite is_blank_spec, Hs.
  cbn [foundKey Map_keys List.map List.find Map_set].
  unfold sortedY.
  cbn [Map_keys List.map fst sort_by_number insert_by_number fold_left].
  unfold line_of. cbn [Map_get]. rewrite sameValueZero_refl.
  unfold sort_line. cbn [sort_by_number insert_by_number].
  rewrite lineStr_cons, lineStr_nil. cbn [str spacing_to String.append].
  now rewrite append_nil_r.
Qed.

Section PdfFacts.
Variable ArrayBuffer : Type.
Variable arrayBuffer : File.t -> result ArrayBuffer.
Variable getDocument : ArrayBuffer -> result PDFDocument.

Let extract := extractPdfText ArrayBuffer arrayBuffer getDocument.

(** C6. A PDF that decodes, with all pages readable, gives the page
    blocks of pages 1 to [numPages] in ascending order, each made of the
    marker line [--- Page i ---], the text of the page and two line
    feeds; for the two pages "Alpha" and "Beta" the markers and texts
    come in the order Page 1, Alpha, Page 2, Beta. *)
Theorem extractPdfText_pages (file : File.t) (buffer : ArrayBuffer)
    (pdf : PDFDocument) (pages : list (list TextItem)) :
  arrayBuffer file = Ok buffer ->
  getDocument buffer = Ok pdf ->
  getPageItems pdf = List.map Ok pages ->
  extract file
    = Ok (String.concat EmptyString
            (List.map
               (fun p => "--- Page " ^^ Str.of_nat (fst p) ^^ " ---" ^^ LF
                           ^^ pageText (snd p) ^^ LF ^^ LF)
               (List.combine (seq 1 (List.length pages)) pages)))
  /\ (forall x1 y1 w1 x2 y2 w2,
         pages = [[mkItem "Alpha" x1 y1 w1]; [mkItem "Beta" x2 y2 w2]] ->
         extract file
           = Ok ("--- Page 1 ---" ^^ LF ^^ "Alpha" ^^ LF ^^ LF ^^ LF
                 ^^ "--- Page 2 ---" ^^ LF ^^ "Beta" ^^ LF ^^ LF ^^ LF)).
Proof.
  intros Hbuf Hdoc Hpages. unfold Ok in Hbuf, Hdoc, Hpages.
  assert (E : extract file
              = Ok (String.concat EmptyString
                      (List.map (fun p => page_block (fst p) (snd p))
                         (List.combine (seq 1 (List.length pages)) pages)))).
  { unfold extract, extractPdfText. rewrite Hbuf. cbn [bind].
    rewrite Hdoc. cbn [bind]. rewrite pages_loop_all, Hpages.
    rewrite run_pages_ok. reflexivity. }
  split; [exact E|].
  intros x1 y1 w1 x2 y2 w2 ->. rewrite E.
  cbn [List.length seq List.combine List.map fst snd String.concat].
  unfold page_block.
  rewrite !pageText_single by reflexivity. reflexivity.
Qed.

(** C7. When the document does not decode, or one of its pages cannot be
    read, the extraction fails as a whole with the one user-facing
    message; no text, partial or not, is returned. *)
Theorem extractPdfText_atomic (file : File.t) (buffer : ArrayBuffer) :
  arrayBuffer file = Ok buffer ->
  (exists e, getDocument buffer = inl e)
  \/ (exists pdf, getDocument buffer = Ok pdf
        /\ Exists (fun r => exists e, r = inl e) (getPageItems pdf)) ->
  extract file = Throw pdf_error_message
  /\ forall text, extract file <> Ok text.
Proof.
  intros Hbuf H. unfold Ok in Hbuf, H.
  assert (E : extract file = Throw pdf_error_message).
  { unfold extract, extractPdfText. rewrite Hbuf. cbn [bind].
    destruct H as [[e He]|(pdf & Hdoc & Hex)].
    - now rewrite He.
    - rewrite Hdoc. cbn [bind]. rewrite pages_loop_all.
      destruct (run_pages_fail _ 1 EmptyString Hex) as [e He].
      now rewrite He. }
  split; [exact E|]. intros text. rewrite E. discriminate.
Qed.
End PdfFacts.

(** ** Ingestion *)

Lemma includes_prefix (s sub : string) :
  String.prefix sub s = true -> Str.includes s sub = true.
Proof. intros H. destruct s; cbn [Str.includes]; now rewrite H. Qed.

Lemma includes_append (a s b : string) : Str.includes (a ^^ s ^^ b) s = true.
Proof.
  induction a as [|c a IH].
  - change (EmptyString ^^ s ^^ b) with (s ^^ b).
    apply includes_prefix, prefix_append.
  - cbn [String.append Str.includes]. rewrite IH. apply orb_true_r.
Qed.

Lemma last_default {B} (l : list B) (x d d' : B) :
  List.last (x :: l) d = List.last (x :: l) d'.
Proof.
  revert x. induction l as [|y l IH]; intros x; [reflexivity|].
  change (List.last (y :: l) d = List.last (y :: l) d'). apply IH.
Qed.

Lemma last_cons_some (xs : list string) (m : string) (d : option string) :
  List.last (List.map Some (m :: xs)) d
    = List.last (List.map Some xs) (Some m).
Proof.
  destruct xs as [|x xs]; [reflexivity|].
  cbn [List.map]. change (List.last (Some m :: Some x :: List.map Some xs) d)
    with (List.last (Some x :: List.map Some xs) d).
  apply last_default.
Qed.

Lemma records_In (rs : list (string + UploadedFile)) (u : UploadedFile) :
  In u (records rs) <-> In (inr u) rs.
Proof.
  unfold records. rewrite List.in_flat_map. split.
  - intros ([m|u'] & Hin & Hu); simpl in Hu; [contradiction|].
    destruct Hu as [->|[]]. exact Hin.
  - intros Hin. exists (inr u). split; [exact Hin | now left].
Qed.

Lemma records_app (a b : list (string + UploadedFile)) :
  records (a ++ b) = records a ++ records b.
Proof. apply List.flat_map_app. Qed.

Lemma messages_app (a b : list (string + UploadedFile)) :
  messages (a ++ b) = messages a ++ messages b.
Proof. apply List.flat_map_app. Qed.

Section IngestionFacts.
Variable ArrayBuffer : Type.
Variable arrayBuffer : File.t -> result ArrayBuffer.
Variable getDocument : ArrayBuffer -> result PDFDocument.
Variable loadAsync : File.t -> result JSZip.
Variable readAsDataURL : File.t -> option string.

Let pdf_text := extractPdfText ArrayBuffer arrayBuffer getDocument.
Let pptx_text := extractPptxText loadAsync.
Let route :=
  dispatch ArrayBuffer arrayBuffer getDocument loadAsync readAsDataURL.
Let step :=
  file_step ArrayBuffer arrayBuffer getDocument loadAsync readAsDataURL.
Let loop :=
  files_loop ArrayBuffer arrayBuffer getDocument loadAsync readAsDataURL.
Let outcome :=
  file_result ArrayBuffer arrayBuffer getDocument loadAsync readAsDataURL.
Let results :=
  outcomes ArrayBuffer arrayBuffer getDocument loadAsync readAsDataURL.
Let finishes :=
  completes ArrayBuffer arrayBuffer getDocument loadAsync readAsDataURL.
Let handle :=
  handleFileChange ArrayBuffer arrayBuffer getDocument loadAsync
    readAsDataURL.

Lemma step_outcome (nf : list UploadedFile) (st : AppState)
    (file : File.t) :
  step (nf, st) file
    = match outcome file with
      | None => None
      | Some (inl m) => Some (nf, setError (Some m) st)
      | Some (inr u) => Some (nf ++ [u], st)
      end.
Proof.
  unfold step, outcome, file_result, file_step, dispatch.
  destruct (File.size file >? MAX_FILE_SIZE); [reflexivity|].
  destruct (Str.startsWith (File.type file) "image/").
  { destruct (readAsDataURL file); reflexivity. }
  destruct (Str.endsWith (Str.toLowerCase (File.name file)) ".pdf"
            || (File.type file =? pdf_mime)%string).
  { destruct (extractPdfText _ _ _ file); reflexivity. }
  destruct (Str.endsWith (Str.toLowerCase (File.name file)) ".pptx").
  { destruct (extractPptxText _ file); reflexivity. }
  reflexivity.
Qed.

Lemma results_cons (file : File.t) (sel : list File.t) :
  results (file :: sel)
    = match outcome file with
      | Some r => r :: results sel
      | None => []
      end.
Proof. reflexivity. Qed.

Lemma finishes_cons (file : File.t) (sel : list File.t) :
  finishes (file :: sel)
    = match outcome file with
      | Some _ => finishes sel
      | None => false
      end.
Proof.
  unfold finishes, completes. cbn [List.forallb]. fold outcome.
  now destruct (outcome file).
Qed.

Lemma loop_outcomes (sel : list File.t) (nf : list UploadedFile)
    (st : AppState) :
  loop sel (nf, st)
    = (if finishes sel then Some (nf ++ records (results sel)) else None,
       {| files := files st;
          error := List.last (List.map Some (messages (results sel)))
                             (error st) |}).
Proof.
  revert nf st. induction sel as [|file sel IH]; intros nf st.
  - cbn. rewrite List.app_nil_r. now destruct st.
  - unfold loop. cbn [files_loop]. fold loop. fold step.
    rewrite step_outcome, results_cons, finishes_cons.
    destruct (outcome file) as [[m|u]|].
    + rewrite IH.
      cbn [records messages List.flat_map List.app setError files error].
      fold (messages (results sel)). fold (records (results sel)).
      f_equal. f_equal. symmetry. apply last_cons_some.
    + rewrite IH. cbn [records messages List.flat_map List.app].
      fold (messages (results sel)). fold (records (results sel)).
      now rewrite <- List.app_assoc.
    + cbn. now destruct st.
Qed.

Lemma handle_outcomes (sel : list File.t) (st : AppState) :
  handle sel st
    = {| files := if finishes sel
                  then files st ++ records (results sel)
                  else files st;
         error := List.last (List.map Some (messages (results sel))) None |}.
Proof.
  unfold handle, handleFileChange. fold loop.
  rewrite loop_outcomes. destruct (finishes sel); reflexivity.
Qed.

Lemma loop_app (a b : list File.t) (acc : list UploadedFile * AppState) :
  loop (a ++ b) acc
    = match loop a acc with
      | (Some nf, st) => loop b (nf, st)
      | (None, st) => (None, st)
      end.
Proof.
  revert acc. induction a as [|file a IH]; intros [nf st].
  - reflexivity.
  - unfold loop. cbn [List.app files_loop]. fold loop. fold step.
    destruct (step (nf, st) file) as [acc'|]; [apply IH | reflexivity].
Qed.

Lemma finishes_app (a b : list File.t) :
  finishes (a ++ b) = finishes a && finishes b.
Proof. apply List.forallb_app. Qed.

Lemma results_app (a b : list File.t) :
  results (a ++ b)
    = if finishes a then results a ++ results b else results a.
Proof.
  induction a as [|file a IH]; [reflexivity|].
  cbn [List.app]. rewrite !results_cons, finishes_cons.
  destruct (outcome file) as [r|]; [|reflexivity].
  rewrite IH. now destruct (finishes a).
Qed.

Lemma results_In (sel : list File.t) (r : string + UploadedFile) :
  In r (results sel) -> exists file, In file sel /\ outcome file = Some r.
Proof.
  induction sel as [|file sel IH]; [contradiction|].
  rewrite results_cons. destruct (outcome file) as [r'|] eqn:E;
    [|contradiction].
  intros [->|Hin].
  - exists file. split; [now left | exact E].
  - destruct (IH Hin) as (f & Hf & Ef). exists f. split; [now right|exact Ef].
Qed.




(** The forms of a record. *)
Lemma outcome_record (file : File.t) (u : UploadedFile) :
  outcome file = Some (inr u) ->
  (Str.startsWith (File.type file) "image/" = true
   /\ exists base64,
        readAsDataURL file = Some base64
        /\ u = {| name := File.name file; type := File.type file;
                  data := base64; preview := Some base64 |})
  \/ (exists text, pdf_text file = inr text
        /\ u = {| name := File.name file; type := pdf_mime;
                  data := text; preview := None |})
  \/ (exists text, pptx_text file = inr text
        /\ u = {| name := File.name file; type := pptx_mime;
                  data := text; preview := None |}).
Proof.
  unfold outcome, file_result, file_step, dispatch, pdf_text, pptx_text.
  destruct (File.size file >? MAX_FILE_SIZE); [discriminate|].
  destruct (Str.startsWith (File.type file) "image/").
  { destruct (readAsDataURL file) as [base64|]; [|discriminate].
    intros H; cbn in H; injection H as <-. left. split; [reflexivity|].
    now exists base64. }
  destruct (Str.endsWith (Str.toLowerCase (File.name file)) ".pdf"
            || (File.type file =? pdf_mime)%string).
  { destruct (extractPdfText _ _ _ file) as [e|text]; [discriminate|].
    intros H; cbn in H; injection H as <-. right. left. now exists text. }
  destruct (Str.endsWith (Str.toLowerCase (File.name file)) ".pptx").
  { destruct (extractPptxText _ file) as [e|text]; [discriminate|].
    intros H; cbn in H; injection H as <-. right. right. now exists text. }
  discriminate.
Qed.

(** Only the read of an image can stay pending. *)
Lemma outcome_pending (file : File.t) :
  outcome file = None ->
  File.size file <= MAX_FILE_SIZE
  /\ Str.startsWith (File.type file) "image/" = true
  /\ readAsDataURL file = None.
Proof.
  unfold outcome, file_result, file_step, dispatch.
  destruct (Z.gtb_spec (File.size file) MAX_FILE_SIZE) as [Hgt|Hle];
    [discriminate|].
  destruct (Str.startsWith (File.type file) "image/").
  { destruct (readAsDataURL file); [discriminate | now intros _]. }
  destruct (Str.endsWith (Str.toLowerCase (File.name file)) ".pdf"
            || (File.type file =? pdf_mime)%string).
  { destruct (extractPdfText _ _ _ file); discriminate. }
  destruct (Str.endsWith (Str.toLowerCase (File.name file)) ".pptx").
  { destruct (extractPptxText _ file); discriminate. }
  discriminate.
Qed.

(** The loop gets through a batch whose images can all be read. *)
Lemma finishes_when_read (sel : list File.t) :
  Forall (fun file =>
            Str.startsWith (File.type file) "image/" = true ->
            readAsDataURL file <> None) sel ->
  finishes sel = true.
Proof.
  intros Hread. unfold finishes, completes. apply List.forallb_forall.
  intros file Hin. rewrite Forall_forall in Hread. specialize (Hread file Hin).
  fold outcome. destruct (outcome file) eqn:E; [reflexivity|].
  apply outcome_pending in E. destruct E as (_ & Himg & Hnone).
  now destruct (Hread Himg).
Qed.

Lemma outcome_too_large (file : File.t) :
  File.size file > MAX_FILE_SIZE ->
  outcome file
    = Some (inl ("File " ^^ DQ ^^ File.name file ^^ DQ
                   ^^ " exceeds the 50MB limit.")).
Proof.
  intros H. unfold outcome, file_result, file_step.
  destruct (Z.gtb_spec (File.size file) MAX_FILE_SIZE); [reflexivity|lia].
Qed.


(** C8. A file of more than 50 * 1024 * 1024 bytes gets the size
    message with its name and no record, and the other files of the
    batch are processed as without it; at exactly that size the file
    goes on to the dispatch. *)
Theorem size_limit (file : File.t) (before after : list File.t)
    (nf : list UploadedFile) (st : AppState) :
  let message :=
    "File " ^^ DQ ^^ File.name file ^^ DQ ^^ " exceeds the 50MB limit." in
  (File.size file > 50 * 1024 * 1024 ->
     step (nf, st) file = Some (nf, setError (Some message) st)
     /\ Str.includes message (File.name file) = true
     /\ loop (before ++ file :: after) (nf, st)
        = match loop before (nf, st) with
          | (Some nf', st') => loop after (nf', setError (Some message) st')
          | (None, st') => (None, st')
          end
     /\ files (handle (before ++ file :: after) st)
        = files (handle (before ++ after) st))
  /\ (File.size file = 50 * 1024 * 1024 ->
        step (nf, st) file = route (nf, st) file).
Proof.
  intros message. split.
  - intros Hgt. change (50 * 1024 * 1024) with MAX_FILE_SIZE in Hgt.
    pose proof (outcome_too_large file Hgt) as E. fold message in E.
    split; [|split; [|split]].
    + rewrite step_outcome, E. reflexivity.
    + apply (includes_append ("File " ^^ DQ)).
    + rewrite loop_app.
      destruct (loop before (nf, st)) as [[nf'|] st']; [|reflexivity].
      unfold loop at 1. cbn [files_loop]. fold loop. fold step.
      rewrite step_outcome, E. reflexivity.
    + rewrite !handle_outcomes. cbn [files].
      rewrite !finishes_app, !results_app, finishes_cons, results_cons, E.
      destruct (finishes before); cbn [andb]; [|reflexivity].
      destruct (finishes after); [|reflexivity].
      now rewrite !records_app.
  - intros Heq. unfold step, file_step.
    destruct (Z.gtb_spec (File.size file) MAX_FILE_SIZE) as [Hgt|_].
    + change MAX_FILE_SIZE with (50 * 1024 * 1024) in Hgt. lia.
    + reflexivity.
Qed.

(** C9. Every record that a batch adds has a preview exactly when its
    type begins with [image/], and then its data and its preview are both
    the data URL of one file of the batch. *)
Theorem preview_iff_image (sel : list File.t) (st : AppState) :
  exists newFiles,
    files (handle sel st) = files st ++ newFiles
    /\ Forall (fun u =>
         (preview u <> None <-> Str.startsWith (type u) "image/" = true)
         /\ (Str.startsWith (type u) "image/" = true ->
             exists file, In file sel
               /\ readAsDataURL file = Some (data u)
               /\ preview u = Some (data u)))
       newFiles.
Proof.
  exists (if finishes sel then records (results sel) else []).
  split.
  { rewrite handle_outcomes. cbn [files].
    destruct (finishes sel); [reflexivity | now rewrite List.app_nil_r]. }
  destruct (finishes sel); [|constructor].
  apply Forall_forall. intros u Hu.
  apply records_In, results_In in Hu.
  destruct Hu as (file & Hin & E).
  destruct (outcome_record file u E)
    as [[Himg (base64 & Hurl & ->)]|[(text & _ & ->)|(text & _ & ->)]];
    cbn [preview type data].
  - split; [split; [intros _; exact Himg | discriminate]|].
    intros _. now exists file.
  - split; [split; [congruence | discriminate]|]. discriminate.
  - split; [split; [congruence | discriminate]|]. discriminate.
Qed.

(** C10. A file that reaches the PDF branch and is extracted is recorded
    with the type [application/pdf], one that reaches the PPTX branch
    with the presentation type, whatever type the file declares. *)
Theorem document_types (file : File.t) (text : string)
    (nf : list UploadedFile) (st : AppState) :
  File.size file <= 50 * 1024 * 1024 ->
  Str.startsWith (File.type file) "image/" = false ->
  ((Str.endsWith (Str.toLowerCase (File.name file)) ".pdf"
    || (File.type file =? "application/pdf")%string) = true ->
   pdf_text file = Ok text ->
   step (nf, st) file
     = Some (nf ++ [ {| name := File.name file; type := "application/pdf";
                        data := text; preview := None |} ], st))
  /\ ((Str.endsWith (Str.toLowerCase (File.name file)) ".pdf"
       || (File.type file =? "application/pdf")%string) = false ->
      Str.endsWith (Str.toLowerCase (File.name file)) ".pptx" = true ->
      pptx_text file = Ok text ->
      step (nf, st) file
        = Some (nf ++ [ {| name := File.name file;
                           type := "application/vnd.openxmlformats-officedocument.presentationml.presentation";
                           data := text; preview := None |} ], st)).
Proof.
  intros Hsize Himg.
  assert (Hs : (File.size file >? MAX_FILE_SIZE) = false).
  { destruct (Z.gtb_spec (File.size file) MAX_FILE_SIZE) as [H|_];
      [|reflexivity].
    change MAX_FILE_SIZE with (50 * 1024 * 1024) in H. lia. }
  split.
  - intros Hpdf Htext. unfold step, file_step, dispatch.
    rewrite Hs, Himg. unfold pdf_mime at 1. rewrite Hpdf.
    fold pdf_text. rewrite Htext. reflexivity.
  - intros Hpdf Hpptx Htext. unfold step, file_step, dispatch.
    rewrite Hs, Himg. unfold pdf_mime at 1. rewrite Hpdf, Hpptx.
    fold pptx_text. rewrite Htext. reflexivity.
Qed.
End IngestionFacts.

(** ** PPTX extraction *)

Lemma span_all (f : ascii -> bool) (s a b : string) :
  Regex.span f s = (a, b) -> Regex.all_chars f a = true /\ s = a ^^ b.
Proof.
  revert a b. induction s as [|c s IH]; intros a b; simpl.
  - intros [= <- <-]. now split.
  - destruct (f c) eqn:Ec.
    + destruct (Regex.span f s) as [a' b']. intros [= <- <-].
      destruct (IH a' b' eq_refl) as [Ha ->]. simpl. now rewrite Ec, Ha.
    + intros [= <- <-]. now split.
Qed.

Lemma span_append (f : ascii -> bool) (a : string) (c : ascii) (b : string) :
  Regex.all_chars f a = true -> f c = false ->
  Regex.span f (a ^^ String c b) = (a, String c b).
Proof.
  intros Ha Hc. induction a as [|x a IH]; simpl.
  - now rewrite Hc.
  - simpl in Ha. apply andb_true_iff in Ha. destruct Ha as [Hx Ha].
    now rewrite Hx, (IH Ha).
Qed.

Lemma slide_number_skip (c : ascii) (s : string) :
  Regex.number_at (String c s) = None ->
  Regex.slide_number (String c s) = Regex.slide_number s.
Proof. intros H. cbn [Regex.slide_number]. now rewrite H. Qed.

Lemma slide_number_here (s d : string) :
  Regex.number_at s = Some d -> Regex.slide_number s = Some d.
Proof. intros H. destruct s; cbn [Regex.slide_number]; now rewrite H. Qed.

Lemma slide_number_of_name (N : string) :
  N <> EmptyString -> Regex.all_chars Regex.is_digit N = true ->
  Regex.slide_number ("ppt/slides/slide" ^^ N ^^ ".xml") = Some N.
Proof.
  intros Hne Hd.
  assert (E : Regex.number_at ("slide" ^^ N ^^ ".xml") = Some N).
  { unfold Regex.number_at.
    cbn [String.append Regex.drop_prefix Ascii.eqb Bool.eqb].
    rewrite (span_append Regex.is_digit N "." "xml" Hd eq_refl).
    apply String.eqb_neq in Hne. rewrite Hne. reflexivity. }
  cbn [String.append].
  do 11 (rewrite slide_number_skip by reflexivity).
  apply slide_number_here. exact E.
Qed.

Lemma is_slide_file_name (N : string) :
  is_slide_file ("ppt/slides/slide" ^^ N ^^ ".xml") = true.
Proof.
  unfold is_slide_file. apply andb_true_iff. split.
  - apply prefix_append.
  - rewrite <- append_assoc. apply endsWith_append.
Qed.

Lemma run_at_form (s m : string) :
  Regex.run_at s = Some m ->
  exists body, m = "<a:t>" ^^ body ^^ "</a:t>"
    /\ Regex.all_chars Regex.not_lt body = true.
Proof.
  unfold Regex.run_at. destruct (Regex.drop_prefix "<a:t>" s) as [r|];
    [|discriminate].
  destruct (Regex.span Regex.not_lt r) as [body rest] eqn:E.
  destruct (String.prefix "</a:t>" rest); [|discriminate].
  intros [= <-]. exists body. split; [reflexivity|].
  now destruct (span_all _ _ _ _ E).
Qed.

Lemma scan_runs_form (s : string) (skip : nat) :
  Forall (fun m => exists body, m = "<a:t>" ^^ body ^^ "</a:t>"
                     /\ Regex.all_chars Regex.not_lt body = true)
         (Regex.scan_runs s skip).
Proof.
  revert skip. induction s as [|c s IH]; intros skip; [constructor|].
  cbn [Regex.scan_runs]. destruct skip as [|k]; [|apply IH].
  destruct (Regex.run_at (String c s)) as [m|] eqn:E; [|apply IH].
  constructor; [now apply run_at_form with (s := String c s) | apply IH].
Qed.

Lemma replace_tags_body (body : string) :
  Regex.all_chars Regex.not_lt body = true ->
  Regex.replace_tags (body ^^ "</a:t>") 0 = body.
Proof.
  induction body as [|c body IH]; [reflexivity|].
  cbn [Regex.all_chars]. intros H. apply andb_true_iff in H.
  destruct H as [Hc Hb].
  assert (Hne : "<"%char <> c).
  { intros <-. discriminate. }
  cbn [String.append Regex.replace_tags String.prefix].
  destruct (ascii_dec "<" c) as [Heq|_]; [contradiction|].
  now rewrite (IH Hb).
Qed.

Lemma strip_tags_run (body : string) :
  Regex.all_chars Regex.not_lt body = true ->
  Regex.strip_tags ("<a:t>" ^^ body ^^ "</a:t>") = body.
Proof.
  intros H. unfold Regex.strip_tags.
  cbn [String.append Regex.replace_tags String.prefix].
  cbn. rewrite prefix_empty. now apply replace_tags_body.
Qed.

Lemma files_get_In (zip : JSZip) (name : string) (o : ZipObject) :
  files_get zip name = Some o -> In name (Object_keys zip).
Proof.
  induction zip as [|[n o'] zip IH]; simpl; [discriminate|].
  destruct (String.eqb_spec n name) as [->|_]; [now left|].
  intros H. right. now apply IH.
Qed.

Lemma scan_runs_skip (a b : string) :
  Regex.scan_runs (a ^^ b) (String.length a) = Regex.scan_runs b 0.
Proof. induction a as [|c a IH]; [reflexivity | exact IH]. Qed.

(** After a match the scan resumes right behind it. *)
Lemma match_runs_cons (m rest : string) :
  Regex.run_at (m ^^ rest) = Some m ->
  Regex.match_runs (m ^^ rest) = m :: Regex.match_runs rest.
Proof.
  intros H. destruct (run_at_form _ _ H) as (body & Hm & _).
  destruct m as [|c m]; [discriminate|].
  unfold Regex.match_runs. cbn [String.append Regex.scan_runs].
  cbn [String.append] in H. rewrite H. f_equal.
  cbn [String.length Nat.sub]. rewrite Nat.sub_0_r. apply scan_runs_skip.
Qed.

Lemma includes_cons (c : ascii) (s sub : string) :
  Str.includes (String c s) sub = false ->
  String.prefix sub (String c s) = false /\ Str.includes s sub = false.
Proof. cbn [Str.includes]. intros H. now apply orb_false_iff in H. Qed.

(** The opening tag does not begin inside a filler that does not hold it,
    when what follows the filler begins with [<] or is empty. *)
Lemma drop_prefix_filler (c : ascii) (filler rest : string) :
  String.prefix "<a:t>" (String c filler) = false ->
  rest = EmptyString \/ (exists r, rest = String "<" r) ->
  Regex.drop_prefix "<a:t>" (String c filler ^^ rest) = None.
Proof.
  intros Hp Hrest.
  destruct (Regex.drop_prefix "<a:t>" (String c filler ^^ rest))
    as [r|] eqn:E; [exfalso|reflexivity].
  destruct filler as [|c2 [|c3 [|c4 [|c5 f]]]];
    cbn [String.append Regex.drop_prefix] in E;
    repeat match type of E with
           | context [Ascii.eqb ?a ?b] =>
               destruct (Ascii.eqb_spec a b); [subst|discriminate]
           end;
    try (destruct Hrest as [->|[r' ->]];
         cbn [String.append Regex.drop_prefix] in E;
         repeat match type of E with
                | context [Ascii.eqb ?a ?b] =>
                    destruct (Ascii.eqb_spec a b); [subst|discriminate]
                end;
         discriminate).
  cbn in Hp. rewrite prefix_empty in Hp. discriminate Hp.
Qed.

Lemma scan_runs_filler (filler rest : string) :
  Str.includes filler "<a:t>" = false ->
  rest = EmptyString \/ (exists r, rest = String "<" r) ->
  Regex.scan_runs (filler ^^ rest) 0 = Regex.scan_runs rest 0.
Proof.
  intros H Hrest. induction filler as [|c filler IH]; [reflexivity|].
  apply includes_cons in H. destruct H as [Hp Hi].
  change (String c filler ^^ rest) with (String c (filler ^^ rest)).
  cbn [Regex.scan_runs]. unfold Regex.run_at.
  change (String c (filler ^^ rest)) with (String c filler ^^ rest).
  rewrite (drop_prefix_filler c filler rest Hp Hrest).
  now apply IH.
Qed.

Lemma run_at_run (body rest : string) :
  Regex.all_chars Regex.not_lt body = true ->
  Regex.run_at (("<a:t>" ^^ body ^^ "</a:t>") ^^ rest)
    = Some ("<a:t>" ^^ body ^^ "</a:t>").
Proof.
  intros Hb. rewrite !append_assoc. unfold Regex.run_at.
  cbn [String.append Regex.drop_prefix Ascii.eqb Bool.eqb].
  rewrite (span_append Regex.not_lt body "<" _ Hb eq_refl).
  cbn. now rewrite prefix_empty.
Qed.

(** The scan finds every text run of a part, in order, and nothing else. *)
Lemma match_runs_markup (pieces : list (string * string)) (tail : string) :
  Forall (fun p => Str.includes (fst p) "<a:t>" = false
                   /\ Regex.all_chars Regex.not_lt (snd p) = true) pieces ->
  Str.includes tail "<a:t>" = false ->
  Regex.match_runs (markup pieces tail)
    = List.map (fun p => "<a:t>" ^^ snd p ^^ "</a:t>") pieces.
Proof.
  intros H Htail. induction H as [|[filler body] pieces [Hf Hb] _ IH].
  - cbn [markup List.map]. unfold Regex.match_runs.
    rewrite <- (append_nil_r tail).
    now rewrite (scan_runs_filler tail EmptyString Htail (or_introl eq_refl)).
  - cbn [markup List.map fst snd] in *. unfold Regex.match_runs.
    rewrite (scan_runs_filler filler _ Hf)
      by (right; eexists; reflexivity).
    fold (Regex.match_runs ("<a:t>" ^^ body ^^ "</a:t>" ^^ markup pieces tail)).
    replace ("<a:t>" ^^ body ^^ "</a:t>" ^^ markup pieces tail)
      with (("<a:t>" ^^ body ^^ "</a:t>") ^^ markup pieces tail)
      by now rewrite !append_assoc.
    rewrite (match_runs_cons _ _ (run_at_run body _ Hb)).
    now rewrite IH.
Qed.

Lemma strip_tags_markup (pieces : list (string * string)) :
  Forall (fun p => Str.includes (fst p) "<a:t>" = false
                   /\ Regex.all_chars Regex.not_lt (snd p) = true) pieces ->
  List.map Regex.strip_tags
    (List.map (fun p => "<a:t>" ^^ snd p ^^ "</a:t>") pieces)
  = List.map snd pieces.
Proof.
  induction 1 as [|[filler body] pieces [_ Hb] _ IH]; [reflexivity|].
  cbn [List.map snd] in *. now rewrite IH, (strip_tags_run body Hb).
Qed.

(** C2, as the code has it.  The slide entry [ppt/slides/slideN.xml] is
    among the enumerated slide files, and its round of the loop appends:
    when the slide has at least one text run, the marker line
    [--- Slide N ---] and the texts of all its runs, wrappers removed,
    joined by one space, on one line; then, when the notes part of the
    same number exists and has at least one text run, the line
    [[Slide N Notes: ...]] with the joined texts of its runs.  A slide or
    a notes part without text runs adds nothing.  The runs of a part are
    all of them: for a part made of text runs, each behind a filler
    without the opening tag, the scan gives these runs, in order, and the
    joined text is their texts joined by one space; so the slide part and
    the notes part hold the texts of all runs of their XML. *)
Theorem slide_block (zip : JSZip) (fullText N content : string) :
  N <> EmptyString ->
  Regex.all_chars Regex.is_digit N = true ->
  files_get zip ("ppt/slides/slide" ^^ N ^^ ".xml")
    = Some (mkEntry (Ok content)) ->
  (forall o e,
      files_get zip ("ppt/notesSlides/notesSlide" ^^ N ^^ ".xml") = Some o ->
      async_string o <> inl e) ->
  let runs := Regex.match_runs content in
  let slide_part :=
    match runs with
    | [] => EmptyString
    | _ :: _ =>
        "--- Slide " ^^ N ^^ " ---" ^^ LF
          ^^ Str.join " " (List.map Regex.strip_tags runs) ^^ LF
    end in
  let notes_part :=
    match files_get zip ("ppt/notesSlides/notesSlide" ^^ N ^^ ".xml") with
    | Some {| async_string := inr notes |} =>
        match Regex.match_runs notes with
        | [] => EmptyString
        | _ :: _ =>
            "[Slide " ^^ N ^^ " Notes: "
              ^^ Str.join " "
                   (List.map Regex.strip_tags (Regex.match_runs notes))
              ^^ "]" ^^ LF
        end
    | _ => EmptyString
    end in
  In ("ppt/slides/slide" ^^ N ^^ ".xml") (slideFiles_of zip)
  /\ slide_step zip fullText ("ppt/slides/slide" ^^ N ^^ ".xml")
     = Ok (fullText ^^ slide_part ^^ notes_part)
  /\ Forall (fun m =>
       exists body, m = "<a:t>" ^^ body ^^ "</a:t>"
         /\ Regex.all_chars Regex.not_lt body = true
         /\ Regex.strip_tags m = body)
     runs
  /\ (forall text pieces tail,
        text = markup pieces tail ->
        Forall (fun p => Str.includes (fst p) "<a:t>" = false
                         /\ Regex.all_chars Regex.not_lt (snd p) = true)
               pieces ->
        Str.includes tail "<a:t>" = false ->
        Regex.match_runs text
          = List.map (fun p => "<a:t>" ^^ snd p ^^ "</a:t>") pieces
        /\ Str.join " " (List.map Regex.strip_tags (Regex.match_runs text))
           = Str.join " " (List.map snd pieces)
        /\ (Regex.match_runs text = [] <-> pieces = []))
  /\ (forall pieces tail,
        content = markup pieces tail ->
        Forall (fun p => Str.includes (fst p) "<a:t>" = false
                         /\ Regex.all_chars Regex.not_lt (snd p) = true)
               pieces ->
        Str.includes tail "<a:t>" = false ->
        slide_part
        = match pieces with
          | [] => EmptyString
          | _ :: _ =>
              "--- Slide " ^^ N ^^ " ---" ^^ LF
                ^^ Str.join " " (List.map snd pieces) ^^ LF
          end)
  /\ (forall notes pieces tail,
        files_get zip ("ppt/notesSlides/notesSlide" ^^ N ^^ ".xml")
          = Some (mkEntry (Ok notes)) ->
        notes = markup pieces tail ->
        Forall (fun p => Str.includes (fst p) "<a:t>" = false
                         /\ Regex.all_chars Regex.not_lt (snd p) = true)
               pieces ->
        Str.includes tail "<a:t>" = false ->
        notes_part
        = match pieces with
          | [] => EmptyString
          | _ :: _ =>
              "[Slide " ^^ N ^^ " Notes: "
                ^^ Str.join " " (List.map snd pieces) ^^ "]" ^^ LF
          end)
  /\ (files_get zip ("ppt/notesSlides/notesSlide" ^^ N ^^ ".xml") = None ->
      notes_part = EmptyString).
Proof.
  intros Hne Hd Hfile Hnotes runs slide_part notes_part.
  split.
  { apply List.filter_In. split; [|apply is_slide_file_name].
    now apply files_get_In with (o := mkEntry (Ok content)). }
  split; [|split; [|split; [|split; [|split]]]].
  3:{ intros text pieces tail -> Hp Ht.
      rewrite (match_runs_markup pieces tail Hp Ht).
      split; [reflexivity|]. split; [now rewrite (strip_tags_markup pieces Hp)|].
      destruct pieces; split; intros H; try reflexivity; discriminate. }
  3:{ intros pieces tail Hc Hp Ht. subst slide_part runs.
      rewrite Hc, (match_runs_markup pieces tail Hp Ht).
      rewrite (strip_tags_markup pieces Hp).
      now destruct pieces. }
  3:{ intros notes pieces tail Hn Hc Hp Ht. subst notes_part.
      rewrite Hn. unfold Ok. cbv beta iota.
      rewrite Hc, (match_runs_markup pieces tail Hp Ht).
      rewrite (strip_tags_markup pieces Hp).
      now destruct pieces. }
  3:{ intros Hn. subst notes_part. now rewrite Hn. }
  - unfold slide_step, slideNum_of, notesFile_of, joined_text.
    rewrite (slide_number_of_name N Hne Hd), Hfile.
    cbn [async_string bind Ok]. subst slide_part notes_part runs.
    destruct (files_get zip ("ppt/notesSlides/notesSlide" ^^ N ^^ ".xml"))
      as [[[e|notes]]|] eqn:En.
    + exfalso. apply (Hnotes _ e eq_refl). reflexivity.
    + cbn [async_string bind].
      destruct (Regex.match_runs content);
        destruct (Regex.match_runs notes); unfold Ok;
        rewrite ?append_nil_r, ?append_assoc; reflexivity.
    + destruct (Regex.match_runs content); unfold Ok;
        rewrite ?append_nil_r, ?append_assoc; reflexivity.
  - subst runs. unfold Regex.match_runs.
    eapply Forall_impl; [|apply scan_runs_form].
    intros m (body & -> & Hb). exists body.
    split; [reflexivity|]. split; [exact Hb | now apply strip_tags_run].
Qed.

(** ** The code run on the sample collaborators *)

Lemma slide_block_witness :
  slide_step Sample.deck EmptyString "ppt/slides/slide1.xml"
    = Ok ("--- Slide 1 ---" ^^ LF ^^ "Intro" ^^ LF
          ^^ "[Slide 1 Notes: remember X]" ^^ LF)
  /\ slide_step Decks.several_runs EmptyString "ppt/slides/slide3.xml"
    = Ok ("--- Slide 3 ---" ^^ LF ^^ "Hello wide world" ^^ LF
          ^^ "[Slide 3 Notes: say hi]" ^^ LF)
  /\ Regex.match_runs
       "<p:sp><a:r><a:t>Hello</a:t></a:r><a:r><a:t>wide world</a:t></a:r></p:sp>"
     = ["<a:t>Hello</a:t>"; "<a:t>wide world</a:t>"]
  /\ joined_text
       (Regex.match_runs "<a:p><a:t>say</a:t><a:br/><a:t>hi</a:t></a:p>")
     = Str.join " " ["say"; "hi"].
Proof.
  assert (Hnotes : forall o e,
             files_get Sample.deck ("ppt/notesSlides/notesSlide" ^^ "1" ^^ ".xml")
               = Some o -> async_string o <> inl e).
  { intros o e H. injection H as <-. discriminate. }
  assert (Hnotes3 : forall o e,
             files_get Decks.several_runs
               ("ppt/notesSlides/notesSlide" ^^ "3" ^^ ".xml")
               = Some o -> async_string o <> inl e).
  { intros o e H. injection H as <-. discriminate. }
  split; [|split; [|split]].
  - destruct (slide_block Sample.deck EmptyString "1"
                "<p:sp><a:t>Intro</a:t></p:sp>"
                ltac:(discriminate) eq_refl eq_refl Hnotes) as (_ & H & _).
    exact H.
  - destruct (slide_block Decks.several_runs EmptyString "3"
                "<p:sp><a:r><a:t>Hello</a:t></a:r><a:r><a:t>wide world</a:t></a:r></p:sp>"
                ltac:(discriminate) eq_refl eq_refl Hnotes3) as (_ & H & _).
    exact H.
  - destruct (slide_block Decks.several_runs EmptyString "3"
                "<p:sp><a:r><a:t>Hello</a:t></a:r><a:r><a:t>wide world</a:t></a:r></p:sp>"
                ltac:(discriminate) eq_refl eq_refl Hnotes3)
      as (_ & _ & _ & H & _).
    destruct (H "<p:sp><a:r><a:t>Hello</a:t></a:r><a:r><a:t>wide world</a:t></a:r></p:sp>"
                [("<p:sp><a:r>", "Hello"); ("</a:r><a:r>", "wide world")]
                "</a:r></p:sp>" eq_refl) as (Hruns & _).
    + repeat constructor.
    + reflexivity.
    + exact Hruns.
  - destruct (slide_block Decks.several_runs EmptyString "3"
                "<p:sp><a:r><a:t>Hello</a:t></a:r><a:r><a:t>wide world</a:t></a:r></p:sp>"
                ltac:(discriminate) eq_refl eq_refl Hnotes3)
      as (_ & _ & _ & H & _).
    destruct (H "<a:p><a:t>say</a:t><a:br/><a:t>hi</a:t></a:p>"
                [("<a:p>", "say"); ("<a:br/>", "hi")]
                "</a:p>" eq_refl) as (_ & Hjoin & _).
    + repeat constructor.
    + reflexivity.
    + exact Hjoin.
Defined.

(** C2, as stated: a slide entry without text runs gets no marker. *)
Lemma slide_without_runs_no_marker :
  is_slide_file "ppt/slides/slide1.xml" = true
  /\ Object_keys Sample.blank_deck = ["ppt/slides/slide1.xml"]
  /\ Sample.extractPptxText Sample.blank = Ok EmptyString
  /\ Str.includes EmptyString "--- Slide 1 ---" = false.
Proof. repeat split. Qed.

Lemma extractPdfText_pages_witness :
  Sample.extractPdfText Sample.paper
    = Ok ("--- Page 1 ---" ^^ LF ^^ "Alpha" ^^ LF ^^ LF ^^ LF
          ^^ "--- Page 2 ---" ^^ LF ^^ "Beta" ^^ LF ^^ LF ^^ LF).
Proof.
  destruct (extractPdfText_pages string Sample.arrayBuffer Sample.getDocument
              Sample.paper "paper.pdf"
              (mkPdf [Ok [mkItem "Alpha" 72 700 (Some 30%float)];
                      Ok [mkItem "Beta" 72 700 (Some 24%float)]])
              [[mkItem "Alpha" 72 700 (Some 30%float)];
               [mkItem "Beta" 72 700 (Some 24%float)]]
              eq_refl eq_refl eq_refl) as [_ H].
  exact (H 72%float 700%float (Some 30%float)
           72%float 700%float (Some 24%float) eq_refl).
Defined.

Lemma extractPdfText_atomic_witness :
  Sample.extractPdfText Sample.torn = Throw pdf_error_message
  /\ Sample.extractPdfText Sample.broken = Throw pdf_error_message.
Proof.
  split.
  - apply (extractPdfText_atomic string Sample.arrayBuffer Sample.getDocument
             Sample.torn "torn.pdf" eq_refl).
    right. eexists. split; [reflexivity|].
    apply Exists_cons_tl, Exists_cons_hd. now eexists.
  - apply (extractPdfText_atomic string Sample.arrayBuffer Sample.getDocument
             Sample.broken "broken.pdf" eq_refl).
    left. now eexists.
Defined.


Lemma size_limit_witness :
  Sample.handleFileChange [Sample.big; Sample.photo] Sample.start
    = {| files := [ {| name := "photo.png"; type := "image/png";
                       data := "data:image/png;base64,AAAA";
                       preview := Some "data:image/png;base64,AAAA" |} ];
         error := Some ("File " ^^ DQ ^^ "big.pdf" ^^ DQ
                          ^^ " exceeds the 50MB limit.") |}
  /\ file_step string Sample.arrayBuffer Sample.getDocument Sample.loadAsync
       Sample.readAsDataURL ([], Sample.start) Sample.photo
     = Some ([ {| name := "photo.png"; type := "image/png";
                  data := "data:image/png;base64,AAAA";
                  preview := Some "data:image/png;base64,AAAA" |} ],
             Sample.start).
Proof.
  split.
  - destruct (size_limit string Sample.arrayBuffer Sample.getDocument
                Sample.loadAsync Sample.readAsDataURL
                Sample.big [] [Sample.photo] [] Sample.start) as [Hbig _].
    destruct (Hbig eq_refl) as (_ & _ & Hloop & _).
    unfold Sample.handleFileChange, handleFileChange.
    change (setError None Sample.start) with Sample.start.
    change ([Sample.big; Sample.photo])
      with ([] ++ Sample.big :: [Sample.photo]).
    rewrite Hloop. reflexivity.
  - destruct (size_limit string Sample.arrayBuffer Sample.getDocument
                Sample.loadAsync Sample.readAsDataURL
                Sample.photo [] [] [] Sample.start) as [_ Hphoto].
    rewrite (Hphoto eq_refl). reflexivity.
Defined.

Lemma document_types_witness :
  file_step string Sample.arrayBuffer Sample.getDocument Sample.loadAsync
    Sample.readAsDataURL ([], Sample.start) Sample.paper
    = Some ([ {| name := "paper.pdf"; type := "application/pdf";
                 data := "--- Page 1 ---" ^^ LF ^^ "Alpha" ^^ LF ^^ LF ^^ LF
                         ^^ "--- Page 2 ---" ^^ LF ^^ "Beta" ^^ LF ^^ LF ^^ LF;
                 preview := None |} ], Sample.start)
  /\ file_step string Sample.arrayBuffer Sample.getDocument Sample.loadAsync
       Sample.readAsDataURL ([], Sample.start) Sample.slides
     = Some ([ {| name := "deck.pptx"; type := pptx_mime;
                  data := "--- Slide 1 ---" ^^ LF ^^ "Intro" ^^ LF
                          ^^ "[Slide 1 Notes: remember X]" ^^ LF;
                  preview := None |} ], Sample.start).
Proof.
  split.
  - destruct (document_types string Sample.arrayBuffer Sample.getDocument
                Sample.loadAsync Sample.readAsDataURL Sample.paper
                ("--- Page 1 ---" ^^ LF ^^ "Alpha" ^^ LF ^^ LF ^^ LF
                 ^^ "--- Page 2 ---" ^^ LF ^^ "Beta" ^^ LF ^^ LF ^^ LF)
                [] Sample.start ltac:(discriminate) eq_refl) as [H _].
    exact (H eq_refl eq_refl).
  - destruct (document_types string Sample.arrayBuffer Sample.getDocument
                Sample.loadAsync Sample.readAsDataURL Sample.slides
                ("--- Slide 1 ---" ^^ LF ^^ "Intro" ^^ LF
                 ^^ "[Slide 1 Notes: remember X]" ^^ LF)
                [] Sample.start ltac:(discriminate) eq_refl) as [_ H].
    exact (H eq_refl eq_refl eq_refl).
Defined.

(** * Further properties of the ingestion code *)

(** ** Line groups *)

Lemma fold_add_item_nonblank (items : list TextItem) (lines : LineMap) :
  fold_left add_item
    (List.filter (fun it => negb (is_blank (str it))) items) lines
  = fold_left add_item items lines.
Proof.
  revert lines. induction items as [|it items IH]; intros lines;
    [reflexivity|].
  cbn [List.filter fold_left].
  destruct (is_blank (str it)) eqn:E; cbn [negb].
  - rewrite IH. f_equal. unfold add_item. now rewrite E.
  - cbn [fold_left]. apply IH.
Qed.

(** X1. Fragments whose text is empty or white space never change the text
    of a page: dropping them beforehand gives the same page text. *)
Theorem blank_fragments_ignored (items : list TextItem) :
  pageText (List.filter (fun it => negb (Str.all_white_space (str it))) items)
    = pageText items.
Proof.
  assert (E : group_items
                (List.filter
                   (fun it => negb (Str.all_white_space (str it))) items)
              = group_items items).
  { unfold group_items.
    rewrite (List.filter_ext _ (fun it => negb (is_blank (str it)))).
    - apply fold_add_item_nonblank.
    - intros it. now rewrite is_blank_spec. }
  unfold pageText. now rewrite E.
Qed.

Lemma Map_push_fragments (k : float) (item : TextItem) (m : LineMap) :
  In k (Map_keys m) ->
  Permutation (fragments_of (Map_push k item m)) (fragments_of m ++ [item]).
Proof.
  unfold fragments_of. induction m as [|[k' v] m IH]; simpl; [contradiction|].
  intros Hin. destruct (sameValueZero k' k) eqn:E; simpl.
  - rewrite <- !List.app_assoc. apply Permutation_app_head.
    apply Permutation_app_comm.
  - destruct Hin as [Heq|Hin].
    + subst k'. rewrite sameValueZero_refl in E. discriminate.
    + rewrite <- List.app_assoc. apply Permutation_app_head. now apply IH.
Qed.

Lemma add_item_fragments (lines : LineMap) (item : TextItem) :
  is_blank (str item) = false ->
  is_finite (transform5 item) = true ->
  Permutation (fragments_of (add_item lines item))
              (fragments_of lines ++ [item]).
Proof.
  intros Hb Hy. unfold add_item. rewrite Hb.
  destruct (foundKey lines (transform5 item)) as [k|] eqn:E.
  - apply Map_push_fragments. now apply foundKey_some in E.
  - apply foundKey_none in E.
    rewrite Map_set_fresh by now apply far_from_distinct.
    unfold fragments_of. rewrite List.map_app, List.concat_app. reflexivity.
Qed.

Lemma fold_add_item_fragments (items : list TextItem) (lines : LineMap) :
  Forall (fun it => is_blank (str it) = false ->
                    is_finite (transform5 it) = true) items ->
  Permutation (fragments_of (fold_left add_item items lines))
    (fragments_of lines
       ++ List.filter (fun it => negb (is_blank (str it))) items).
Proof.
  intros H. revert lines.
  induction H as [|it items Hit _ IH]; intros lines.
  - simpl. now rewrite List.app_nil_r.
  - cbn [fold_left List.filter]. rewrite IH.
    destruct (is_blank (str it)) eqn:E; cbn [negb].
    + unfold add_item. now rewrite E.
    + rewrite (add_item_fragments lines it E (Hit eq_refl)).
      now rewrite <- List.app_assoc.
Qed.

(** X2. On a page whose non-blank fragments have a finite vertical
    origin, grouping neither loses nor duplicates a fragment: the
    fragments of all line-groups together are the non-blank fragments of
    the page. *)
Theorem grouping_keeps_fragments (items : list TextItem) :
  Forall (fun it => Str.all_white_space (str it) = false ->
                    is_finite (transform5 it) = true) items ->
  Permutation
    (List.concat (List.map snd (group_items items)))
    (List.filter (fun it => negb (Str.all_white_space (str it))) items).
Proof.
  intros H. unfold group_items.
  rewrite (fold_add_item_fragments items []).
  - simpl.
    rewrite (List.filter_ext _
               (fun it => negb (Str.all_white_space (str it))));
      [reflexivity|].
    intros it. now rewrite is_blank_spec.
  - revert H. apply Forall_impl. intros it Hit Hb. apply Hit.
    now rewrite <- is_blank_spec.
Qed.

Lemma grouping_keeps_fragments_witness :
  Permutation
    (List.concat
       (List.map snd
          (group_items [frag "a" 0 700; frag " " 9 700; frag "c" 0 650.5;
                        frag "b" 30 702.25])))
    [frag "a" 0 700; frag "c" 0 650.5; frag "b" 30 702.25].
Proof.
  apply (grouping_keeps_fragments
           [frag "a" 0 700; frag " " 9 700; frag "c" 0 650.5;
            frag "b" 30 702.25]).
  repeat constructor.
Defined.

(** Without that, a fragment is lost: of two fragments whose vertical
    origin is NaN only the second one is in a group. *)
Example fragment_lost :
  List.concat (List.map snd (group_items [frag "a" 0 nan; frag "b" 9 nan]))
    = [frag "b" 9 nan].
Proof. reflexivity. Qed.

Lemma add_item_groups_ok (lines : LineMap) (item : TextItem) :
  StronglySorted apart (Map_keys lines) ->
  (Str.all_white_space (str item) = false ->
   is_finite (transform5 item) = true) ->
  Forall group_ok lines -> Forall group_ok (add_item lines item).
Proof.
  intros Hinv Hy H. unfold add_item.
  destruct (is_blank (str item)) eqn:Hb; [exact H|].
  rewrite is_blank_spec in Hb. specialize (Hy Hb).
  destruct (foundKey lines (transform5 item)) as [k|] eqn:E.
  - apply foundKey_some in E. destruct E as [Hin Hk].
    destruct (Map_keys_split k lines Hin) as (l1 & g & l2 & ->).
    rewrite Map_push_at by now apply apart_before in Hinv.
    apply Forall_app in H. destruct H as [H1 H2].
    inversion H2 as [|? ? [(first & rest & Hg & Hf) Hall] H2']; subst.
    cbn [fst snd] in *.
    apply Forall_app. split; [exact H1|]. constructor; [|exact H2'].
    split; cbn [fst snd].
    + exists first, (rest ++ [item]). now rewrite Hg.
    + apply Forall_app. split; [exact Hall|].
      constructor; [now split | constructor].
  - apply foundKey_none in E.
    rewrite Map_set_fresh by now apply far_from_distinct.
    apply Forall_app. split; [exact H|]. constructor; [|constructor].
    split; cbn [fst snd].
    + now exists item, [].
    + constructor; [|constructor]. split; [|exact Hb].
      apply within_tolerance_same; [exact Hy|].
      rewrite sameValueZero_key_of_l. apply sameValueZero_refl.
Qed.

(** X3. On a page whose non-blank fragments have a finite vertical
    origin, every line-group is non-empty, is keyed by the vertical origin
    of the fragment that opened it (-0 as +0), and holds only non-blank
    fragments whose vertical origin is less than 5 away from that key. *)
Theorem groups_well_formed (items : list TextItem) :
  Forall (fun it => Str.all_white_space (str it) = false ->
                    is_finite (transform5 it) = true) items ->
  Forall (fun e =>
            (exists first rest,
                snd e = first :: rest
                /\ fst e = (if (transform5 first =? 0)%float then 0%float
                            else transform5 first))
            /\ Forall (fun it =>
                         (abs (fst e - transform5 it) <? 5)%float = true
                         /\ Str.all_white_space (str it) = false)
                      (snd e))
         (group_items items).
Proof.
  intros H. change (Forall group_ok (group_items items)). unfold group_items.
  assert (G : forall lines,
             StronglySorted apart (Map_keys lines) ->
             Forall group_ok lines ->
             Forall group_ok (fold_left add_item items lines)).
  { induction H as [|it items Hit _ IH]; intros lines Hinv Hl; [exact Hl|].
    cbn [fold_left]. apply IH.
    - now apply add_item_keys_apart.
    - now apply add_item_groups_ok. }
  apply G; constructor.
Qed.

Lemma groups_well_formed_witness :
  Forall (fun e =>
            (exists first rest,
                snd e = first :: rest
                /\ fst e = (if (transform5 first =? 0)%float then 0%float
                            else transform5 first))
            /\ Forall (fun it =>
                         (abs (fst e - transform5 it) <? 5)%float = true
                         /\ Str.all_white_space (str it) = false)
                      (snd e))
         (group_items [frag "a" 0 700; frag " " 9 700; frag "c" 0 650.5;
                       frag "b" 30 702.25]).
Proof.
  apply (groups_well_formed
           [frag "a" 0 700; frag " " 9 700; frag "c" 0 650.5;
            frag "b" 30 702.25]).
  repeat constructor.
Defined.

(** ** PPTX extraction as a whole *)

Lemma slide_step_acc (zip : JSZip) (fullText slideFile : string) :
  slide_step zip fullText slideFile
    = match slide_step zip EmptyString slideFile with
      | inl e => inl e
      | inr block => inr (fullText ^^ block)
      end.
Proof.
  unfold slide_step.
  destruct (files_get zip slideFile) as [[[e|content]]|];
    cbn [async_string bind Throw]; try reflexivity.
  destruct (files_get zip (notesFile_of (slideNum_of slideFile)))
    as [[[e|notes]]|]; cbn [async_string bind]; try reflexivity.
  - destruct (Regex.match_runs content); destruct (Regex.match_runs notes);
      unfold Ok; rewrite ?append_nil_r, ?append_assoc; reflexivity.
  - destruct (Regex.match_runs content); unfold Ok;
      rewrite ?append_nil_r, ?append_assoc; reflexivity.
Qed.

Lemma slides_loop_blocks (zip : JSZip) (slideFiles blocks : list string)
    (fullText : string) :
  Forall2 (fun f block => slide_step zip EmptyString f = Ok block)
          slideFiles blocks ->
  slides_loop zip slideFiles fullText
    = Ok (fullText ^^ String.concat EmptyString blocks).
Proof.
  intros H. revert fullText.
  induction H as [|f block fs bs Hf _ IH]; intros fullText.
  - simpl. now rewrite append_nil_r.
  - cbn [slides_loop]. rewrite slide_step_acc, Hf. unfold Ok. cbn [bind].
    rewrite IH, append_assoc. unfold Ok. do 2 f_equal.
    destruct bs; simpl; [now rewrite append_nil_r | reflexivity].
Qed.

Lemma slides_loop_fails (zip : JSZip) (slideFiles : list string)
    (fullText : string) :
  Exists (fun f => exists e, slide_step zip EmptyString f = inl e)
         slideFiles ->
  exists e, slides_loop zip slideFiles fullText = inl e.
Proof.
  intros H. revert fullText.
  induction H as [f fs [e He]|f fs _ IH]; intros fullText;
    cbn [slides_loop]; rewrite slide_step_acc.
  - rewrite He. now exists e.
  - destruct (slide_step zip EmptyString f) as [e|block];
      [now exists e | apply IH].
Qed.

Lemma slide_step_unreadable (zip : JSZip) (f : string) :
  (exists o e, files_get zip f = Some o /\ async_string o = inl e)
  \/ (exists o e, files_get zip (notesFile_of (slideNum_of f)) = Some o
                  /\ async_string o = inl e) ->
  exists e, slide_step zip EmptyString f = inl e.
Proof.
  unfold slide_step. intros [(o & e & Hf & He)|(o & e & Hn & He)].
  - rewrite Hf, He. now exists e.
  - destruct (files_get zip f) as [[[e'|content]]|];
      cbn [async_string bind Throw]; try (eexists; reflexivity).
    rewrite Hn, He. now exists e.
Qed.

Lemma slides_loop_agree (zip zip' : JSZip) (slideFiles : list string)
    (fullText : string) :
  (forall f, In f slideFiles ->
     files_get zip f = files_get zip' f
     /\ files_get zip (notesFile_of (slideNum_of f))
        = files_get zip' (notesFile_of (slideNum_of f))) ->
  slides_loop zip slideFiles fullText = slides_loop zip' slideFiles fullText.
Proof.
  revert fullText. induction slideFiles as [|f fs IH]; intros fullText H;
    [reflexivity|].
  cbn [slides_loop].
  assert (E : slide_step zip fullText f = slide_step zip' fullText f).
  { unfold slide_step. destruct (H f (or_introl eq_refl)) as [-> ->].
    reflexivity. }
  rewrite E. destruct (slide_step zip' fullText f) as [e|t]; [reflexivity|].
  cbn [bind]. apply IH. intros g Hg. apply H. now right.
Qed.

Section PptxFacts.
Variable loadAsync : File.t -> result JSZip.

(** X4. The text of a presentation is the blocks of its slide files put
    one after the other in the order in which the archive lists them, which
    need not be the order of the slide numbers; each block is what the
    slide gives on its own. *)
Theorem slides_in_archive_order (file : File.t) (zip : JSZip)
    (blocks : list string) :
  loadAsync file = Ok zip ->
  Forall2 (fun f block => slide_step zip EmptyString f = Ok block)
          (List.filter is_slide_file (Object_keys zip)) blocks ->
  extractPptxText loadAsync file = Ok (String.concat EmptyString blocks).
Proof.
  intros Hzip H. unfold extractPptxText. unfold Ok in Hzip. rewrite Hzip.
  cbn [bind]. unfold slideFiles_of.
  now rewrite (slides_loop_blocks zip _ blocks EmptyString H).
Qed.

(** X5. A presentation is extracted as a whole or not at all: when the
    archive does not open, or the XML of one slide file or of the notes
    part of one slide file cannot be read, the extraction fails and returns
    no text. *)
Theorem extractPptxText_atomic (file : File.t) :
  (exists e, loadAsync file = inl e)
  \/ (exists zip, loadAsync file = Ok zip
        /\ Exists (fun f =>
             (exists o e, files_get zip f = Some o /\ async_string o = inl e)
             \/ (exists o e,
                    files_get zip ("ppt/notesSlides/notesSlide"
                                     ^^ slideNum_of f ^^ ".xml") = Some o
                    /\ async_string o = inl e))
           (List.filter is_slide_file (Object_keys zip))) ->
  exists e, extractPptxText loadAsync file = inl e
            /\ forall text, extractPptxText loadAsync file <> Ok text.
Proof.
  intros H.
  assert (E : exists e, extractPptxText loadAsync file = inl e).
  { unfold extractPptxText. destruct H as [[e He]|(zip & Hzip & Hex)].
    - rewrite He. now exists e.
    - unfold Ok in Hzip. rewrite Hzip. cbn [bind]. unfold slideFiles_of.
      apply slides_loop_fails. revert Hex. apply Exists_impl.
      intros f Hf. now apply slide_step_unreadable. }
  destruct E as [e E]. exists e. split; [exact E|].
  intros text. rewrite E. discriminate.
Qed.

(** X6. Only the slide files and their notes parts are read: two archives
    that list the same slide files and hold the same entries under these
    names and under the names of their notes parts give the same outcome,
    whatever else they contain. *)
Theorem only_slides_and_notes_read (file file' : File.t) (zip zip' : JSZip) :
  loadAsync file = Ok zip ->
  loadAsync file' = Ok zip' ->
  List.filter is_slide_file (Object_keys zip)
    = List.filter is_slide_file (Object_keys zip') ->
  (forall f, In f (List.filter is_slide_file (Object_keys zip)) ->
     files_get zip f = files_get zip' f
     /\ files_get zip ("ppt/notesSlides/notesSlide" ^^ slideNum_of f ^^ ".xml")
        = files_get zip'
            ("ppt/notesSlides/notesSlide" ^^ slideNum_of f ^^ ".xml")) ->
  extractPptxText loadAsync file = extractPptxText loadAsync file'.
Proof.
  intros Hzip Hzip' Hkeys H. unfold extractPptxText.
  unfold Ok in Hzip, Hzip'. rewrite Hzip, Hzip'. cbn [bind].
  unfold slideFiles_of. rewrite <- Hkeys.
  apply slides_loop_agree. exact H.
Qed.
End PptxFacts.

Lemma slides_in_archive_order_witness :
  extractPptxText (Decks.load Decks.shuffled) Sample.slides
    = Ok ("--- Slide 2 ---" ^^ LF ^^ "Two" ^^ LF
          ^^ "--- Slide 1 ---" ^^ LF ^^ "One" ^^ LF).
Proof.
  apply (slides_in_archive_order (Decks.load Decks.shuffled) Sample.slides
           Decks.shuffled
           [ "--- Slide 2 ---" ^^ LF ^^ "Two" ^^ LF;
             "--- Slide 1 ---" ^^ LF ^^ "One" ^^ LF ] eq_refl).
  repeat constructor.
Defined.

Lemma extractPptxText_atomic_witness :
  exists e, extractPptxText (Decks.load Decks.torn) Sample.slides = inl e
    /\ forall text,
         extractPptxText (Decks.load Decks.torn) Sample.slides <> Ok text.
Proof.
  apply (extractPptxText_atomic (Decks.load Decks.torn) Sample.slides).
  right. exists Decks.torn. split; [reflexivity|].
  apply Exists_cons_tl, Exists_cons_hd. left.
  eexists. eexists. split; reflexivity.
Defined.

Lemma only_slides_and_notes_read_witness :
  extractPptxText Decks.pick (File.make "media.pptx" "application/zip" 9000)
    = extractPptxText Decks.pick Sample.slides.
Proof.
  apply (only_slides_and_notes_read Decks.pick
           (File.make "media.pptx" "application/zip" 9000) Sample.slides
           Decks.with_media Sample.deck eq_refl eq_refl eq_refl).
  intros f [<-|[]]. split; reflexivity.
Defined.

(** ** Batches *)



Lemma toLowerCase_append (a b : string) :
  Str.toLowerCase (a ^^ b) = Str.toLowerCase a ^^ Str.toLowerCase b.
Proof. induction a as [|c a IH]; simpl; [reflexivity | now rewrite IH]. Qed.

Section BatchFacts.
Variable ArrayBuffer : Type.
Variable arrayBuffer : File.t -> result ArrayBuffer.
Variable getDocument : ArrayBuffer -> result PDFDocument.
Variable loadAsync : File.t -> result JSZip.
Variable readAsDataURL : File.t -> option string.

Let pdf_text := extractPdfText ArrayBuffer arrayBuffer getDocument.
Let step :=
  file_step ArrayBuffer arrayBuffer getDocument loadAsync readAsDataURL.
Let outcome :=
  file_result ArrayBuffer arrayBuffer getDocument loadAsync readAsDataURL.
Let results :=
  outcomes ArrayBuffer arrayBuffer getDocument loadAsync readAsDataURL.
Let finishes :=
  completes ArrayBuffer arrayBuffer getDocument loadAsync readAsDataURL.
Let handle :=
  handleFileChange ArrayBuffer arrayBuffer getDocument loadAsync
    readAsDataURL.

(** X7. When every image of two selections can be read, making them one
    after the other leaves the same files as one selection of both batches
    together.  In any case only the second call's error is left: a message
    of the first call is cleared by the second, even when the second has
    no failure. *)
Theorem two_batches (a b : list File.t) (st : AppState) :
  (Forall (fun file =>
             Str.startsWith (File.type file) "image/" = true ->
             readAsDataURL file <> None) (a ++ b) ->
   files (handle b (handle a st)) = files (handle (a ++ b) st))
  /\ error (handle b (handle a st)) = error (handle b st).
Proof.
  unfold handle. rewrite !handle_outcomes. cbn [files error].
  split; [|reflexivity].
  intros Hread.
  pose proof (finishes_when_read ArrayBuffer arrayBuffer getDocument loadAsync
                readAsDataURL _ Hread) as Hfin.
  rewrite Hfin. rewrite finishes_app in Hfin.
  apply andb_true_iff in Hfin. destruct Hfin as [Ha Hb].
  rewrite Ha, Hb, results_app, Ha.
  now rewrite records_app, List.app_assoc.
Qed.


(** X9. The PDF extension is recognised in any letter case: a file that
    is not an image, is within the size limit and whose name ends with an
    extension that lower-cases to [.pdf] is extracted as a PDF. *)
Theorem pdf_extension_any_case (file : File.t) (base ext text : string)
    (nf : list UploadedFile) (st : AppState) :
  File.name file = base ^^ ext ->
  Str.toLowerCase ext = ".pdf" ->
  File.size file <= MAX_FILE_SIZE ->
  Str.startsWith (File.type file) "image/" = false ->
  pdf_text file = Ok text ->
  step (nf, st) file
    = Some (nf ++ [ {| name := File.name file; type := "application/pdf";
                       data := text; preview := None |} ], st).
Proof.
  intros Hname Hext Hsize Himg Htext. unfold step, file_step, dispatch.
  destruct (Z.gtb_spec (File.size file) MAX_FILE_SIZE) as [H|_]; [lia|].
  rewrite Himg, Hname, toLowerCase_append, Hext, endsWith_append.
  cbn [orb]. rewrite <- Hname. fold pdf_text. now rewrite Htext.
Qed.

(** X10. A presentation is recognised by its name only: a file that
    declares the presentation type but whose name ends neither with [.pdf]
    nor with [.pptx] is rejected as unsupported, and gives no record. *)
Theorem pptx_type_alone_unsupported (file : File.t)
    (nf : list UploadedFile) (st : AppState) :
  File.type file
    = "application/vnd.openxmlformats-officedocument.presentationml.presentation" ->
  File.size file <= MAX_FILE_SIZE ->
  Str.endsWith (Str.toLowerCase (File.name file)) ".pdf" = false ->
  Str.endsWith (Str.toLowerCase (File.name file)) ".pptx" = false ->
  step (nf, st) file
    = Some (nf,
            setError (Some ("Unsupported file type: " ^^ File.name file)) st).
Proof.
  intros Htype Hsize Hpdf Hpptx. unfold step, file_step, dispatch.
  destruct (Z.gtb_spec (File.size file) MAX_FILE_SIZE) as [H|_]; [lia|].
  rewrite Htype, Hpdf, Hpptx. reflexivity.
Qed.
End BatchFacts.

Lemma two_batches_witness :
  files (Sample.handleFileChange [Sample.photo]
           (Sample.handleFileChange [Sample.notes; Sample.paper]
              Sample.start))
  = files (Sample.handleFileChange [Sample.notes; Sample.paper; Sample.photo]
             Sample.start).
Proof.
  refine (proj1 (two_batches string Sample.arrayBuffer Sample.getDocument
                   Sample.loadAsync Sample.readAsDataURL
                   [Sample.notes; Sample.paper] [Sample.photo]
                   Sample.start) _).
  repeat constructor; intros _ H; vm_compute in H; discriminate H.
Defined.

(** With an image whose read never completes the two differ: the
    document of the first call stays, that of the single call is not
    added. *)
Example two_batches_pending :
  files (Sample.handleFileChange [Sample.gone]
           (Sample.handleFileChange [Sample.paper] Sample.start))
  <> files (Sample.handleFileChange [Sample.paper; Sample.gone]
              Sample.start).
Proof. vm_compute. discriminate. Qed.


(** A batch that stays pending leaves no error and no record. *)
Example pending_without_error :
  Sample.handleFileChange [Sample.gone] Sample.start = Sample.start.
Proof. reflexivity. Qed.

Lemma pdf_extension_any_case_witness :
  file_step string Sample.arrayBuffer
    (fun _ => Ok (mkPdf [Ok [mkItem "Alpha" 72 700 None]]))
    Sample.loadAsync Sample.readAsDataURL ([], Sample.start)
    (File.make "Thesis.PDF" "application/octet-stream" 4096)
  = Some ([ {| name := "Thesis.PDF"; type := "application/pdf";
               data := "--- Page 1 ---" ^^ LF ^^ "Alpha" ^^ LF ^^ LF ^^ LF;
               preview := None |} ], Sample.start).
Proof.
  exact (pdf_extension_any_case string Sample.arrayBuffer
           (fun _ => Ok (mkPdf [Ok [mkItem "Alpha" 72 700 None]]))
           Sample.loadAsync Sample.readAsDataURL
           (File.make "Thesis.PDF" "application/octet-stream" 4096)
           "Thesis" ".PDF"
           ("--- Page 1 ---" ^^ LF ^^ "Alpha" ^^ LF ^^ LF ^^ LF)
           [] Sample.start eq_refl eq_refl ltac:(discriminate) eq_refl
           eq_refl).
Defined.

Lemma pptx_type_alone_unsupported_witness :
  file_step string Sample.arrayBuffer Sample.getDocument Sample.loadAsync
    Sample.readAsDataURL ([], Sample.start)
    (File.make "deck.ppt" pptx_mime 2048)
  = Some ([], setError (Some "Unsupported file type: deck.ppt") Sample.start).
Proof.
  exact (pptx_type_alone_unsupported string Sample.arrayBuffer
           Sample.getDocument Sample.loadAsync Sample.readAsDataURL
           (File.make "deck.ppt" pptx_mime 2048) [] Sample.start
           eq_refl ltac:(discriminate) eq_refl eq_refl).
Defined.

(** ** The file list and its selection *)

Lemma filter_index_from_ext {A} (f g : nat -> bool) (k : nat) (xs : list A) :
  (forall i, (k <= i)%nat -> f i = g i) ->
  filter_index_from f k xs = filter_index_from g k xs.
Proof.
  revert k. induction xs as [|x xs IH]; intros k H; [reflexivity|].
  cbn [filter_index_from]. rewrite (H k (Nat.le_refl k)).
  rewrite (IH (S k)); [reflexivity|]. intros i Hi. apply H. lia.
Qed.

Lemma filter_index_from_all {A} (f : nat -> bool) (k : nat) (xs : list A) :
  (forall i, (k <= i < k + List.length xs)%nat -> f i = true) ->
  filter_index_from f k xs = xs.
Proof.
  revert k. induction xs as [|x xs IH]; intros k H; [reflexivity|].
  cbn [filter_index_from List.length] in *.
  rewrite (H k) by lia. f_equal. apply IH. intros i Hi. apply H. lia.
Qed.

Lemma filter_index_from_remove {A} (k index : nat) (xs : list A) :
  filter_index_from (fun i => negb (i =? k + index)%nat) k xs
    = List.firstn index xs ++ List.skipn (S index) xs.
Proof.
  revert k index. induction xs as [|x xs IH]; intros k index.
  - now destruct index.
  - cbn [filter_index_from]. destruct index as [|n].
    + rewrite Nat.add_0_r, Nat.eqb_refl. cbn [negb List.firstn List.skipn
                                                  List.app].
      apply filter_index_from_all. intros i Hi.
      apply negb_true_iff, Nat.eqb_neq. lia.
    + destruct (Nat.eqb_spec k (k + S n)) as [E|_]; [lia|].
      change (List.skipn (S (S n)) (x :: xs)) with (List.skipn (S n) xs).
      cbn [negb List.firstn List.app]. f_equal.
      rewrite <- (IH (S k) n). apply filter_index_from_ext.
      intros i _. now rewrite Nat.add_succ_comm.
Qed.

Lemma Set_has_delete (s : NumSet) (i j : nat) :
  Set_has (Set_delete s i) j = Set_has s j && negb (j =? i)%nat.
Proof.
  unfold Set_has, Set_delete. induction s as [|x s IH]; [reflexivity|].
  cbn [List.filter List.existsb].
  destruct (Nat.eqb_spec x i) as [->|Hx]; cbn [negb List.existsb].
  - rewrite IH. destruct (Nat.eqb_spec j i); cbn [negb orb].
    + now rewrite !andb_false_r.
    + reflexivity.
  - rewrite IH. destruct (Nat.eqb_spec j x) as [->|Hj]; cbn [orb];
      [|reflexivity].
    destruct (Nat.eqb_spec x i); [contradiction | reflexivity].
Qed.

Lemma Set_has_add (s : NumSet) (i j : nat) :
  Set_has (Set_add s i) j = Set_has s j || (j =? i)%nat.
Proof.
  unfold Set_add. destruct (Set_has s i) eqn:E.
  - destruct (Nat.eqb_spec j i) as [->|_];
      [now rewrite E | now rewrite orb_false_r].
  - unfold Set_has. rewrite List.existsb_app. cbn [List.existsb].
    now rewrite orb_false_r.
Qed.

Lemma Set_has_fold_add (values : list nat) (s : NumSet) (j : nat) :
  Set_has (List.fold_left Set_add values s) j
    = Set_has s j || List.existsb (Nat.eqb j) values.
Proof.
  revert s. induction values as [|v values IH]; intros s.
  - simpl. now rewrite orb_false_r.
  - cbn [List.fold_left List.existsb]. rewrite IH, Set_has_add.
    now rewrite orb_assoc.
Qed.

Lemma existsb_seq (j k n : nat) :
  List.existsb (Nat.eqb j) (List.seq k n) = ((k <=? j) && (j <? k + n))%nat.
Proof.
  revert k. induction n as [|n IH]; intros k.
  - simpl. destruct (Nat.leb_spec k j), (Nat.ltb_spec j (k + 0));
      try reflexivity; lia.
  - cbn [List.seq List.existsb]. rewrite IH.
    destruct (Nat.eqb_spec j k), (Nat.leb_spec k j), (Nat.leb_spec (S k) j),
      (Nat.ltb_spec j (S k + n)), (Nat.ltb_spec j (k + S n));
      try reflexivity; lia.
Qed.

Lemma Set_has_perm (s s' : NumSet) (j : nat) :
  Permutation s s' -> Set_has s j = Set_has s' j.
Proof.
  unfold Set_has. induction 1 as [|x s s' _ IH|x y s|s s' s'' _ IH1 _ IH2];
    cbn [List.existsb].
  - reflexivity.
  - now rewrite IH.
  - now rewrite !orb_assoc, (orb_comm (j =? y)%nat).
  - now rewrite IH1.
Qed.

(** X11. Removing a file takes out the file at that position and keeps
    the others in order; a position behind the end changes nothing. *)
Theorem removeFile_position (index : nat) (st : Selection.t) :
  let before := Selection.files st in
  let after := Selection.files (Selection.removeFile index st) in
  after = List.firstn index before ++ List.skipn (S index) before
  /\ ((index < List.length before)%nat ->
      S (List.length after) = List.length before)
  /\ ((List.length before <= index)%nat -> after = before).
Proof.
  cbv zeta. cbn [Selection.removeFile Selection.files]. unfold filter_index.
  rewrite (filter_index_from_remove 0 index). split; [reflexivity|]. split.
  - intros H. rewrite List.length_app, List.length_firstn, List.length_skipn.
    lia.
  - intros H. rewrite List.firstn_all2, List.skipn_all2 by lia.
    apply List.app_nil_r.
Qed.

Lemma removeFile_position_witness :
  let st :=
    Selection.make [ mkUploaded "a.pdf" pdf_mime "A" None;
                     mkUploaded "b.pdf" pdf_mime "B" None;
                     mkUploaded "c.pdf" pdf_mime "C" None ] [] in
  S (List.length (Selection.files (Selection.removeFile 1 st))) = 3%nat
  /\ Selection.files (Selection.removeFile 7 st) = Selection.files st.
Proof.
  cbv zeta. split.
  - refine (proj1 (proj2 (removeFile_position 1 _)) _). cbn. lia.
  - refine (proj2 (proj2 (removeFile_position 7 _)) _). cbn. lia.
Defined.

(** X12. Removing a file does not renumber the selection: every other
    index keeps its selection state, while the files from the removed
    position on move one place down, so that a selected index behind the
    removed one now stands for the following file. *)
Theorem removeFile_selection_not_shifted (index : nat) (st : Selection.t) :
  (forall j, j <> index ->
     Set_has (Selection.selectedFileIndices (Selection.removeFile index st)) j
       = Set_has (Selection.selectedFileIndices st) j)
  /\ Set_has (Selection.selectedFileIndices (Selection.removeFile index st))
             index = false
  /\ (forall j, (index <= j)%nat ->
        nth_error (Selection.files (Selection.removeFile index st)) j
          = nth_error (Selection.files st) (S j))
  /\ (forall j, (j < index)%nat ->
        nth_error (Selection.files (Selection.removeFile index st)) j
          = nth_error (Selection.files st) j).
Proof.
  cbn [Selection.removeFile Selection.files Selection.selectedFileIndices].
  unfold filter_index. rewrite (filter_index_from_remove 0 index).
  split; [|split; [|split]].
  - intros j Hj. rewrite Set_has_delete.
    apply Nat.eqb_neq in Hj. rewrite Hj. apply andb_true_r.
  - rewrite Set_has_delete, Nat.eqb_refl. apply andb_false_r.
  - intros j Hj. set (xs := Selection.files st).
    destruct (Nat.le_gt_cases (List.length xs) index) as [Hlen|Hlen].
    + rewrite List.firstn_all2, List.skipn_all2, List.app_nil_r by lia.
      rewrite (proj2 (nth_error_None xs j)) by lia.
      now rewrite (proj2 (nth_error_None xs (S j))) by lia.
    + rewrite nth_error_app2; rewrite List.length_firstn; [|lia].
      rewrite Nat.min_l by lia. rewrite List.nth_error_skipn.
      f_equal. lia.
  - intros j Hj. set (xs := Selection.files st).
    destruct (Nat.le_gt_cases (List.length xs) j) as [Hlen|Hlen].
    + rewrite List.firstn_all2, List.skipn_all2, List.app_nil_r by lia.
      reflexivity.
    + rewrite nth_error_app1 by (rewrite List.length_firstn; lia).
      now rewrite List.nth_error_firstn, (proj2 (Nat.ltb_lt j index) Hj).
Qed.

(** X13. A toggle flips the selection state of its index and of no
    other, and leaves the files alone; toggling the same index twice gives
    back the selection states of all indices. *)
Theorem toggleFileSelection_flips (index : nat) (st : Selection.t) :
  let toggled := Selection.toggleFileSelection index st in
  Selection.files toggled = Selection.files st
  /\ (forall j,
        Set_has (Selection.selectedFileIndices toggled) j
          = if (j =? index)%nat
            then negb (Set_has (Selection.selectedFileIndices st) j)
            else Set_has (Selection.selectedFileIndices st) j)
  /\ (forall j,
        Set_has (Selection.selectedFileIndices
                   (Selection.toggleFileSelection index toggled)) j
          = Set_has (Selection.selectedFileIndices st) j).
Proof.
  assert (F : forall s j,
             Set_has (if Set_has s index then Set_delete s index
                      else Set_add s index) j
             = if (j =? index)%nat then negb (Set_has s j) else Set_has s j).
  { intros s j. destruct (Set_has s index) eqn:E.
    - rewrite Set_has_delete.
      destruct (Nat.eqb_spec j index) as [->|_]; cbn [negb].
      + now rewrite E.
      + apply andb_true_r.
    - rewrite Set_has_add.
      destruct (Nat.eqb_spec j index) as [->|_].
      + now rewrite E.
      + apply orb_false_r. }
  cbv zeta. split; [reflexivity|]. split.
  - intros j. apply F.
  - intros j.
    cbn [Selection.toggleFileSelection Selection.selectedFileIndices].
    rewrite F, F. destruct (j =? index)%nat; [apply negb_involutive|].
    reflexivity.
Qed.

(** X14. After "select all" the selection holds exactly the positions of
    the file list, and the selected files are all files, in order. *)
Theorem selectAllFiles_selects_all (st : Selection.t) :
  let all := Selection.selectAllFiles st in
  (forall j, Set_has (Selection.selectedFileIndices all) j
             = (j <? List.length (Selection.files st))%nat)
  /\ Selection.selectedFiles all = Selection.files st.
Proof.
  cbv zeta.
  assert (H : forall j,
             Set_has (Selection.selectedFileIndices
                        (Selection.selectAllFiles st)) j
             = (j <? List.length (Selection.files st))%nat).
  { intros j. cbn [Selection.selectAllFiles Selection.selectedFileIndices].
    unfold Set_from. rewrite Set_has_fold_add, existsb_seq. reflexivity. }
  split; [exact H|].
  unfold Selection.selectedFiles, filter_index.
  apply filter_index_from_all. intros i Hi. rewrite H.
  apply Nat.ltb_lt. cbn [Selection.selectAllFiles Selection.files] in Hi. lia.
Qed.

(** X15. The selected files come in the order of the file list, whatever
    the order in which they were ticked: two selections with the same
    indices give the same files. *)
Theorem selectedFiles_in_file_order (files : list UploadedFile)
    (s s' : NumSet) :
  Permutation s s' ->
  Selection.selectedFiles (Selection.make files s)
    = Selection.selectedFiles (Selection.make files s').
Proof.
  intros H. unfold Selection.selectedFiles, filter_index.
  cbn [Selection.files Selection.selectedFileIndices].
  apply filter_index_from_ext. intros i _. now apply Set_has_perm.
Qed.

Lemma selectedFiles_in_file_order_witness :
  let files := [ mkUploaded "a.pdf" pdf_mime "A" None;
                 mkUploaded "b.pdf" pdf_mime "B" None;
                 mkUploaded "c.pdf" pdf_mime "C" None ] in
  Selection.selectedFiles (Selection.make files [2; 0]%nat)
    = Selection.selectedFiles (Selection.make files [0; 2]%nat).
Proof.
  cbv zeta. apply selectedFiles_in_file_order. apply perm_swap.
Defined.

(** ** The saved analyses *)

Lemma substring_0_length (n : nat) (s : string) :
  String.length (String.substring 0 n s) = Nat.min n (String.length s).
Proof.
  revert s. induction n as [|n IH]; intros s.
  - now destruct s.
  - destruct s as [|c s]; [reflexivity|]. simpl. now rewrite IH.
Qed.

Lemma substring_0_prefix (n : nat) (s : string) :
  String.prefix (String.substring 0 n s) s = true.
Proof.
  revert s. induction n as [|n IH]; intros s.
  - destruct s; reflexivity.
  - destruct s as [|c s]; [reflexivity|]. simpl.
    destruct (ascii_dec c c); [apply IH | congruence].
Qed.

Lemma substring_0_all (n : nat) (s : string) :
  (String.length s <= n)%nat -> String.substring 0 n s = s.
Proof.
  revert s. induction n as [|n IH]; intros s H.
  - destruct s; [reflexivity | simpl in H; lia].
  - destruct s as [|c s]; [reflexivity|]. simpl in *.
    rewrite IH; [reflexivity | lia].
Qed.

Lemma substring_0_append (a b : string) :
  String.substring 0 (String.length a) (a ^^ b) = a.
Proof.
  induction a as [|c a IH]; simpl; [now destruct b | now rewrite IH].
Qed.

Section HistoryFacts.
Variable AnalysisResult : Type.
Variable stringify : list (History.SavedAnalysis AnalysisResult) -> string.

Let save := History.saveToHistory AnalysisResult stringify.
Let delete := History.deleteFromHistory AnalysisResult stringify.

(** X16. Saving an analysis under an identifier that no saved entry has
    and then deleting that identifier gives back the history as it was,
    in the state and in the store. *)
Theorem delete_after_save (r : AnalysisResult) (inputText uuid : string)
    (now : Z) (localeDate : string) (st : History.t AnalysisResult) :
  Forall (fun h => History.id _ h <> uuid) (History.savedHistory _ st) ->
  let st' := delete uuid (save (Some r) inputText uuid now localeDate st) in
  History.savedHistory _ st' = History.savedHistory _ st
  /\ History.stored _ st' = Some (stringify (History.savedHistory _ st)).
Proof.
  intros Hfresh.
  assert (E : List.filter
                (fun h => negb (History.id _ h =? uuid)%string)
                (History.savedHistory _ st)
              = History.savedHistory _ st).
  { induction Hfresh as [|h hs Hh _ IH]; [reflexivity|].
    cbn [List.filter]. apply String.eqb_neq in Hh. rewrite Hh.
    cbn [negb]. now rewrite IH. }
  cbv zeta. unfold delete, save, History.deleteFromHistory,
    History.saveToHistory.
  cbn [History.savedHistory History.stored List.filter History.id].
  rewrite String.eqb_refl. cbn [negb]. rewrite E. now split.
Qed.

(** X17. Deleting an identifier removes every saved entry that has it,
    also when several do, and keeps the other entries in their order: what
    is kept is the history with some entries left out, those left out are
    the entries with that identifier, and none of them is kept.  When no
    entry has it, the history stays as it is. *)
Theorem deleteFromHistory_by_id (target : string)
    (st : History.t AnalysisResult) :
  let kept := History.savedHistory _ (delete target st) in
  (forall h, In h kept
             <-> In h (History.savedHistory _ st)
                 /\ History.id _ h <> target)
  /\ subsequence kept (History.savedHistory _ st)
  /\ (exists gone,
        Permutation (History.savedHistory _ st) (kept ++ gone)
        /\ Forall (fun h => History.id _ h = target) gone)
  /\ (forall before h after,
        History.savedHistory _ st = before ++ h :: after ->
        kept
        = History.savedHistory _
            (delete target (History.make _ before None))
          ++ (if (History.id _ h =? target)%string then [] else [h])
          ++ History.savedHistory _
               (delete target (History.make _ after None)))
  /\ (Forall (fun h => History.id _ h <> target) (History.savedHistory _ st)
      -> kept = History.savedHistory _ st).
Proof.
  cbv zeta. unfold delete, History.deleteFromHistory.
  cbn [History.savedHistory]. set (hs := History.savedHistory _ st).
  split; [|split; [|split; [|split]]].
  - intros h. rewrite List.filter_In, negb_true_iff, String.eqb_neq.
    reflexivity.
  - clear. induction hs as [|h hs IH]; [constructor|].
    cbn [List.filter]. destruct (History.id _ h =? target)%string;
      cbn [negb]; now constructor.
  - exists (List.filter (fun h => (History.id _ h =? target)%string) hs).
    split.
    + clear. induction hs as [|h hs IH]; [reflexivity|].
      cbn [List.filter]. destruct (History.id _ h =? target)%string;
        cbn [negb List.app].
      * rewrite IH at 1. apply Permutation_middle.
      * now constructor.
    + apply Forall_forall. intros h Hh. apply List.filter_In in Hh.
      now apply String.eqb_eq.
  - intros before h after ->. rewrite List.filter_app. cbn [List.filter].
    now destruct (History.id _ h =? target)%string.
  - intros H. induction H as [|h hs' Hh _ IH]; [reflexivity|].
    cbn [List.filter]. apply String.eqb_neq in Hh. rewrite Hh.
    cbn [negb]. now rewrite IH.
Qed.

(** X18. The title of a saved analysis is the first 40 code units of the
    input text: the whole text when it has no more than 40, and otherwise
    the part [head] of 40 code units with which it begins; without input
    text it is "Research Session " followed by the date. *)
Theorem saved_title (inputText localeDate : string) :
  let title := History.title_of inputText localeDate in
  (inputText = EmptyString -> title = "Research Session " ^^ localeDate)
  /\ (inputText <> EmptyString ->
      (String.length title <= 40)%nat
      /\ String.prefix title inputText = true
      /\ ((String.length inputText <= 40)%nat -> title = inputText)
      /\ String.length title = Nat.min 40 (String.length inputText)
      /\ (forall head rest,
            inputText = head ^^ rest -> String.length head = 40%nat ->
            title = head)).
Proof.
  cbv zeta. unfold History.title_of. split.
  - intros ->. reflexivity.
  - intros Hne. destruct inputText as [|c s]; [congruence|].
    change (String.substring 0 40 (String c s))
      with (String c (String.substring 0 39 s)).
    cbn [String.eqb].
    change (String c (String.substring 0 39 s))
      with (String.substring 0 40 (String c s)).
    split; [|split; [|split; [|split]]].
    + rewrite substring_0_length. lia.
    + apply substring_0_prefix.
    + intros H. now apply substring_0_all.
    + apply substring_0_length.
    + intros head rest E Hlen. rewrite E, <- Hlen.
      apply substring_0_append.
Qed.
End HistoryFacts.

Lemma deleteFromHistory_by_id_witness :
  let entry := fun id => History.mkSaved nat id 1700000000000 "Title" 0%nat in
  let st := History.make nat [entry "a"; entry "b"; entry "a"; entry "c"] None in
  History.savedHistory _ (History.deleteFromHistory nat (fun _ => "[]") "a" st)
    = [entry "b"; entry "c"]
  /\ History.savedHistory _
       (History.deleteFromHistory nat (fun _ => "[]") "z" st)
     = [entry "a"; entry "b"; entry "a"; entry "c"].
Proof.
  cbv zeta. split.
  - destruct (deleteFromHistory_by_id nat (fun _ => "[]") "a"
                (History.make nat
                   [ History.mkSaved nat "a" 1700000000000 "Title" 0%nat;
                     History.mkSaved nat "b" 1700000000000 "Title" 0%nat;
                     History.mkSaved nat "a" 1700000000000 "Title" 0%nat;
                     History.mkSaved nat "c" 1700000000000 "Title" 0%nat ]
                   None)) as (_ & _ & _ & Hsplit & _).
    exact (Hsplit [ History.mkSaved nat "a" 1700000000000 "Title" 0%nat;
                    History.mkSaved nat "b" 1700000000000 "Title" 0%nat ]
                  (History.mkSaved nat "a" 1700000000000 "Title" 0%nat)
                  [ History.mkSaved nat "c" 1700000000000 "Title" 0%nat ]
                  eq_refl).
  - destruct (deleteFromHistory_by_id nat (fun _ => "[]") "z"
                (History.make nat
                   [ History.mkSaved nat "a" 1700000000000 "Title" 0%nat;
                     History.mkSaved nat "b" 1700000000000 "Title" 0%nat;
                     History.mkSaved nat "a" 1700000000000 "Title" 0%nat;
                     History.mkSaved nat "c" 1700000000000 "Title" 0%nat ]
                   None)) as (_ & _ & _ & _ & Hsame).
    apply Hsame. repeat constructor; discriminate.
Defined.

Lemma saved_title_witness :
  History.title_of
    "Sparse attention in small language models: a survey of methods"
    "1/2/2026"
  = "Sparse attention in small language model"
  /\ History.title_of "Dense retrieval" "1/2/2026" = "Dense retrieval"
  /\ History.title_of EmptyString "1/2/2026" = "Research Session 1/2/2026".
Proof.
  split; [|split].
  - destruct (saved_title
                "Sparse attention in small language models: a survey of methods"
                "1/2/2026") as [_ H].
    destruct (H ltac:(discriminate)) as (_ & _ & _ & _ & Hhead).
    exact (Hhead "Sparse attention in small language model"
                 "s: a survey of methods" eq_refl eq_refl).
  - destruct (saved_title "Dense retrieval" "1/2/2026") as [_ H].
    destruct (H ltac:(discriminate)) as (_ & _ & Hall & _).
    apply Hall. cbn. lia.
  - destruct (saved_title EmptyString "1/2/2026") as [H _].
    exact (H eq_refl).
Defined.

Lemma delete_after_save_witness :
  History.savedHistory _
    (History.deleteFromHistory nat (fun _ => "[]") "id-2"
       (History.saveToHistory nat (fun _ => "[]") (Some 7%nat)
          "Sparse attention in small models" "id-2" 1700000000000 "1/2/2026"
          (History.make nat
             [History.mkSaved nat "id-1" 1600000000000 "First" 3%nat] None)))
  = [History.mkSaved nat "id-1" 1600000000000 "First" 3%nat].
Proof.
  refine (proj1 (delete_after_save nat (fun _ => "[]") 7%nat
                   "Sparse attention in small models" "id-2" 1700000000000
                   "1/2/2026"
                   (History.make nat
                      [History.mkSaved nat "id-1" 1600000000000 "First" 3%nat]
                      None) _)).
  constructor; [discriminate | constructor].
Defined.

(** ** The filtered gaps *)

Lemma GapType_eqb_eq (a b : GapType) : GapType_eqb a b = true <-> a = b.
Proof. destruct a, b; simpl; split; congruence. Qed.

Lemma Impact_eqb_eq (a b : Impact) : Impact_eqb a b = true <-> a = b.
Proof. destruct a, b; simpl; split; congruence. Qed.

Lemma filter_all_true {A} (f : A -> bool) (l : list A) :
  (forall x, f x = true) -> List.filter f l = l.
Proof.
  intros H. induction l as [|x l IH]; [reflexivity|].
  cbn [List.filter]. now rewrite H, IH.
Qed.

Lemma filter_filter_and {A} (p q : A -> bool) (l : list A) :
  List.filter q (List.filter p l) = List.filter (fun x => p x && q x) l.
Proof.
  induction l as [|x l IH]; [reflexivity|].
  cbn [List.filter]. destruct (p x); cbn [andb List.filter].
  - destruct (q x); now rewrite IH.
  - exact IH.
Qed.

(** X19. With both filters on "All" every gap is shown; a gap is shown
    exactly when it passes both filters, so filtering by type and then by
    impact is filtering by both at once; without a result nothing is
    shown. *)
Theorem filteredGaps_filters (gaps : list Gap.t)
    (filterType : Filter GapType) (filterImpact : Filter Impact) :
  filteredGaps (Some gaps) All All = gaps
  /\ (forall g,
        In g (filteredGaps (Some gaps) filterType filterImpact)
        <-> In g gaps
            /\ match filterType with
               | All => True
               | Only t => Gap.type g = t
               end
            /\ match filterImpact with
               | All => True
               | Only i => Gap.potentialImpact g = i
               end)
  /\ filteredGaps (Some (filteredGaps (Some gaps) filterType All))
                  All filterImpact
     = filteredGaps (Some gaps) filterType filterImpact
  /\ filteredGaps None filterType filterImpact = [].
Proof.
  split; [|split; [|split; [|reflexivity]]].
  - cbn [filteredGaps]. now apply filter_all_true.
  - intros g. cbn [filteredGaps]. rewrite List.filter_In, andb_true_iff.
    destruct filterType as [|t], filterImpact as [|i];
      rewrite ?GapType_eqb_eq, ?Impact_eqb_eq; intuition.
  - cbn [filteredGaps]. rewrite filter_filter_and.
    apply List.filter_ext. intros g.
    now rewrite andb_true_r.
Qed.

(** ** The CSV export of the gaps *)

Lemma escape_quote_inj (s t : string) :
  Csv.escape s ^^ DQ = Csv.escape t ^^ DQ -> s = t.
Proof.
  revert t. induction s as [|c s IH]; intros t H.
  - destruct t as [|d t]; [reflexivity|]. cbn in H.
    destruct (Ascii.eqb d "034"); cbn in H.
    + injection H as _ H. discriminate.
    + injection H as Hd H. destruct (Csv.escape t); discriminate.
  - cbn [Csv.escape] in H. destruct t as [|d t].
    + cbn in H. destruct (Ascii.eqb c "034"); cbn in H.
      * injection H as _ H. discriminate.
      * injection H as _ H. destruct (Csv.escape s); discriminate.
    + cbn [Csv.escape] in H.
      destruct (Ascii.eqb_spec c "034") as [->|Hc],
               (Ascii.eqb_spec d "034") as [->|Hd]; cbn in H.
      * injection H as H. f_equal. now apply IH.
      * injection H as Hd' _. congruence.
      * injection H as Hc' _. congruence.
      * injection H as -> H. f_equal. now apply IH.
Qed.

(** X20. Quoting a text for the CSV loses nothing: two texts that give the
    same quoted field are the same text. *)
Theorem csv_quote_injective (s t : string) :
  Csv.quote s = Csv.quote t -> s = t.
Proof.
  unfold Csv.quote. intros H. cbn in H. injection H as H.
  now apply escape_quote_inj.
Qed.

Lemma csv_quote_injective_witness :
  "a, b" = "a, b".
Proof. exact (csv_quote_injective "a, b" "a, b" eq_refl). Defined.

Lemma line_feeds_append (a b : string) :
  line_feeds (a ^^ b) = (line_feeds a + line_feeds b)%nat.
Proof. induction a as [|c a IH]; simpl; [reflexivity | rewrite IH; lia]. Qed.

Lemma line_feeds_escape (s : string) :
  line_feeds (Csv.escape s) = line_feeds s.
Proof.
  induction s as [|c s IH]; [reflexivity|]. cbn [Csv.escape].
  destruct (Ascii.eqb_spec c "034") as [->|_]; cbn [line_feeds].
  - cbn. exact IH.
  - now rewrite IH.
Qed.

Lemma line_feeds_quote (s : string) :
  line_feeds (Csv.quote s) = line_feeds s.
Proof.
  unfold Csv.quote. rewrite !line_feeds_append, line_feeds_escape.
  cbn. lia.
Qed.

Lemma line_feeds_join (sep : string) (xs : list string) :
  line_feeds sep = 0%nat ->
  Forall (fun x => line_feeds x = 0%nat) xs ->
  line_feeds (Str.join sep xs) = 0%nat.
Proof.
  intros Hsep H. unfold Str.join. induction H as [|x xs Hx _ IH];
    [reflexivity|].
  cbn [String.concat]. destruct xs as [|y xs]; [exact Hx|].
  rewrite !line_feeds_append, Hx, Hsep. exact IH.
Qed.

Lemma line_feeds_join_lines (xs : list string) :
  Forall (fun x => line_feeds x = 0%nat) xs ->
  line_feeds (Str.join LF xs) = Nat.pred (List.length xs).
Proof.
  unfold Str.join. induction 1 as [|x xs Hx H IH]; [reflexivity|].
  cbn [String.concat]. destruct xs as [|y xs]; [exact Hx|].
  rewrite !line_feeds_append, Hx, IH. cbn. reflexivity.
Qed.

Lemma line_feeds_row (g : Gap.t) :
  single_line g -> line_feeds (Str.join "," (Csv.row g)) = 0%nat.
Proof.
  intros (Hid & Ht & Hd & Hj & Hm). apply line_feeds_join; [reflexivity|].
  unfold Csv.row. repeat constructor; rewrite ?line_feeds_quote; trivial.
  - now destruct (Gap.type g).
  - now destruct (Gap.potentialImpact g).
  - now apply line_feeds_join.
Qed.

(** X21. When no identifier, title, description, justification or
    suggested method of a gap contains a line feed, the exported CSV has
    one line for the headers and one line per gap. *)
Theorem csv_one_line_per_gap (gaps : list Gap.t) :
  Forall (fun g =>
            line_feeds (Gap.id g) = 0%nat
            /\ line_feeds (Gap.title g) = 0%nat
            /\ line_feeds (Gap.description g) = 0%nat
            /\ line_feeds (Gap.justification g) = 0%nat
            /\ Forall (fun m => line_feeds m = 0%nat)
                      (Gap.suggestedMethods g)) gaps ->
  exists content,
    Csv.exportGapsCSV (Some gaps)
      = Some (content, "research_gaps.csv", "text/csv")
    /\ line_feeds content = List.length gaps.
Proof.
  intros H. exists (Csv.content gaps). split; [reflexivity|].
  unfold Csv.content. rewrite line_feeds_join_lines.
  - cbn [List.map List.length Nat.pred]. now rewrite !List.length_map.
  - cbn [List.map]. constructor; [reflexivity|].
    apply Forall_map. apply Forall_map. revert H. apply Forall_impl.
    intros g Hg. now apply line_feeds_row.
Qed.

Lemma csv_one_line_per_gap_witness :
  exists content,
    Csv.exportGapsCSV
      (Some [ Gap.make "g1" "Sparse attention" "No benchmark, so far"
                METHODOLOGICAL "Cited by few" High ["ablation"; "survey"] ])
      = Some (content, "research_gaps.csv", "text/csv")
    /\ line_feeds content = 1%nat.
Proof.
  apply (csv_one_line_per_gap
           [ Gap.make "g1" "Sparse attention" "No benchmark, so far"
               METHODOLOGICAL "Cited by few" High ["ablation"; "survey"] ]).
  repeat constructor.
Defined.

(** ** Related gaps *)

Lemma Related_has_In (s : Related.StrSet) (w : string) :
  Related.has s w = true <-> In w s.
Proof.
  unfold Related.has. rewrite List.existsb_exists. split.
  - intros (x & Hx & E). apply String.eqb_eq in E. now subst.
  - intros H. exists w. split; [exact H | apply String.eqb_refl].
Qed.

Lemma Related_add_In (s : Related.StrSet) (x w : string) :
  In w (Related.add s x) <-> In w s \/ w = x.
Proof.
  unfold Related.add. destruct (Related.has s x) eqn:E.
  - apply Related_has_In in E. split; [now left|].
    intros [H| ->]; assumption.
  - rewrite List.in_app_iff. simpl. intuition.
Qed.

Lemma Related_fold_add_In (ws : list string) (s : Related.StrSet)
    (w : string) :
  In w (List.fold_left Related.add ws s) <-> In w s \/ In w ws.
Proof.
  revert s. induction ws as [|x ws IH]; intros s; simpl.
  - intuition.
  - rewrite IH, Related_add_In. intuition.
Qed.

Lemma Related_from_In (ws : list string) (w : string) :
  In w (Related.from ws) <-> In w ws.
Proof. unfold Related.from. rewrite Related_fold_add_In. simpl. intuition. Qed.

Lemma Related_score_shared (current : Related.StrSet) (g : Gap.t) :
  (0 < Related.score current g)%nat ->
  exists w, In w current /\ In w (Related.getKeywords g).
Proof.
  unfold Related.score. intros H.
  destruct (Related.from
              (List.filter (Related.has (Related.getKeywords g)) current))
    as [|w ws] eqn:E; [simpl in H; lia|].
  assert (Hw : In w (Related.from
                       (List.filter (Related.has (Related.getKeywords g))
                                    current)))
    by (rewrite E; now left).
  apply Related_from_In, List.filter_In in Hw. destruct Hw as [Hc Hh].
  exists w. split; [exact Hc | now apply Related_has_In].
Qed.

Lemma In_firstn {A} (n : nat) (l : list A) (x : A) :
  In x (List.firstn n l) -> In x l.
Proof.
  intros H. rewrite <- (List.firstn_skipn n l). apply List.in_or_app.
  now left.
Qed.

Lemma StronglySorted_app_le {A} (R : A -> A -> Prop) (l1 l2 : list A) :
  StronglySorted R (l1 ++ l2) ->
  StronglySorted R l1
  /\ Forall (fun b => Forall (fun a => R a b) l1) l2.
Proof.
  induction l1 as [|a l1 IH]; cbn [List.app]; intros H.
  - split; [constructor|]. apply Forall_forall. intros; constructor.
  - inversion H as [|? ? Hs Ha]; subst. destruct (IH Hs) as [Hs1 Hall].
    apply Forall_app in Ha. destruct Ha as [Ha1 Ha2].
    split; [now constructor|].
    rewrite Forall_forall in *. intros b Hb. constructor; auto.
Qed.

Lemma scored_candidates_spec (gap : Gap.t) (allGaps : list Gap.t)
    (item : Gap.t * nat) :
  In item (scored_candidates gap allGaps) ->
  In (fst item) allGaps
  /\ Gap.id (fst item) <> Gap.id gap
  /\ snd item = Related.score (Related.getKeywords gap) (fst item)
  /\ (0 < snd item)%nat.
Proof.
  unfold scored_candidates. intros H. apply List.filter_In in H.
  destruct H as [H Hpos]. apply List.in_map_iff in H.
  destruct H as (g & <- & Hg). apply List.filter_In in Hg.
  destruct Hg as [Hg Hid]. cbn [fst snd] in *.
  apply negb_true_iff, String.eqb_neq in Hid. apply Nat.ltb_lt in Hpos.
  repeat split; assumption.
Qed.

Lemma ranked_perm (gap : Gap.t) (allGaps : list Gap.t) :
  Permutation (ranked gap allGaps) (scored_candidates gap allGaps).
Proof. apply sort_by_perm. Qed.

Lemma ranked_sorted (gap : Gap.t) (allGaps : list Gap.t) :
  StronglySorted (fun a b => (snd b <= snd a)%nat) (ranked gap allGaps).
Proof.
  pose proof (sort_by_sorted
                (fun a b : Gap.t * nat => Z.of_nat (snd b) - Z.of_nat (snd a))
                (fun a => - Z.of_nat (snd a))) as H.
  cbv beta in H.
  assert (Hk : forall a b : Gap.t * nat,
             Z.of_nat (snd b) - Z.of_nat (snd a) <= 0
             <-> - Z.of_nat (snd a) <= - Z.of_nat (snd b))
    by (intros; lia).
  specialize (H Hk (scored_candidates gap allGaps)).
  fold (ranked gap allGaps) in H.
  induction H as [|a l _ IH Ha]; constructor; [exact IH|].
  revert Ha. apply Forall_impl. intros b Hb. lia.
Qed.

Lemma relatedGaps_ranked (gap : Gap.t) (allGaps : list Gap.t) :
  (1 < List.length allGaps)%nat ->
  Related.relatedGaps gap allGaps
    = List.map fst (List.firstn 3 (ranked gap allGaps)).
Proof.
  intros H. unfold Related.relatedGaps.
  destruct (Nat.leb_spec (List.length allGaps) 1); [lia | reflexivity].
Qed.

(** X22. A gap card shows at most three related gaps; each of them is one
    of the given gaps, has another identifier than the card's gap and
    shares at least one keyword with it.  When at most one gap is given,
    none is shown. *)
Theorem relatedGaps_sound (gap : Gap.t) (allGaps : list Gap.t) :
  (List.length (Related.relatedGaps gap allGaps) <= 3)%nat
  /\ Forall (fun g =>
       In g allGaps
       /\ Gap.id g <> Gap.id gap
       /\ exists w, In w (Related.getKeywords gap)
                    /\ In w (Related.getKeywords g))
     (Related.relatedGaps gap allGaps)
  /\ ((List.length allGaps <= 1)%nat -> Related.relatedGaps gap allGaps = []).
Proof.
  destruct (Nat.leb_spec (List.length allGaps) 1) as [Hle|Hgt].
  - assert (E : Related.relatedGaps gap allGaps = []).
    { unfold Related.relatedGaps.
      now rewrite (proj2 (Nat.leb_le _ _) Hle). }
    rewrite E. split; [simpl; lia|]. split; [constructor | reflexivity].
  - rewrite (relatedGaps_ranked gap allGaps Hgt).
    split; [|split; [|intros; lia]].
    + rewrite List.length_map, List.length_firstn. lia.
    + apply Forall_map, Forall_forall. intros item Hin.
      apply In_firstn in Hin.
      apply (Permutation_in _ (ranked_perm gap allGaps)) in Hin.
      destruct (scored_candidates_spec gap allGaps item Hin)
        as (Hall & Hid & Hsc & Hpos).
      split; [exact Hall|]. split; [exact Hid|].
      apply Related_score_shared. now rewrite <- Hsc.
Qed.

(** X23. With more than one gap given, the related gaps are the best
    three by number of shared keywords: they come in descending order of
    that number, and every other candidate (a gap with another identifier
    and at least one shared keyword) shares no more keywords than each of
    the gaps shown; candidates are left out only when three are shown. *)
Theorem relatedGaps_best_three (gap : Gap.t) (allGaps : list Gap.t) :
  (1 < List.length allGaps)%nat ->
  let shared := Related.score (Related.getKeywords gap) in
  let shown := Related.relatedGaps gap allGaps in
  StronglySorted (fun a b => (shared b <= shared a)%nat) shown
  /\ exists rest,
       Permutation
         (List.filter
            (fun g => negb (Gap.id g =? Gap.id gap)%string
                      && (0 <? shared g)%nat) allGaps)
         (shown ++ rest)
       /\ Forall (fun g => Forall (fun r => (shared g <= shared r)%nat) shown)
                 rest
       /\ (rest <> [] -> List.length shown = 3%nat).
Proof.
  intros Hgt shared shown. subst shown.
  rewrite (relatedGaps_ranked gap allGaps Hgt).
  set (L := ranked gap allGaps).
  assert (Hsc : Forall (fun item => snd item = shared (fst item)) L).
  { apply Forall_forall. intros item Hin.
    apply (Permutation_in _ (ranked_perm gap allGaps)) in Hin.
    now destruct (scored_candidates_spec gap allGaps item Hin)
      as (_ & _ & ? & _). }
  assert (Hsorted : StronglySorted
                      (fun a b => (shared (fst b) <= shared (fst a))%nat) L).
  { pose proof (ranked_sorted gap allGaps) as Hs. fold L in Hs.
    induction Hs as [|a l Hs IH Ha]; constructor.
    - apply IH. now inversion Hsc.
    - inversion Hsc as [|? ? Ea Hl]; subst.
      rewrite Forall_forall in *. intros b Hb.
      specialize (Ha b Hb). rewrite (Hl b Hb), Ea in Ha. exact Ha. }
  rewrite <- (List.firstn_skipn 3 L) in Hsorted.
  apply StronglySorted_app_le in Hsorted. destruct Hsorted as [Hfirst Hrest].
  split.
  - clear - Hfirst. induction Hfirst as [|a l _ IH Ha]; cbn [List.map];
      constructor; [exact IH|]. now apply Forall_map.
  - exists (List.map fst (List.skipn 3 L)). split; [|split].
    + rewrite <- List.map_app, List.firstn_skipn.
      transitivity (List.map fst (scored_candidates gap allGaps)).
      * unfold scored_candidates.
        rewrite <- filter_filter_and.
        set (others := List.filter _ allGaps).
        unfold shared. clear.
        induction others as [|g gs IH]; [reflexivity|].
        cbn [List.map List.filter snd].
        destruct (0 <? Related.score (Related.getKeywords gap) g)%nat;
          cbn [List.map fst]; [|exact IH].
        now constructor.
      * apply Permutation_map. symmetry. apply ranked_perm.
    + apply Forall_map. revert Hrest. apply Forall_impl. intros b Hb.
      now apply Forall_map.
    + intros Hne. rewrite List.length_map, List.length_firstn.
      destruct (List.skipn 3 L) as [|x xs] eqn:E; [now contradiction Hne|].
      assert (Hlen : List.length (List.skipn 3 L) = S (List.length xs))
        by now rewrite E.
      rewrite List.length_skipn in Hlen. lia.
Qed.

(** ** The analysis request *)

Lemma concat_empty_cons (y : string) (l : list string) :
  String.concat EmptyString (y :: l) = y ^^ String.concat EmptyString l.
Proof. destruct l; simpl; [now rewrite append_nil_r | reflexivity]. Qed.

Lemma concat_middle (l1 l2 : list string) (x : string) :
  String.concat EmptyString (l1 ++ x :: l2)
    = String.concat EmptyString l1 ^^ x ^^ String.concat EmptyString l2.
Proof.
  induction l1 as [|y l1 IH].
  - cbn [List.app]. now rewrite concat_empty_cons.
  - cbn [List.app]. rewrite !concat_empty_cons, IH.
    now rewrite append_assoc.
Qed.

Lemma fold_snoc_map {A B} (f : A -> B) (xs : list A) (acc : list B) :
  List.fold_left (fun parts x => parts ++ [f x]) xs acc
    = acc ++ List.map f xs.
Proof.
  revert acc. induction xs as [|x xs IH]; intros acc; simpl.
  - now rewrite List.app_nil_r.
  - now rewrite IH, <- List.app_assoc.
Qed.

Lemma split_from_no_sep (sep : ascii) (s cur : string) :
  Regex.all_chars (fun c => negb (Ascii.eqb c sep)) s = true ->
  Request.split_from sep s cur = [cur ^^ s].
Proof.
  revert cur. induction s as [|c s IH]; intros cur H.
  - simpl. now rewrite append_nil_r.
  - cbn [Regex.all_chars] in H. apply andb_true_iff in H.
    destruct H as [Hc Hs]. apply negb_true_iff in Hc.
    cbn [Request.split_from]. rewrite Hc, (IH _ Hs).
    now rewrite append_assoc.
Qed.

Lemma split_from_head (sep : ascii) (a rest cur : string) :
  Regex.all_chars (fun c => negb (Ascii.eqb c sep)) a = true ->
  Request.split_from sep (a ^^ String sep rest) cur
    = (cur ^^ a) :: Request.split_from sep rest EmptyString.
Proof.
  revert cur. induction a as [|c a IH]; intros cur H.
  - cbn [String.append Request.split_from]. rewrite Ascii.eqb_refl.
    now rewrite append_nil_r.
  - cbn [Regex.all_chars] in H. apply andb_true_iff in H.
    destruct H as [Hc Ha]. apply negb_true_iff in Hc.
    cbn [String.append Request.split_from]. rewrite Hc, (IH _ Ha).
    now rewrite append_assoc.
Qed.

(** X24. Every uploaded file reaches the analysis request once: the
    request has the prompt as its first part, followed by one inline part
    per image file, in order, with the file's type; and the prompt holds,
    behind the main text, the section of every other file with its name and
    its whole text. *)
Theorem request_uses_every_file (text : string) (files : list UploadedFile) :
  Request.parts text files
    = Request.TextPart (Request.prompt text files)
      :: List.map
           (fun f => Request.InlineData (type f)
                       (nth_error (Request.split "," (data f)) 1))
           (List.filter (fun f => Str.startsWith (type f) "image/") files)
  /\ String.prefix (Request.preamble ^^ text) (Request.prompt text files)
     = true
  /\ Forall (fun f =>
       Str.startsWith (type f) "image/" = false ->
       Str.includes (Request.prompt text files)
         ("Content from file (" ^^ name f ^^ "):" ^^ LF ^^ data f
            ^^ LF ^^ LF) = true)
     files.
Proof.
  split; [|split].
  - unfold Request.parts. rewrite fold_snoc_map. reflexivity.
  - unfold Request.prompt. rewrite fold_append_concat.
    rewrite !append_assoc. rewrite <- (append_assoc Request.preamble).
    apply prefix_append.
  - apply Forall_forall. intros f Hin Himg.
    assert (Hf : In f (List.filter (fun f => negb (Request.is_image f))
                                   files)).
    { apply List.filter_In. split; [exact Hin|].
      unfold Request.is_image. now rewrite Himg. }
    unfold Request.prompt. rewrite fold_append_concat.
    apply List.in_split in Hf. destruct Hf as (l1 & l2 & ->).
    rewrite List.map_app. cbn [List.map]. rewrite concat_middle.
    rewrite <- append_assoc.
    apply (includes_append _ (Request.file_section f)).
Qed.

(** X25. The inline data of an image is what follows the first comma of
    its data URL, up to the next comma if there is one: for a data URL
    [head,payload] without further commas it is the payload; for data
    without a comma there is none. *)
Theorem inline_data_payload (f : UploadedFile) (head payload : string) :
  Regex.all_chars (fun c => negb (Ascii.eqb c ",")) head = true ->
  Regex.all_chars (fun c => negb (Ascii.eqb c ",")) payload = true ->
  (data f = head ^^ "," ^^ payload ->
   Request.inline_data f = Request.InlineData (type f) (Some payload))
  /\ (data f = head ->
      Request.inline_data f = Request.InlineData (type f) None).
Proof.
  intros Hh Hp. unfold Request.inline_data, Request.split. split.
  - intros ->. change ("," ^^ payload) with (String "," payload).
    rewrite (split_from_head "," head payload EmptyString Hh).
    now rewrite (split_from_no_sep "," payload EmptyString Hp).
  - intros ->. now rewrite (split_from_no_sep "," head EmptyString Hh).
Qed.

Lemma inline_data_payload_witness :
  Request.inline_data
    (mkUploaded "photo.png" "image/png" "data:image/png;base64,AAAA"
                (Some "data:image/png;base64,AAAA"))
  = Request.InlineData "image/png" (Some "AAAA").
Proof.
  refine (proj1 (inline_data_payload
                   (mkUploaded "photo.png" "image/png"
                               "data:image/png;base64,AAAA"
                               (Some "data:image/png;base64,AAAA"))
                   "data:image/png;base64" "AAAA" eq_refl eq_refl) eq_refl).
Defined.

(** ** The chat *)

Lemma set_last_text_snoc (messages : list ChatPanel.Message)
    (m : ChatPanel.Message) (t : string) :
  ChatPanel.set_last_text (messages ++ [m]) t
    = messages ++ [ChatPanel.mkMessage (ChatPanel.role m) t].
Proof.
  induction messages as [|x xs IH]; [reflexivity|].
  cbn [List.app]. destruct (xs ++ [m]) as [|y ys] eqn:E.
  - destruct xs; discriminate.
  - change (ChatPanel.set_last_text (x :: y :: ys) t)
      with (x :: ChatPanel.set_last_text (y :: ys) t).
    now rewrite IH.
Qed.

Lemma consume_answer (stream : ChatPanel.Stream) (t : string)
    (messages : list ChatPanel.Message) :
  ChatPanel.consume stream t
    (messages ++ [ChatPanel.mkMessage ChatPanel.ai t])
  = (messages ++ [ChatPanel.mkMessage ChatPanel.ai
                    (t ^^ ChatPanel.stream_text stream)],
     ChatPanel.stream_failure stream).
Proof.
  revert t. induction stream as [|[c|] rest IH|e]; intros t;
    cbn [ChatPanel.consume ChatPanel.stream_text ChatPanel.stream_failure].
  - now rewrite append_nil_r.
  - rewrite set_last_text_snoc. cbn [ChatPanel.role].
    rewrite IH. now rewrite append_assoc.
  - apply IH.
  - now rewrite append_nil_r.
Qed.

(** X26. A question that is sent (not blank, a session open, no answer
    under way) adds the question as typed and then the answer, whose text
    is the texts of all chunks of the stream put together; when the stream
    breaks, what was received of the answer stays and an apology follows;
    when the request itself is refused, the apology follows the question.
    In all three cases the input is cleared and the typing state ends. *)
Theorem chat_exchange (st : ChatPanel.t) (session : ChatPanel.Session) :
  ChatPanel.chatSession st = Some session ->
  Str.all_white_space (ChatPanel.currentChatInput st) = false ->
  ChatPanel.isChatTyping st = false ->
  let question :=
    ChatPanel.mkMessage ChatPanel.user (ChatPanel.currentChatInput st) in
  let after := ChatPanel.handleSendChatMessage st in
  ChatPanel.currentChatInput after = EmptyString
  /\ ChatPanel.isChatTyping after = false
  /\ ChatPanel.chatMessages after
     = ChatPanel.chatMessages st ++ question
       :: match session (ChatPanel.currentChatInput st) with
          | inl _ => [ChatPanel.apology]
          | inr stream =>
              ChatPanel.mkMessage ChatPanel.ai (ChatPanel.stream_text stream)
              :: match ChatPanel.stream_failure stream with
                 | None => []
                 | Some _ => [ChatPanel.apology]
                 end
          end.
Proof.
  intros Hs Hinput Htyping. cbv zeta. unfold ChatPanel.handleSendChatMessage.
  rewrite Hs, Htyping.
  assert (Hb : (Str.trim (ChatPanel.currentChatInput st) =? EmptyString)%string
               = false).
  { pose proof (is_blank_spec (ChatPanel.currentChatInput st)) as E.
    rewrite Hinput in E. unfold is_blank in E.
    now apply orb_false_iff in E. }
  rewrite Hb. cbn [orb ChatPanel.currentChatInput ChatPanel.isChatTyping
                       ChatPanel.chatMessages].
  split; [reflexivity|]. split; [reflexivity|].
  destruct (session (ChatPanel.currentChatInput st)) as [e|stream].
  - now rewrite <- List.app_assoc.
  - rewrite consume_answer. cbn [String.append].
    destruct (ChatPanel.stream_failure stream);
      now rewrite <- !List.app_assoc.
Qed.

(** X27. A question is not sent while the input is blank, while no
    session is open or while an answer is under way: the chat stays as it
    is. *)
Theorem chat_guard (st : ChatPanel.t) :
  Str.all_white_space (ChatPanel.currentChatInput st) = true
  \/ ChatPanel.chatSession st = None
  \/ ChatPanel.isChatTyping st = true ->
  ChatPanel.handleSendChatMessage st = st.
Proof.
  intros H. unfold ChatPanel.handleSendChatMessage.
  destruct (ChatPanel.chatSession st) as [session|]; [|reflexivity].
  destruct H as [H|[H|H]]; [|discriminate|].
  - pose proof (is_blank_spec (ChatPanel.currentChatInput st)) as E.
    rewrite H in E. unfold is_blank in E.
    destruct (ChatPanel.currentChatInput st) as [|c s] eqn:Ein.
    + reflexivity.
    + cbn [String.eqb orb] in E. now rewrite E.
  - rewrite H. now rewrite orb_true_r.
Qed.

Lemma relatedGaps_best_three_witness :
  let gap := Cards.attention in
  let allGaps := [Cards.attention; Cards.drift; Cards.ethics] in
  let shared := Related.score (Related.getKeywords gap) in
  let shown := Related.relatedGaps gap allGaps in
  StronglySorted (fun a b => (shared b <= shared a)%nat) shown
  /\ exists rest,
       Permutation
         (List.filter
            (fun g => negb (Gap.id g =? Gap.id gap)%string
                      && (0 <? shared g)%nat) allGaps)
         (shown ++ rest)
       /\ Forall (fun g => Forall (fun r => (shared g <= shared r)%nat) shown)
                 rest
       /\ (rest <> [] -> List.length shown = 3%nat).
Proof.
  apply (relatedGaps_best_three Cards.attention
           [Cards.attention; Cards.drift; Cards.ethics]).
  cbn. lia.
Defined.

Lemma chat_exchange_witness :
  ChatPanel.chatMessages (ChatPanel.handleSendChatMessage Cards.asking)
  = [ ChatPanel.mkMessage ChatPanel.ai "Analysis complete!";
      ChatPanel.mkMessage ChatPanel.user "Which gaps matter most?";
      ChatPanel.mkMessage ChatPanel.ai "Two gaps stand out";
      ChatPanel.apology ].
Proof.
  exact (proj2 (proj2 (chat_exchange Cards.asking Cards.breaking
                         eq_refl eq_refl eq_refl))).
Defined.

Lemma chat_guard_witness :
  ChatPanel.handleSendChatMessage
    (ChatPanel.make [] "   " false (Some Cards.breaking))
  = ChatPanel.make [] "   " false (Some Cards.breaking).
Proof.
  apply chat_guard. left. reflexivity.
Defined.

(** ** Ingested files in the rest of the application *)

Section AfterIngestion.
Variable ArrayBuffer : Type.
Variable arrayBuffer : File.t -> result ArrayBuffer.
Variable getDocument : ArrayBuffer -> result PDFDocument.
Variable loadAsync : File.t -> result JSZip.
Variable readAsDataURL : File.t -> option string.

Let outcome :=
  file_result ArrayBuffer arrayBuffer getDocument loadAsync readAsDataURL.
Let results :=
  outcomes ArrayBuffer arrayBuffer getDocument loadAsync readAsDataURL.
Let finishes :=
  completes ArrayBuffer arrayBuffer getDocument loadAsync readAsDataURL.
Let handle :=
  handleFileChange ArrayBuffer arrayBuffer getDocument loadAsync
    readAsDataURL.

(** X28. When the file reader never gives an empty data URL, the records
    that a batch adds can be animated exactly when they are images: the
    guard of the animation stops every extracted document and lets every
    image through. *)
Theorem animation_for_images_only (sel : list File.t) (st : AppState) :
  (forall file base64,
      readAsDataURL file = Some base64 -> base64 <> EmptyString) ->
  exists newFiles,
    files (handle sel st) = files st ++ newFiles
    /\ Forall (fun u => can_animate u = Str.startsWith (type u) "image/")
              newFiles.
Proof.
  intros Hurl. exists (if finishes sel then records (results sel) else []).
  split.
  { unfold handle. rewrite handle_outcomes. cbn [files].
    fold finishes. fold results.
    destruct (finishes sel); [reflexivity | now rewrite List.app_nil_r]. }
  destruct (finishes sel); [|constructor].
  apply Forall_forall. intros u Hu.
  apply records_In, results_In in Hu. destruct Hu as (file & _ & E).
  destruct (outcome_record _ _ _ _ _ file u E)
    as [[Himg (base64 & Hread & ->)]|[(text & _ & ->)|(text & _ & ->)]];
    unfold can_animate; cbn [preview type]; try reflexivity.
  rewrite Himg. specialize (Hurl file base64 Hread).
  apply String.eqb_neq in Hurl. now rewrite Hurl.
Qed.

(** X29. Adding files never moves the files already there: every position
    of the earlier list holds the same file afterwards, so the indices of a
    selection stand for the same files. *)
Theorem handleFileChange_keeps_positions (sel : list File.t) (st : AppState)
    (j : nat) :
  (j < List.length (files st))%nat ->
  nth_error (files (handle sel st)) j = nth_error (files st) j.
Proof.
  intros Hj. unfold handle. rewrite handle_outcomes. cbn [files].
  destruct (completes _ _ _ _ _ sel); [|reflexivity].
  now apply nth_error_app1.
Qed.
End AfterIngestion.

Lemma animation_for_images_only_witness :
  exists newFiles,
    files (Sample.handleFileChange [Sample.photo; Sample.paper] Sample.start)
      = files Sample.start ++ newFiles
    /\ Forall (fun u => can_animate u = Str.startsWith (type u) "image/")
              newFiles.
Proof.
  apply (animation_for_images_only string Sample.arrayBuffer
           Sample.getDocument Sample.loadAsync Sample.readAsDataURL
           [Sample.photo; Sample.paper] Sample.start).
  intros file base64. unfold Sample.readAsDataURL.
  destruct (File.name file =? "gone.png")%string; [discriminate|].
  intros [= <-]. discriminate.
Defined.

Lemma handleFileChange_keeps_positions_witness :
  nth_error
    (files (Sample.handleFileChange [Sample.photo]
              {| files := [mkUploaded "a.pdf" pdf_mime "A" None];
                 error := None |})) 0
  = Some (mkUploaded "a.pdf" pdf_mime "A" None).
Proof.
  apply (handleFileChange_keeps_positions string Sample.arrayBuffer
           Sample.getDocument Sample.loadAsync Sample.readAsDataURL
           [Sample.photo]
           {| files := [mkUploaded "a.pdf" pdf_mime "A" None];
              error := None |} 0%nat).
  cbn. lia.
Defined.
